(** * Folded-stack analyzer: a shallow embedding of [flamegraph_analyzer.py]

    The development follows the class [FlameGraphAnalyzer]:

    - [Py]: the Python built-ins the parser relies on ([str.strip],
      [str.split], [str.rsplit], [in] on strings, [int]);
    - [Dict]: insertion-ordered dictionaries ([defaultdict(int)] and
      [defaultdict(set)]), kept as association lists because the iteration
      order of a dictionary decides ties in [sorted] and the order in which
      [parse_file] walks [func_counts] and [categories];
    - the analyzer record, [process_line] (one turn of the parse loop) and
      [parse_file];
    - the report methods, in an error monad whose exceptions are
      [ZeroDivisionError] and [OverflowError].

    Modelling conventions.  A Python [str] is the byte string of its UTF-8
    encoding.  [Py.strip] and [Py.int] are [str.strip] and [int] on ASCII
    text: CPython also strips the Unicode white space and also reads the
    Unicode decimal digits.  The statements on how a line is cut, and on
    which lines are blank, are made of the lines that [ascii_text] holds
    of; the statements on the tallies are made of the Samples, the lines
    as [parse_line] cuts them.  Python integers are [Z].  A Python [float]
    that the code compares with a threshold (lines 237-241, 322-323,
    336-337) is a binary64 number, [float64]: the division of two integers
    rounds to the nearest, ties to even, and raises [OverflowError] beyond
    the range.  A [float] that the code only prints (the percentage column
    of the rankings and of the tables) is carried as the exact rational
    that the code rounds, and only the division by zero is modelled there.
    Formatting is not modelled: neither the text printed nor the
    [ValueError] of an integer of more than 4300 digits, which CPython
    refuses to print; [printable] is the hypothesis of the statements that
    depend on it. *)

From Stdlib Require Import ZArith List String Ascii Bool Lia.
From Stdlib Require Import QArith Permutation Sorted.
Import ListNotations.

Local Open Scope string_scope.
Local Open Scope Z_scope.

(* ================================================================== *)
(** ** Python built-ins on strings *)

Module Py.

(** [str.isspace] on the ASCII range: TAB..CR, FS..US and the blank. *)
Definition isspace (c : ascii) : bool :=
  let n := N_of_ascii c in
  (((9 <=? n) && (n <=? 13)) || ((28 <=? n) && (n <=? 32)))%N.

(** [Py_ISSPACE], the white space [int] skips on an ASCII string:
    TAB..CR and the blank (FS..US are not skipped). *)
Definition c_isspace (c : ascii) : bool :=
  let n := N_of_ascii c in
  (((9 <=? n) && (n <=? 13)) || (n =? 32))%N.

Section Strip.
Variable ws : ascii -> bool.

Fixpoint lstrip_with (s : string) : string :=
  match s with
  | EmptyString => EmptyString
  | String c s' => if ws c then lstrip_with s' else s
  end.

Fixpoint rstrip_with (s : string) : string :=
  match s with
  | EmptyString => EmptyString
  | String c s' =>
      match rstrip_with s' with
      | EmptyString => if ws c then EmptyString else String c EmptyString
      | r => String c r
      end
  end.

Definition strip_with (s : string) : string := rstrip_with (lstrip_with s).
End Strip.

(** [s.strip()] for an [s] of ASCII text.  ([str.strip] removes the
    Unicode white space as well, U+00A0 or U+3000 for one: on other text
    this is not [str.strip].) *)
Definition strip : string -> string := strip_with isspace.

(** [s.split(sep)] for a one-character separator: never the empty list. *)
Fixpoint split (sep : ascii) (s : string) : list string :=
  match s with
  | EmptyString => [EmptyString]
  | String c s' =>
      if Ascii.eqb c sep then EmptyString :: split sep s'
      else match split sep s' with
           | h :: t => String c h :: t
           | [] => [String c EmptyString]
           end
  end.

(** The cut made by [s.rsplit(sep, 1)]: the text before and after the
    last [sep], when there is one. *)
Fixpoint rsplit1 (sep : ascii) (s : string) : option (string * string) :=
  match s with
  | EmptyString => None
  | String c s' =>
      match rsplit1 sep s' with
      | Some (a, b) => Some (String c a, b)
      | None => if Ascii.eqb c sep then Some (EmptyString, s') else None
      end
  end.

(** [s.rsplit(sep, 1)] *)
Definition rsplit (sep : ascii) (s : string) : list string :=
  match rsplit1 sep s with
  | Some (a, b) => [a; b]
  | None => [s]
  end.

(** [sub in s] *)
Fixpoint contains (sub s : string) : bool :=
  String.prefix sub s ||
  match s with
  | EmptyString => false
  | String _ s' => contains sub s'
  end.

(** [c in s] for one character. *)
Fixpoint has_char (c : ascii) (s : string) : bool :=
  match s with
  | EmptyString => false
  | String c' s' => Ascii.eqb c' c || has_char c s'
  end.

Definition digit_val (c : ascii) : option Z :=
  let n := N_of_ascii c in
  if ((48 <=? n) && (n <=? 57))%N then Some (Z.of_N n - 48) else None.

(** The digit scan of [PyLong_FromString] in base 10: digits, each
    underscore between two digits.  Returns the value and the number of
    digits read. *)
Fixpoint scan_digits (s : string) (prev_us : bool) (acc : Z) (ndig : nat)
  : option (Z * nat) :=
  match s with
  | EmptyString => if prev_us then None else Some (acc, ndig)
  | String c s' =>
      if Ascii.eqb c "_" then
        if prev_us then None else scan_digits s' true acc ndig
      else
        match digit_val c with
        | Some d => scan_digits s' false (10 * acc + d) (S ndig)
        | None => None
        end
  end.

(** [sys.get_int_max_str_digits()], CPython's default. *)
Definition max_str_digits : nat := 4300.

Definition int_body (s : string) : option Z :=
  match s with
  | EmptyString => None
  | String c _ =>
      if Ascii.eqb c "_" then None
      else match scan_digits s false 0 0 with
           | Some (v, n) => if (n <=? max_str_digits)%nat then Some v else None
           | None => None
           end
  end.

(** [int(s)] for an [s] of ASCII text: [Some n] for the integer read,
    [None] for [ValueError].  ([int] reads the Unicode decimal digits and
    skips the Unicode white space as well: on other text this is not
    [int].) *)
Definition int (s : string) : option Z :=
  match strip_with c_isspace s with
  | String "+" b => int_body b
  | String "-" b => option_map Z.opp (int_body b)
  | b => int_body b
  end.

End Py.

(* ================================================================== *)
(** ** Dictionaries in insertion order *)

Module Dict.

Definition dict (V : Type) : Type := list (string * V).

Definition keys {V} (d : dict V) : list string := map fst d.
Definition values {V} (d : dict V) : list V := map snd d.

(** [d.get(k, dflt)] *)
Fixpoint get {V} (d : dict V) (k : string) (dflt : V) : V :=
  match d with
  | [] => dflt
  | (k', v) :: d' => if String.eqb k' k then v else get d' k dflt
  end.

(** [d[k] = f(d[k])] on a [defaultdict] whose factory gives [dflt]: an
    existing entry keeps its place, a new key goes last. *)
Fixpoint update {V} (dflt : V) (f : V -> V) (k : string) (d : dict V)
  : dict V :=
  match d with
  | [] => [(k, f dflt)]
  | (k', v) :: d' =>
      if String.eqb k' k then (k', f v) :: d'
      else (k', v) :: update dflt f k d'
  end.

(** [d[k] += w] on a [defaultdict(int)] *)
Definition add (k : string) (w : Z) (d : dict Z) : dict Z :=
  update 0 (fun v => v + w) k d.

(** A Python [set] of strings: only membership and size are observed. *)
Definition pyset : Type := list string.

Definition mem (x : string) (s : pyset) : bool :=
  existsb (String.eqb x) s.

(** [s.add(x)] *)
Definition set_add (x : string) (s : pyset) : pyset :=
  if mem x s then s else (s ++ [x])%list.

(** [d[k].add(x)] on a [defaultdict(set)] *)
Definition add_member (k x : string) (d : dict pyset) : dict pyset :=
  update [] (set_add x) k d.

(** [sum(d.values())] *)
Definition total (d : dict Z) : Z := fold_right Z.add 0 (values d).

End Dict.

Import Dict.

(* ================================================================== *)
(** ** The analyzer: [FlameGraphAnalyzer.__init__] and [parse_file] *)

(** The fields of [FlameGraphAnalyzer] that [parse_file] and the reports
    read or write ([file_path] and the unused [alloc_size] are left out). *)
Record analyzer : Type := mkAnalyzer {
  inclusive_time : dict Z;
  exclusive_time : dict Z;
  call_relations : dict pyset;
  leaf_counts : dict Z;
  func_counts : dict Z;
  total_samples : Z;
  parsed_lines : Z;
  line_count : Z;
  malloc_counts : dict Z;
  free_counts : dict Z;
  category_counts : dict Z
}.

(** [self.categories], in the order the dictionary literal lists it:
    (category name, substring looked for). *)
Definition categories : list (string * string) :=
  [ ("MoganSTEM", "MoganSTEM");
    ("Qt", "Qt");
    ("AppKit", "AppKit");
    ("CoreFoundation", "CoreFoundation");
    ("libsystem_malloc", "libsystem_malloc");
    ("libsystem_kernel", "libsystem_kernel");
    ("QuartzCore", "QuartzCore");
    ("Foundation", "Foundation");
    ("HIToolbox", "HIToolbox");
    ("CoreText", "CoreText");
    ("iiiSTEM", "iiiSTEM");
    ("libqcocoa", "libqcocoa.dylib");
    ("libqsvgicon", "libqsvgicon.dylib");
    ("libxpc", "libxpc.dylib");
    ("libdispatch", "libdispatch.dylib");
    ("libobjc", "libobjc.A.dylib");
    ("libswiftCore", "libswiftCore.dylib") ].

(** The key of the fallback bucket (the source spells it in Chinese:
    the two characters U+5176 U+4ED6, here as their UTF-8 bytes). *)
Definition other : string :=
  String (ascii_of_nat 229) (String (ascii_of_nat 133) (String (ascii_of_nat 182)
  (String (ascii_of_nat 228) (String (ascii_of_nat 187) (String (ascii_of_nat 150)
   EmptyString))))).

(** The analyzer as [__init__] leaves it. *)
Definition init : analyzer :=
  mkAnalyzer [] [] [] [] [] 0 0 0 [] [] [].

(** Lines 68-85: the stack string and the weight of a stripped,
    non-empty line. *)
Definition split_weight (line : string) : string * Z :=
  let parts := Py.rsplit ";" line in
  let parts :=
    if negb (List.length parts =? 2)%nat then
      if Py.contains " " line then Py.rsplit " " line else parts
    else parts in
  match parts with
  | [stack_str; count_str] =>
      match Py.int count_str with
      | Some count => (stack_str, count)
      | None => (line, 1)
      end
  | _ => (line, 1)
  end.

(** Lines 63-91: the Sample of a raw line, [None] for a line the loop
    skips. *)
Definition parse_line (raw : string) : option (list string * Z) :=
  let line := Py.strip raw in
  if String.eqb line "" then None
  else
    let '(stack_str, count) := split_weight line in
    Some (Py.split ";" stack_str, count).

(** Lines 96-98 *)
Definition count_funcs (stack : list string) (count : Z) (fc : dict Z)
  : dict Z :=
  fold_left
    (fun fc func => if String.eqb func "" then fc else Dict.add func count fc)
    stack fc.

(** Lines 101-104 *)
Fixpoint record_calls (stack : list string) (cr : dict pyset) : dict pyset :=
  match stack with
  | caller :: ((callee :: _) as rest) =>
      record_calls rest (Dict.add_member caller callee cr)
  | _ => cr
  end.

(** Lines 107-108 *)
Definition count_inclusive (stack : list string) (count : Z) (it : dict Z)
  : dict Z :=
  fold_left (fun it func => Dict.add func count it) stack it.

(** Line 119 *)
Definition is_alloc_name (leaf_func : string) : bool :=
  Py.contains "malloc" leaf_func || Py.contains "calloc" leaf_func
  || Py.contains "realloc" leaf_func.

(** Lines 95-122: one Sample folded into the tallies. *)
Definition aggregate (st : analyzer) (stack : list string) (count : Z)
  : analyzer :=
  match stack with
  | [] => st
  | _ =>
      let leaf_func := last stack "" in
      let is_alloc := is_alloc_name leaf_func in
      let is_free := negb is_alloc && Py.contains "free" leaf_func in
      {| inclusive_time := count_inclusive stack count (inclusive_time st);
         exclusive_time := Dict.add leaf_func count (exclusive_time st);
         call_relations := record_calls stack (call_relations st);
         leaf_counts := Dict.add leaf_func count (leaf_counts st);
         func_counts := count_funcs stack count (func_counts st);
         total_samples := total_samples st;
         parsed_lines := parsed_lines st;
         line_count := line_count st;
         malloc_counts :=
           if is_alloc then Dict.add leaf_func count (malloc_counts st)
           else malloc_counts st;
         free_counts :=
           if is_free then Dict.add leaf_func count (free_counts st)
           else free_counts st;
         category_counts := category_counts st |}
  end.

(** Lines 62 and 87-88: the three scan-wide counters. *)
Definition count_line (st : analyzer) : analyzer :=
  {| inclusive_time := inclusive_time st;
     exclusive_time := exclusive_time st;
     call_relations := call_relations st;
     leaf_counts := leaf_counts st;
     func_counts := func_counts st;
     total_samples := total_samples st;
     parsed_lines := parsed_lines st;
     line_count := line_count st + 1;
     malloc_counts := malloc_counts st;
     free_counts := free_counts st;
     category_counts := category_counts st |}.

Definition count_sample (count : Z) (st : analyzer) : analyzer :=
  {| inclusive_time := inclusive_time st;
     exclusive_time := exclusive_time st;
     call_relations := call_relations st;
     leaf_counts := leaf_counts st;
     func_counts := func_counts st;
     total_samples := total_samples st + count;
     parsed_lines := parsed_lines st + 1;
     line_count := line_count st;
     malloc_counts := malloc_counts st;
     free_counts := free_counts st;
     category_counts := category_counts st |}.

(** Lines 61-122: one turn of the loop over the lines of the file. *)
Definition process_line (st : analyzer) (raw : string) : analyzer :=
  let st := count_line st in
  match parse_line raw with
  | None => st
  | Some (stack, count) => aggregate (count_sample count st) stack count
  end.

(** Lines 126-133: the bucket of one function name. *)
Fixpoint first_match (cats : list (string * string)) (func : string)
  : option string :=
  match cats with
  | [] => None
  | (cat_name, cat_prefix) :: rest =>
      if Py.contains cat_prefix func then Some cat_name
      else first_match rest func
  end.

Definition category_of (func : string) : string :=
  match first_match categories func with
  | Some cat_name => cat_name
  | None => other
  end.

(** Lines 125-133 *)
Definition categorize (fc : dict Z) (cc : dict Z) : dict Z :=
  fold_left (fun cc '(func, count) => Dict.add (category_of func) count cc)
            fc cc.

Definition set_category_counts (cc : dict Z) (st : analyzer) : analyzer :=
  {| inclusive_time := inclusive_time st;
     exclusive_time := exclusive_time st;
     call_relations := call_relations st;
     leaf_counts := leaf_counts st;
     func_counts := func_counts st;
     total_samples := total_samples st;
     parsed_lines := parsed_lines st;
     line_count := line_count st;
     malloc_counts := malloc_counts st;
     free_counts := free_counts st;
     category_counts := cc |}.

(** [parse_file], on the lines of the file as the iteration over the file
    object yields them. *)
Definition parse_file (st : analyzer) (lines : list string) : analyzer :=
  let st := fold_left process_line lines st in
  set_category_counts (categorize (func_counts st) (category_counts st)) st.

(** The Samples of a file: what the loop accepted, in order. *)
Definition samples (lines : list string) : list (list string * Z) :=
  flat_map (fun raw => match parse_line raw with
                       | Some s => [s]
                       | None => []
                       end) lines.

(** The weight the accepted lines carry in all. *)
Definition total_weight (lines : list string) : Z :=
  fold_right Z.add 0 (map snd (samples lines)).

(* ================================================================== *)
(** ** The reports *)

(** The exceptions a division of the report methods can raise. *)
Inductive exn : Type :=
| ZeroDivisionError
| OverflowError.

Inductive result (A : Type) : Type :=
| Ok (a : A)
| Raise (e : exn).
Arguments Ok {A} a.
Arguments Raise {A} e.

Definition bind {A B} (r : result A) (k : A -> result B) : result B :=
  match r with
  | Ok a => k a
  | Raise e => Raise e
  end.

Notation "x <- r ;; k" := (bind r (fun x => k))
  (at level 61, r at next level, right associativity).

(** A [for] loop whose body may raise: the first exception ends it. *)
Fixpoint for_each {A B} (body : A -> result B) (l : list A)
  : result (list B) :=
  match l with
  | [] => Ok []
  | x :: l' =>
      y <- body x ;;
      ys <- for_each body l' ;;
      Ok (y :: ys)
  end.

(** *** Binary64 *)

(** A Python [float]: the number [m * 2 ^ e], or an infinity.  (The
    reports divide two integers and multiply by 100: no NaN arises, and
    the sign of a zero is never looked at.) *)
Inductive float64 : Type :=
| Finite (m e : Z)
| PosInf
| NegInf.

(** The [e] with [2 ^ e <= n / d < 2 ^ (e + 1)], for [n] and [d] above 0. *)
Definition floor_log2_quot (n d : Z) : Z :=
  let e0 := Z.log2 n - Z.log2 d in
  if (if 0 <=? e0 then d * 2 ^ e0 <=? n else d <=? n * 2 ^ (- e0))
  then e0 else e0 - 1.

(** [n / d], for [n] and [d] above 0, rounded to the nearest binary64
    number, a tie going to the even mantissa: 53 bits of mantissa, the
    exponent of the last bit not below -1074, and an infinity from
    [2 ^ 1024] on. *)
Definition round_quot (n d : Z) : float64 :=
  let e := floor_log2_quot n d in
  let s := Z.max (e - 52) (-1074) in
  let N := if s <? 0 then n * 2 ^ (- s) else n in
  let D := if s <? 0 then d else d * 2 ^ s in
  let q := N / D in
  let r := N mod D in
  let m := if (D <? 2 * r) || ((D =? 2 * r) && Z.odd q) then q + 1 else q in
  if (0 <=? s) && (2 ^ 1024 <=? m * 2 ^ s) then PosInf else Finite m s.

Definition fneg (x : float64) : float64 :=
  match x with
  | Finite m e => Finite (- m) e
  | PosInf => NegInf
  | NegInf => PosInf
  end.

(** The binary64 number nearest to [num / den], for [den] other than 0.
    A decimal literal is read this way: [2.0] is [round64 2 1] and [0.8]
    is [round64 8 10]. *)
Definition round64 (num den : Z) : float64 :=
  let n := num * Z.sgn den in
  let d := Z.abs den in
  match n ?= 0 with
  | Eq => Finite 0 0
  | Gt => round_quot n d
  | Lt => fneg (round_quot (- n) d)
  end.

(** [x * k] for a float [x] and a literal [k] above 0 that binary64
    holds exactly: the product is rounded, and overflows to an infinity
    without an exception. *)
Definition times (x : float64) (k : Z) : float64 :=
  match x with
  | Finite m e =>
      if 0 <=? e then round64 (m * k * 2 ^ e) 1
      else round64 (m * k) (2 ^ (- e))
  | inf => inf
  end.

(** [x < y] *)
Definition float_ltb (x y : float64) : bool :=
  match x, y with
  | Finite m1 e1, Finite m2 e2 =>
      let e := Z.min e1 e2 in
      m1 * 2 ^ (e1 - e) <? m2 * 2 ^ (e2 - e)
  | Finite _ _, PosInf => true
  | Finite _ _, NegInf => false
  | PosInf, _ => false
  | NegInf, NegInf => false
  | NegInf, _ => true
  end.

(** [a / b] on two integers, as CPython computes it: the quotient
    rounded once to binary64, [OverflowError] when it is beyond the
    range. *)
Definition truediv64 (a b : Z) : result float64 :=
  if b =? 0 then Raise ZeroDivisionError
  else match round64 a b with
       | Finite m e => Ok (Finite m e)
       | _ => Raise OverflowError
       end.

(** [(weight / self.total_samples) * 100], where the code compares it. *)
Definition percent64 (weight total : Z) : result float64 :=
  q <- truediv64 weight total ;;
  Ok (times q 100).

(** *** Percentages that are printed *)

(** [a / b] on two integers, where the quotient is only printed: the
    exact rational that the code rounds to binary64, and of the failures
    of the division the one by zero ([truediv64] is the division in
    full). *)
Definition truediv (a b : Z) : result Q :=
  if b =? 0 then Raise ZeroDivisionError
  else Ok (inject_Z a / inject_Z b)%Q.

(** [(weight / self.total_samples) * 100] *)
Definition percentage (weight total : Z) : result Q :=
  q <- truediv weight total ;;
  Ok (q * 100)%Q.

(** [(weight / self.total_samples) * 100 if self.total_samples > 0 else 0] *)
Definition guarded_percentage (weight total : Z) : Q :=
  if total >? 0 then (inject_Z weight / inject_Z total * 100)%Q else 0%Q.

Section Sorting.
Context {A : Type} (key : A -> Z).

Fixpoint insert_desc (x : A) (l : list A) : list A :=
  match l with
  | [] => [x]
  | y :: l' => if key y >? key x then y :: insert_desc x l'
               else x :: l
  end.

(** [sorted(l, key=key, reverse=True)]: decreasing keys, and items of
    equal key in the order [l] has them.  Each item, from the last to
    the first, goes in front of the items it beats or ties with. *)
Fixpoint sorted_desc (l : list A) : list A :=
  match l with
  | [] => []
  | x :: l' => insert_desc x (sorted_desc l')
  end.
End Sorting.

(** [l[:n]] *)
Definition slice_to {A} (n : Z) (l : list A) : list A :=
  if n <? 0 then firstn (List.length l - Z.to_nat (- n)) l
  else firstn (Z.to_nat n) l.

(** [enumerate(l, 1)] *)
Definition enumerate1 {A} (l : list A) : list (nat * A) :=
  combine (seq 1 (List.length l)) l.

(** A ranked row: rank, name, weight, percentage.  (The width the name is
    cut to for display is formatting and is not modelled.) *)
Definition row : Type := (nat * string * Z * Q)%type.

(** The loop shared by the three rankings (lines 161-163, 172-174,
    183-185). *)
Definition ranking (tally : dict Z) (total top_n : Z) : result (list row) :=
  for_each (fun '(i, (func, time_val)) =>
              p <- percentage time_val total ;;
              Ok (i, func, time_val, p))
           (enumerate1 (slice_to top_n (sorted_desc snd tally))).

Definition print_inclusive_time_top (st : analyzer) (top_n : Z)
  : result (list row) :=
  ranking (inclusive_time st) (total_samples st) top_n.

Definition print_exclusive_time_top (st : analyzer) (top_n : Z)
  : result (list row) :=
  ranking (exclusive_time st) (total_samples st) top_n.

Definition print_leaf_functions_top (st : analyzer) (top_n : Z)
  : result (list row) :=
  ranking (leaf_counts st) (total_samples st) top_n.

(** Lines 194-196 *)
Definition print_category_analysis (st : analyzer)
  : result (list (string * Z * Q)) :=
  for_each (fun '(cat, count) =>
              p <- percentage count (total_samples st) ;;
              Ok (cat, count, p))
           (sorted_desc snd (category_counts st)).

(** Lines 321-325 and 335-339: the items of the first twenty whose
    percentage is above [threshold]. *)
Definition high_cost (tally : dict Z) (total : Z) (threshold : float64)
  : result (list (string * float64)) :=
  rows <- for_each (fun '(func, time_val) =>
                      p <- percent64 time_val total ;;
                      Ok (func, p))
                   (slice_to 20 (sorted_desc snd tally)) ;;
  Ok (filter (fun '(_, p) => float_ltb threshold p) rows).

Definition print_performance_issues (st : analyzer)
  : result (list (string * float64) * list (string * float64)) :=
  high_inclusive <-
    high_cost (inclusive_time st) (total_samples st) (round64 2 1) ;;
  high_exclusive <-
    high_cost (exclusive_time st) (total_samples st) (round64 1 1) ;;
  Ok (high_inclusive, high_exclusive).

(** *** [print_memory_analysis] *)

(** The union of the two key sets, in the order [malloc_counts] and then
    [free_counts] list them.  Python iterates a [set] in an order of its
    own, so the report takes the order of iteration as an argument and
    this one is only the order used in examples. *)
Definition all_memory_funcs (st : analyzer) : list string :=
  fold_left (fun s k => set_add k s)
            (keys (malloc_counts st) ++ keys (free_counts st))%list [].

Definition mem_stat : Type := (string * Z * Z * Z)%type.

(** Lines 207-217 *)
Definition memory_stats (st : analyzer) (funcs : list string)
  : list mem_stat :=
  sorted_desc (fun '(_, _, _, total) => total)
    (flat_map (fun func =>
                 let malloc_count := Dict.get (malloc_counts st) func 0 in
                 let free_count := Dict.get (free_counts st) func 0 in
                 let total := malloc_count + free_count in
                 if total >? 0 then [(func, malloc_count, free_count, total)]
                 else [])
              funcs).

Inductive ratio_class : Type :=
| LeakRisk        (* the warning of line 240 *)
| CacheOrSkew     (* the note of line 242 *)
| Neutral.        (* the ratio alone *)

(** Lines 236-242: the ratio printed and the message that follows it,
    [None] when nothing is printed. *)
Definition memory_ratio (total_malloc total_free : Z)
  : result (option (float64 * ratio_class)) :=
  if total_malloc >? 0 then
    ratio <- truediv64 total_free total_malloc ;;
    if float_ltb ratio (round64 8 10) then Ok (Some (ratio, LeakRisk))
    else if float_ltb (round64 12 10) ratio then Ok (Some (ratio, CacheOrSkew))
    else Ok (Some (ratio, Neutral))
  else Ok None.

(** Lines 247-253: (name, allocations, frees, difference). *)
Definition leak_candidates (stats : list mem_stat) : list mem_stat :=
  sorted_desc (fun '(_, _, _, diff) => diff)
    (flat_map (fun '(func, malloc, free, _) =>
                 if (malloc >? 0) && (free >? 0) then
                   if (malloc >? free * 2) && (malloc - free >? 10) then
                     [(func, malloc, free, malloc - free)]
                   else []
                 else [])
              stats).

(** Lines 264-265 and 273-274 *)
Definition malloc_hotspots (stats : list mem_stat) : list (string * Z) :=
  sorted_desc snd
    (flat_map (fun '(func, malloc, _, _) =>
                 if malloc >? 0 then [(func, malloc)] else []) stats).

Definition free_hotspots (stats : list mem_stat) : list (string * Z) :=
  sorted_desc snd
    (flat_map (fun '(func, _, free, _) =>
                 if free >? 0 then [(func, free)] else []) stats).

Record memory_report : Type := mkMemoryReport {
  mr_stats : list (mem_stat * Q * Q * Q);   (* lines 224-228 *)
  mr_totals : option (Z * Q * Z * Q);       (* lines 234-235 *)
  mr_ratio : option (float64 * ratio_class); (* lines 236-242 *)
  mr_leaks : list (mem_stat * Q);           (* lines 255-257 *)
  mr_malloc_hot : list (string * Z * Q);    (* lines 266-268 *)
  mr_free_hot : list (string * Z * Q)       (* lines 275-277 *)
}.

Definition print_memory_analysis (st : analyzer) (funcs : list string)
  : result memory_report :=
  let stats := memory_stats st funcs in
  let ts := total_samples st in
  match stats with
  | [] => Ok (mkMemoryReport [] None None [] [] [])
  | _ =>
      let rows :=
        map (fun '(func, malloc, free, total) =>
               ((func, malloc, free, total),
                guarded_percentage malloc ts,
                guarded_percentage free ts,
                guarded_percentage total ts))
            (slice_to 20 stats) in
      let total_malloc := Dict.total (malloc_counts st) in
      let total_free := Dict.total (free_counts st) in
      malloc_pct <- percentage total_malloc ts ;;
      free_pct <- percentage total_free ts ;;
      ratio <- memory_ratio total_malloc total_free ;;
      let leaks :=
        map (fun '(func, malloc, free, diff) =>
               ((func, malloc, free, diff),
                if malloc >? 0 then (inject_Z free / inject_Z malloc)%Q
                else 0%Q))
            (slice_to 10 (leak_candidates stats)) in
      Ok {| mr_stats := rows;
            mr_totals := Some (total_malloc, malloc_pct, total_free, free_pct);
            mr_ratio := ratio;
            mr_leaks := leaks;
            mr_malloc_hot :=
              map (fun '(func, malloc) =>
                     (func, malloc, guarded_percentage malloc ts))
                  (slice_to 10 (malloc_hotspots stats));
            mr_free_hot :=
              map (fun '(func, free) =>
                     (func, free, guarded_percentage free ts))
                  (slice_to 10 (free_hotspots stats)) |}
  end.

(** Lines 288-308: the view of the functions whose name holds a token. *)
Definition print_moganstem_analysis (st : analyzer) : result (list row) :=
  let holding token :=
    sorted_desc snd
      (filter (fun '(f, _) => Py.contains token f) (inclusive_time st)) in
  let table l :=
    for_each (fun '(i, (func, time_val)) =>
                p <- percentage time_val (total_samples st) ;;
                Ok (i, func, time_val, p))
             (enumerate1 (slice_to 15 l)) in
  match holding "MoganSTEM" with
  | [] => table (holding "iiiSTEM")
  | mogan_inclusive => table mogan_inclusive
  end.

Record report : Type := mkReport {
  r_inclusive : list row;
  r_exclusive : list row;
  r_leaves : list row;
  r_categories : list (string * Z * Q);
  r_memory : memory_report;
  r_mogan : list row;
  r_performance : list (string * float64) * list (string * float64)
}.

(** [generate_report]: the sections in the order of lines 379-387.
    [print_basic_stats] and [print_call_relations] divide nothing and are
    left out. *)
Definition generate_report (st : analyzer) (funcs : list string)
  : result report :=
  inc <- print_inclusive_time_top st 20 ;;
  exc <- print_exclusive_time_top st 20 ;;
  leaves <- print_leaf_functions_top st 30 ;;
  cats <- print_category_analysis st ;;
  mem <- print_memory_analysis st funcs ;;
  mogan <- print_moganstem_analysis st ;;
  perf <- print_performance_issues st ;;
  Ok (mkReport inc exc leaves cats mem mogan perf).

(* ================================================================== *)
(** ** Vocabulary of the statements *)

(** [sub] occurs in [s]. *)
Definition Substring (sub s : string) : Prop :=
  exists a b, s = (a ++ sub ++ b)%string.

(** [s] is made of white space only. *)
Fixpoint all_space (s : string) : bool :=
  match s with
  | EmptyString => true
  | String c s' => Py.isspace c && all_space s'
  end.

(** The frames of a stack whose name is not the empty string. *)
Definition named_frames (stack : list string) : list string :=
  filter (fun f => negb (String.eqb f "")) stack.

(** The weight of every Sample, once for each named frame of its stack. *)
Definition occurrence_weight (lines : list string) : Z :=
  fold_right Z.add 0
    (map (fun '(stack, w) => w * Z.of_nat (List.length (named_frames stack)))
         (samples lines)).

(** How often [f] stands in [stack]. *)
Definition occurrences (f : string) (stack : list string) : Z :=
  Z.of_nat (count_occ string_dec stack f).

(** [callee] directly follows [caller] somewhere in [stack]. *)
Definition Adjacent (caller callee : string) (stack : list string) : Prop :=
  exists pre post, stack = (pre ++ caller :: callee :: post)%list.

(** The entries of a tally without the one of the empty name. *)
Definition named_entries (d : dict Z) : dict Z :=
  filter (fun '(k, _) => negb (String.eqb k "")) d.

(** The value a tally of [func_counts] sends to bucket [cat]. *)
Definition bucket_share (cat : string) (fc : dict Z) : Z :=
  fold_right Z.add 0
    (map snd (filter (fun '(func, _) => String.eqb (category_of func) cat) fc)).

(** The state after the loop over the lines, before the buckets are
    filled. *)
Definition scan (st : analyzer) (lines : list string) : analyzer :=
  fold_left process_line lines st.

(** [funcs] lists the members of [all_memory_funcs], each once. *)
Definition enumerates (funcs : list string) (st : analyzer) : Prop :=
  NoDup funcs /\
  forall f, In f funcs <->
            In f (keys (malloc_counts st)) \/ In f (keys (free_counts st)).

(** What the loop keeps true of the tallies: every dictionary has each key
    once, the keys of [malloc_counts] are allocation names and those of
    [free_counts] are not. *)
Definition well_formed (st : analyzer) : Prop :=
  NoDup (keys (inclusive_time st)) /\
  NoDup (keys (exclusive_time st)) /\
  NoDup (keys (leaf_counts st)) /\
  NoDup (keys (func_counts st)) /\
  NoDup (keys (malloc_counts st)) /\
  NoDup (keys (free_counts st)) /\
  (forall k, In k (keys (malloc_counts st)) -> is_alloc_name k = true) /\
  (forall k, In k (keys (free_counts st)) -> is_alloc_name k = false).

(** Decreasing order of a key. *)
Definition Descending {A} (key : A -> Z) (l : list A) : Prop :=
  StronglySorted (fun x y => key x >= key y) l.

(** The first twenty items in decreasing order of weight, each with its
    percentage of [total]. *)
Definition window_rows (tally : dict Z) (total : Z)
  (rows : list (string * float64)) : Prop :=
  Forall2 (fun x y => fst y = fst x /\ percent64 (snd x) total = Ok (snd y))
          (firstn 20 (sorted_desc snd tally)) rows.

(** The outlier view in the words of its description: [f] is reported
    with [p] when it is one of the first twenty items in decreasing order
    of weight and [p], its percentage of [total], is above [threshold]. *)
Definition Reported (tally : dict Z) (total : Z) (threshold : float64)
  (f : string) (p : float64) : Prop :=
  exists v, In (f, v) (firstn 20 (sorted_desc snd tally)) /\
            percent64 v total = Ok p /\
            float_ltb threshold p = true.

(** An integer that [str] and the format [d] print: CPython refuses to
    convert an integer of more than 4300 digits. *)
Definition printable (n : Z) : Prop := Z.abs n < 10 ^ 4300.

(** The text is ASCII: every byte is below 128. *)
Fixpoint ascii_text (s : string) : bool :=
  match s with
  | EmptyString => true
  | String c s' => (N_of_ascii c <? 128)%N && ascii_text s'
  end.

(** A file of twenty-one one-frame stacks of weight 1. *)
Definition twenty_one_lines : list string :=
  [ "f01;1"; "f02;1"; "f03;1"; "f04;1"; "f05;1"; "f06;1"; "f07;1";
    "f08;1"; "f09;1"; "f10;1"; "f11;1"; "f12;1"; "f13;1"; "f14;1";
    "f15;1"; "f16;1"; "f17;1"; "f18;1"; "f19;1"; "f20;1"; "f21;1" ].

(* ================================================================== *)
(** ** The rest of the class: statistics, call graph, [run_analysis], [main] *)

(** [print_basic_stats], lines 150-152: the total sample weight, the
    number of keys of [func_counts] and the number of call edges. *)
Definition print_basic_stats (st : analyzer) : Z * nat * nat :=
  (total_samples st,
   List.length (func_counts st),
   fold_right Nat.add 0%nat
     (map (fun v : pyset => List.length v) (values (call_relations st)))).

(** Lines 352-355.  Python walks a [set] in an order of its own; [order]
    is that order, a rearrangement of the members. *)
Definition callee_counts (order : pyset -> list string) (cr : dict pyset)
  : dict Z :=
  fold_left
    (fun cc '(_, callees) =>
       fold_left (fun cc callee => Dict.add callee 1 cc) (order callees) cc)
    cr [].

(** [print_call_relations], lines 357-367: the callees with the number of
    their callers, the callers with the number of their callees. *)
Definition print_call_relations (order : pyset -> list string)
    (st : analyzer) (top_n : Z)
  : list (nat * string * Z) * list (nat * string * nat) :=
  (map (fun '(i, (func, count)) => (i, func, count))
       (enumerate1
          (slice_to top_n
             (sorted_desc snd (callee_counts order (call_relations st))))),
   map (fun '(i, (func, callees)) => (i, func, List.length callees))
       (enumerate1
          (slice_to top_n
             (sorted_desc (fun x : string * pyset =>
                             Z.of_nat (List.length (snd x)))
                          (call_relations st))))).

(** What a run prints, section by section; [None] for a section that was
    not asked for. *)
Record sections : Type := mkSections {
  sec_basic : Z * nat * nat;
  sec_inclusive : option (list row);
  sec_exclusive : option (list row);
  sec_leaf : option (list row);
  sec_category : option (list (string * Z * Q));
  sec_memory : option memory_report;
  sec_mogan : option (list row);
  sec_performance : option (list (string * float64) * list (string * float64));
  sec_call : option (list (nat * string * Z) * list (nat * string * nat))
}.

(** [if b: section()] *)
Definition when {A} (b : bool) (r : result A) : result (option A) :=
  if b then x <- r ;; Ok (Some x) else Ok None.

(** The nine calls of lines 379-387 (and again 402-410), with the default
    arguments of the methods. *)
Definition full_report (st : analyzer) (funcs : list string)
    (order : pyset -> list string) : result sections :=
  inc <- print_inclusive_time_top st 20 ;;
  exc <- print_exclusive_time_top st 20 ;;
  leaves <- print_leaf_functions_top st 30 ;;
  cats <- print_category_analysis st ;;
  mem <- print_memory_analysis st funcs ;;
  mogan <- print_moganstem_analysis st ;;
  perf <- print_performance_issues st ;;
  Ok (mkSections (print_basic_stats st) (Some inc) (Some exc) (Some leaves)
                 (Some cats) (Some mem) (Some mogan) (Some perf)
                 (Some (print_call_relations order st 10))).

(** [run_analysis], lines 394-410: it parses the file, on whatever the
    analyzer already holds, and prints every section; [report] only
    chooses where the text goes. *)
Definition run_analysis (st : analyzer) (lines : list string)
    (funcs : list string) (order : pyset -> list string)
  : analyzer * result sections :=
  let st := parse_file st lines in
  (st, full_report st funcs order).

(** The command line: [--analysis], [--top], [--no-report]. *)
Record args : Type := mkArgs {
  arg_analysis : string;
  arg_top : Z;
  arg_no_report : bool
}.

Inductive outcome : Type :=
| Exit1                                               (* line 447 *)
| Finished (st : analyzer) (out : result sections).

(** ['name' in analysis_types] *)
Definition asked (name : string) (analysis_types : list string) : bool :=
  existsb (String.eqb name) analysis_types.

(** [main], lines 445-477; [file] is [None] when the path does not exist,
    the lines of the file otherwise. *)
Definition main (file : option (list string)) (a : args)
    (funcs : list string) (order : pyset -> list string) : outcome :=
  match file with
  | None => Exit1
  | Some lines =>
      let st := parse_file init lines in
      if String.eqb (arg_analysis a) "all" || arg_no_report a then
        let '(st, out) := run_analysis st lines funcs order in
        Finished st out
      else
        let analysis_types :=
          map Py.strip (Py.split "," (arg_analysis a)) in
        Finished st
          (inc <- when (asked "inclusive" analysis_types)
                       (print_inclusive_time_top st (arg_top a)) ;;
           exc <- when (asked "exclusive" analysis_types)
                       (print_exclusive_time_top st (arg_top a)) ;;
           leaves <- when (asked "leaf" analysis_types)
                          (print_leaf_functions_top st (arg_top a)) ;;
           cats <- when (asked "category" analysis_types)
                        (print_category_analysis st) ;;
           mem <- when (asked "memory" analysis_types)
                       (print_memory_analysis st funcs) ;;
           mogan <- when (asked "mogan" analysis_types)
                         (print_moganstem_analysis st) ;;
           perf <- when (asked "performance" analysis_types)
                        (print_performance_issues st) ;;
           Ok (mkSections (print_basic_stats st) inc exc leaves cats mem
                          mogan perf
                          (if asked "call" analysis_types
                           then Some (print_call_relations order st
                                                           (arg_top a))
                           else None)))
  end.

(** ** Vocabulary of the further statements *)

(** The entries of a tally whose name satisfies [keep]. *)
Definition restrict (keep : string -> bool) (d : dict Z) : dict Z :=
  filter (fun '(k, _) => keep k) d.

(** Line 121, once line 119 has said no. *)
Definition is_free_name (leaf_func : string) : bool :=
  negb (is_alloc_name leaf_func) && Py.contains "free" leaf_func.

(** The weight of the Samples whose stack satisfies [chosen]. *)
Definition weight_where (chosen : list string -> bool)
    (lines : list string) : Z :=
  fold_right Z.add 0
    (map snd (filter (fun s => chosen (fst s)) (samples lines))).

(** The weight of every Sample, once for each occurrence of [f] in its
    stack. *)
Definition occurrence_weight_of (f : string) (lines : list string) : Z :=
  fold_right Z.add 0
    (map (fun '(stack, w) => occurrences f stack * w) (samples lines)).

(** The named frames of [stack] that bucket [cat] takes. *)
Definition bucket_frames (cat : string) (stack : list string) : Z :=
  Z.of_nat (List.length
              (filter (fun f => String.eqb (category_of f) cat)
                      (named_frames stack))).

(** The weight of every Sample, once for each named frame of its stack
    that bucket [cat] takes. *)
Definition bucket_weight (cat : string) (lines : list string) : Z :=
  fold_right Z.add 0
    (map (fun '(stack, w) => w * bucket_frames cat stack) (samples lines)).

(** The lines that are blank once stripped. *)
Definition blank_lines (lines : list string) : list string :=
  filter (fun raw => String.eqb (Py.strip raw) "") lines.

(** The callers whose set holds [f]. *)
Definition callers_of (f : string) (cr : dict pyset) : list string :=
  keys (filter (fun '(_, callees) => Dict.mem f callees) cr).

(** Every set of [call_relations] has a member and has each member
    once. *)
Definition proper_sets (cr : dict pyset) : Prop :=
  Forall (fun e : string * pyset => snd e <> [] /\ NoDup (snd e)) cr.

(* ================================================================== *)
(** * Properties *)

(** ** Dictionaries *)

Section DictFacts.
Context {V : Type}.
Variables (dflt : V) (f : V -> V).

Lemma get_update_same (k : string) (d : dict V) :
  Dict.get (Dict.update dflt f k d) k dflt = f (Dict.get d k dflt).
Proof.
  induction d as [|[k' v] d IH]; simpl.
  - now rewrite String.eqb_refl.
  - destruct (String.eqb k' k) eqn:E; simpl; rewrite E; auto.
Qed.

Lemma get_update_other (k k0 : string) (d : dict V) :
  k <> k0 ->
  Dict.get (Dict.update dflt f k d) k0 dflt = Dict.get d k0 dflt.
Proof.
  intros Hne. induction d as [|[k' v] d IH]; simpl.
  - destruct (String.eqb k k0) eqn:E; auto.
    apply String.eqb_eq in E. contradiction.
  - destruct (String.eqb k' k) eqn:E; simpl.
    + apply String.eqb_eq in E. subst k'.
      destruct (String.eqb k k0) eqn:E0; auto.
      apply String.eqb_eq in E0. contradiction.
    + destruct (String.eqb k' k0); auto.
Qed.

Lemma keys_update (k k0 : string) (d : dict V) :
  In k0 (keys (Dict.update dflt f k d)) <-> k0 = k \/ In k0 (keys d).
Proof.
  unfold keys. induction d as [|[k' v] d IH]; simpl.
  - intuition.
  - destruct (String.eqb k' k) eqn:E; simpl.
    + apply String.eqb_eq in E. subst k'. intuition.
    + rewrite IH. intuition.
Qed.

Lemma NoDup_keys_update (k : string) (d : dict V) :
  NoDup (keys d) -> NoDup (keys (Dict.update dflt f k d)).
Proof.
  unfold keys. induction d as [|[k' v] d IH]; simpl; intros H.
  - constructor; [intros []|constructor].
  - inversion H as [|? ? Hnin Hnd]; subst.
    destruct (String.eqb k' k) eqn:E; simpl.
    + constructor; auto.
    + constructor; auto.
      intros Hin. apply (keys_update k k' d) in Hin.
      destruct Hin as [->|Hin]; [|contradiction].
      now rewrite String.eqb_refl in E.
Qed.
End DictFacts.

Lemma total_add (k : string) (w : Z) (d : dict Z) :
  Dict.total (Dict.add k w d) = Dict.total d + w.
Proof.
  unfold Dict.total, Dict.add, Dict.values.
  induction d as [|[k' v] d IH]; simpl.
  - lia.
  - destruct (String.eqb k' k); simpl; lia.
Qed.

Lemma get_add (k k0 : string) (w : Z) (d : dict Z) :
  Dict.get (Dict.add k w d) k0 0 =
  Dict.get d k0 0 + (if String.eqb k k0 then w else 0).
Proof.
  unfold Dict.add. destruct (String.eqb k k0) eqn:E.
  - apply String.eqb_eq in E. subst k0. now rewrite get_update_same.
  - apply String.eqb_neq in E. rewrite get_update_other by assumption. lia.
Qed.

Lemma get_absent {V} (d : dict V) (k : string) (dflt : V) :
  ~ In k (keys d) -> Dict.get d k dflt = dflt.
Proof.
  unfold keys. induction d as [|[k' v] d IH]; simpl; intros H; auto.
  destruct (String.eqb k' k) eqn:E.
  - apply String.eqb_eq in E. intuition.
  - intuition.
Qed.

Lemma named_entries_add (k : string) (w : Z) (d : dict Z) :
  named_entries (Dict.add k w d) =
  if String.eqb k "" then named_entries d
  else Dict.add k w (named_entries d).
Proof.
  unfold named_entries, Dict.add.
  induction d as [|[k' v] d IH]; simpl.
  - destruct (String.eqb k ""); reflexivity.
  - destruct (String.eqb k' k) eqn:E; simpl.
    + apply String.eqb_eq in E. subst k'.
      destruct (String.eqb k "") eqn:E0; simpl; auto.
      now rewrite String.eqb_refl.
    + rewrite IH.
      destruct (String.eqb k' "") eqn:E1, (String.eqb k "") eqn:E0;
        simpl; auto.
      now rewrite E.
  Qed.

(** ** The parse loop *)

Lemma split_not_nil (sep : ascii) (s : string) : Py.split sep s <> [].
Proof.
  destruct s as [|c s]; simpl; [discriminate|].
  destruct (Ascii.eqb c sep); [discriminate|].
  destruct (Py.split sep s); discriminate.
Qed.

Lemma parse_line_not_nil (raw : string) (stack : list string) (w : Z) :
  parse_line raw = Some (stack, w) -> stack <> [].
Proof.
  unfold parse_line.
  destruct (String.eqb (Py.strip raw) ""); [discriminate|].
  destruct (split_weight (Py.strip raw)) as [stack_str count].
  intros H. injection H as <- _. apply split_not_nil.
Qed.

Lemma process_line_skip (st : analyzer) (raw : string) :
  parse_line raw = None -> process_line st raw = count_line st.
Proof. unfold process_line. now intros ->. Qed.

Lemma process_line_sample (st : analyzer) (raw : string) stack w :
  parse_line raw = Some (stack, w) ->
  process_line st raw = aggregate (count_sample w (count_line st)) stack w.
Proof. unfold process_line. now intros ->. Qed.

Lemma samples_cons (raw : string) (lines : list string) :
  samples (raw :: lines) =
  match parse_line raw with
  | Some s => s :: samples lines
  | None => samples lines
  end.
Proof. unfold samples. simpl. now destruct (parse_line raw). Qed.

Lemma total_count_funcs (stack : list string) (w : Z) (fc : dict Z) :
  Dict.total (count_funcs stack w fc) =
  Dict.total fc + w * Z.of_nat (List.length (named_frames stack)).
Proof.
  unfold count_funcs, named_frames.
  revert fc. induction stack as [|f stack IH]; intros fc; simpl.
  - lia.
  - rewrite IH. destruct (String.eqb f "") eqn:E; simpl.
    + lia.
    + rewrite total_add. lia.
Qed.

Lemma total_categorize (fc cc : dict Z) :
  Dict.total (categorize fc cc) = Dict.total cc + Dict.total fc.
Proof.
  unfold categorize. revert cc.
  induction fc as [|[func count] fc IH]; intros cc; simpl.
  - unfold Dict.total at 3. simpl. lia.
  - rewrite IH, total_add. unfold Dict.total at 4. simpl.
    fold (Dict.values fc). fold (Dict.total fc). lia.
Qed.

(** The fields of the state after one Sample. *)
Lemma aggregate_fields (st : analyzer) (stack : list string) (w : Z) :
  stack <> [] ->
  let st' := aggregate st stack w in
  inclusive_time st' = count_inclusive stack w (inclusive_time st) /\
  exclusive_time st' = Dict.add (last stack "") w (exclusive_time st) /\
  leaf_counts st' = Dict.add (last stack "") w (leaf_counts st) /\
  func_counts st' = count_funcs stack w (func_counts st) /\
  call_relations st' = record_calls stack (call_relations st) /\
  total_samples st' = total_samples st /\
  category_counts st' = category_counts st.
Proof.
  intros Hne. destruct stack; [contradiction|].
  cbv zeta. unfold aggregate. cbn [inclusive_time exclusive_time leaf_counts
    func_counts call_relations total_samples category_counts].
  repeat split.
Qed.

(** One turn of the loop, for the tallies the invariants speak of. *)
Lemma process_line_cases (st : analyzer) (raw : string) :
  let st' := process_line st raw in
  (parse_line raw = None /\
   inclusive_time st' = inclusive_time st /\
   exclusive_time st' = exclusive_time st /\
   leaf_counts st' = leaf_counts st /\
   func_counts st' = func_counts st /\
   total_samples st' = total_samples st /\
   category_counts st' = category_counts st)
  \/
  (exists stack w,
     parse_line raw = Some (stack, w) /\ stack <> [] /\
     inclusive_time st' = count_inclusive stack w (inclusive_time st) /\
     exclusive_time st' = Dict.add (last stack "") w (exclusive_time st) /\
     leaf_counts st' = Dict.add (last stack "") w (leaf_counts st) /\
     func_counts st' = count_funcs stack w (func_counts st) /\
     total_samples st' = total_samples st + w /\
     category_counts st' = category_counts st).
Proof.
  cbv zeta. destruct (parse_line raw) as [[stack w]|] eqn:E.
  - right. exists stack, w.
    pose proof (parse_line_not_nil _ _ _ E) as Hne.
    rewrite (process_line_sample _ _ _ _ E).
    destruct (aggregate_fields (count_sample w (count_line st)) stack w Hne)
      as (H1 & H2 & H3 & H4 & _ & H6 & H7).
    rewrite H1, H2, H3, H4, H6, H7. simpl. repeat split; auto.
  - left. rewrite (process_line_skip _ _ E). simpl. repeat split; auto.
Qed.

Lemma scan_totals (lines : list string) (st : analyzer) :
  let st' := scan st lines in
  total_samples st' = total_samples st + total_weight lines /\
  Dict.total (exclusive_time st') =
    Dict.total (exclusive_time st) + total_weight lines /\
  Dict.total (leaf_counts st') =
    Dict.total (leaf_counts st) + total_weight lines /\
  Dict.total (func_counts st') =
    Dict.total (func_counts st) + occurrence_weight lines /\
  category_counts st' = category_counts st.
Proof.
  cbv zeta. unfold scan, total_weight, occurrence_weight.
  revert st. induction lines as [|raw lines IH]; intros st.
  - simpl. repeat split; lia.
  - cbn [fold_left]. rewrite samples_cons.
    destruct (IH (process_line st raw)) as (I1 & I2 & I3 & I4 & I5).
    rewrite I1, I2, I3, I4, I5. clear IH I1 I2 I3 I4 I5.
    destruct (process_line_cases st raw)
      as [(E & _ & H2 & H3 & H4 & H5 & H6)
         |(stack & w & E & _ & _ & H2 & H3 & H4 & H5 & H6)];
      rewrite E, H2, H3, H4, H5, H6.
    + repeat split; lia.
    + rewrite !total_add, total_count_funcs. simpl. repeat split; lia.
Qed.

Lemma scan_invariant (P : analyzer -> Prop) :
  (forall st, P st -> P (count_line st)) ->
  (forall st w, P st -> P (count_sample w st)) ->
  (forall st stack w, stack <> [] -> P st -> P (aggregate st stack w)) ->
  forall lines st, P st -> P (scan st lines).
Proof.
  intros Hline Hsample Hagg. unfold scan.
  induction lines as [|raw lines IH]; intros st H; simpl; auto.
  apply IH. unfold process_line.
  destruct (parse_line raw) as [[stack w]|] eqn:E; auto.
  apply Hagg; auto. eapply parse_line_not_nil; eauto.
Qed.

Lemma parse_file_fields (st : analyzer) (lines : list string) :
  let st' := parse_file st lines in
  inclusive_time st' = inclusive_time (scan st lines) /\
  exclusive_time st' = exclusive_time (scan st lines) /\
  leaf_counts st' = leaf_counts (scan st lines) /\
  func_counts st' = func_counts (scan st lines) /\
  total_samples st' = total_samples (scan st lines) /\
  category_counts st' =
    categorize (func_counts (scan st lines)) (category_counts st).
Proof.
  cbv zeta. unfold parse_file. fold (scan st lines). simpl.
  destruct (scan_totals lines st) as (_ & _ & _ & _ & ->).
  repeat split.
Qed.

(** ** The two sum invariants *)

(** C3.  After [parse_file] on a fresh analyzer, whatever the lines of the
    file, the values of [exclusive_time] add up to [total_samples], which is
    the sum of the weights of the accepted lines; [leaf_counts] is the same
    tally.  Each turn of the loop either skips the line and leaves
    [exclusive_time] as it is, or accepts it and adds its weight to the
    entry of the last frame of its stack, and to no other entry.  Run on
    an analyzer that is already filled (as [main] does, which parses once
    before [run_analysis] parses again), [parse_file] keeps the difference
    between the two sums, so the equality survives. *)
Theorem exclusive_total_is_sample_weight :
  (forall lines : list string,
      let st := parse_file init lines in
      Dict.total (exclusive_time st) = total_samples st /\
      total_samples st = total_weight lines /\
      leaf_counts st = exclusive_time st) /\
  (forall (st : analyzer) (lines : list string),
      let st' := parse_file st lines in
      Dict.total (exclusive_time st') - total_samples st' =
      Dict.total (exclusive_time st) - total_samples st) /\
  (forall (st : analyzer) (raw : string),
      let st' := process_line st raw in
      (parse_line raw = None /\
       exclusive_time st' = exclusive_time st /\
       total_samples st' = total_samples st) \/
      (exists stack w,
          parse_line raw = Some (stack, w) /\
          exclusive_time st' =
            Dict.add (last stack "") w (exclusive_time st) /\
          total_samples st' = total_samples st + w /\
          forall f, Dict.get (exclusive_time st') f 0 =
                    Dict.get (exclusive_time st) f 0 +
                    (if String.eqb (last stack "") f then w else 0))).
Proof.
  split; [|split].
  - intros lines. cbv zeta.
    destruct (parse_file_fields init lines) as (_ & -> & -> & _ & -> & _).
    destruct (scan_totals lines init) as (-> & -> & _).
    simpl. repeat split; try lia.
    apply (scan_invariant
             (fun st => leaf_counts st = exclusive_time st)); auto.
    intros st stack w Hne H.
    destruct (aggregate_fields st stack w Hne) as (_ & -> & -> & _).
    now rewrite H.
  - intros st lines. cbv zeta.
    destruct (parse_file_fields st lines) as (_ & -> & _ & _ & -> & _).
    destruct (scan_totals lines st) as (-> & -> & _). lia.
  - intros st raw. cbv zeta.
    destruct (process_line_cases st raw)
      as [(E & _ & H2 & _ & _ & H5 & _)
         |(stack & w & E & _ & _ & H2 & _ & _ & H5 & _)].
    + left. auto.
    + right. exists stack, w. rewrite H2, H5.
      repeat split; auto. intros f. apply get_add.
Qed.

(** C1, refuted as stated.  On the one-line file [a;b;5] the only bucket
    holds 10 while the total sample weight is 5. *)
Lemma category_total_differs :
  let st := parse_file init ["a;b;5"] in
  total_samples st = 5 /\
  total_samples st = total_weight ["a;b;5"] /\
  category_counts st = [(other, 10)] /\
  Dict.total (category_counts st) <> total_samples st.
Proof. vm_compute. repeat split; discriminate. Qed.

Lemma buckets_add_up (lines : list string) :
  Dict.total (category_counts (parse_file init lines)) =
  Dict.total (func_counts (parse_file init lines)).
Proof.
  destruct (parse_file_fields init lines) as (_ & _ & _ & -> & _ & ->).
  rewrite total_categorize. unfold Dict.total at 1. simpl. lia.
Qed.

(** C1, amended.  After [parse_file] on a fresh analyzer the buckets
    (fallback included) add up to the sum of the values of [func_counts],
    that is to the weight of every accepted line counted once for each
    named frame of its stack. *)
Theorem category_total_is_occurrence_weight (lines : list string) :
  let st := parse_file init lines in
  Dict.total (category_counts st) = Dict.total (func_counts st) /\
  Dict.total (func_counts st) = occurrence_weight lines.
Proof.
  cbv zeta. split; [apply buckets_add_up|].
  destruct (parse_file_fields init lines) as (_ & _ & _ & -> & _ & _).
  destruct (scan_totals lines init) as (_ & _ & _ & -> & _).
  simpl. unfold Dict.total. simpl. lia.
Qed.

(** ** The two per-occurrence tallies *)

Lemma count_funcs_named (stack : list string) (w : Z) (it : dict Z) :
  count_funcs stack w (named_entries it) =
  named_entries (count_inclusive stack w it).
Proof.
  unfold count_funcs, count_inclusive. revert it.
  induction stack as [|f stack IH]; intros it; simpl; auto.
  rewrite <- IH, named_entries_add.
  now destruct (String.eqb f "").
Qed.

Lemma keys_count_inclusive (stack : list string) (w : Z) (it : dict Z) k :
  In k (keys (count_inclusive stack w it)) <-> In k stack \/ In k (keys it).
Proof.
  unfold count_inclusive. revert it.
  induction stack as [|f stack IH]; intros it; simpl.
  - intuition.
  - rewrite IH. unfold Dict.add. rewrite keys_update. intuition.
Qed.

Lemma NoDup_count_inclusive (stack : list string) (w : Z) (it : dict Z) :
  NoDup (keys it) -> NoDup (keys (count_inclusive stack w it)).
Proof.
  unfold count_inclusive. revert it.
  induction stack as [|f stack IH]; intros it H; simpl; auto.
  apply IH. now apply NoDup_keys_update.
Qed.

Lemma scan_inclusive (lines : list string) (st : analyzer) :
  let st' := scan st lines in
  (func_counts st = named_entries (inclusive_time st) ->
   func_counts st' = named_entries (inclusive_time st')) /\
  (NoDup (keys (inclusive_time st)) -> NoDup (keys (inclusive_time st'))) /\
  (forall k, In k (keys (inclusive_time st')) <->
             In k (keys (inclusive_time st)) \/
             exists stack w, In (stack, w) (samples lines) /\ In k stack).
Proof.
  cbv zeta. unfold scan. revert st.
  induction lines as [|raw lines IH]; intros st.
  - simpl. split; [auto|split; [auto|]]. intros k. split; auto.
    intros [H|(? & ? & [] & _)]; auto.
  - cbn [fold_left]. rewrite samples_cons.
    destruct (IH (process_line st raw)) as (I1 & I2 & I3). clear IH.
    destruct (process_line_cases st raw)
      as [(E & H1 & _ & _ & H4 & _)
         |(stack & w & E & _ & H1 & _ & _ & H4 & _)];
      rewrite E; rewrite H1, H4 in *.
    + exact (conj I1 (conj I2 I3)).
    + split; [|split].
      * intros H. apply I1. rewrite H. apply count_funcs_named.
      * intros H. apply I2. now apply NoDup_count_inclusive.
      * intros k. rewrite I3, keys_count_inclusive. split.
        -- intros [[H|H]|(s & w' & H & Hk)]; auto.
           ++ right. exists stack, w. split; [now left|auto].
           ++ right. exists s, w'. split; [now right|auto].
        -- intros [H|(s & w' & [H|H] & Hk)]; auto.
           ++ injection H as <- <-. auto.
           ++ right. exists s, w'. auto.
Qed.

Lemma named_entries_all (d : dict Z) :
  ~ In "" (keys d) -> named_entries d = d.
Proof.
  unfold named_entries, keys.
  induction d as [|[k v] d IH]; simpl; intros H; auto.
  destruct (String.eqb k "") eqn:E.
  - apply String.eqb_eq in E. intuition.
  - simpl. f_equal. intuition.
Qed.

Lemma named_entries_keys (d : dict Z) : ~ In "" (keys (named_entries d)).
Proof.
  unfold named_entries, keys. rewrite in_map_iff.
  intros ([k v] & Hk & Hin). simpl in Hk. subst k.
  apply filter_In in Hin. destruct Hin as [_ H]. discriminate.
Qed.

Lemma total_named_entries (d : dict Z) :
  NoDup (keys d) ->
  Dict.total (named_entries d) = Dict.total d - Dict.get d "" 0.
Proof.
  unfold named_entries, keys, Dict.total, Dict.values.
  induction d as [|[k v] d IH]; simpl; intros H; [lia|].
  inversion H as [|? ? Hnin Hnd]; subst.
  destruct (String.eqb k "") eqn:E; simpl.
  - apply String.eqb_eq in E. subst k.
    fold (named_entries d). rewrite named_entries_all by assumption. lia.
  - rewrite IH by assumption. lia.
Qed.

(** C10.  [func_counts] skips the frames named by the empty string and
    [inclusive_time] counts every frame.  After [parse_file] on a fresh
    analyzer [func_counts] is [inclusive_time] without the entry of the
    empty name; the two are equal when no parsed stack holds an empty
    frame; when some stack holds one, [inclusive_time] has an entry for the
    empty name and [func_counts] has none, and the buckets, filled from
    [func_counts], add up to the sum of [inclusive_time] less that entry. *)
Theorem func_counts_vs_inclusive_time (lines : list string) :
  let st := parse_file init lines in
  func_counts st = named_entries (inclusive_time st) /\
  ((forall stack w, In (stack, w) (samples lines) -> ~ In "" stack) ->
   func_counts st = inclusive_time st) /\
  ((exists stack w, In (stack, w) (samples lines) /\ In "" stack) ->
   In "" (keys (inclusive_time st)) /\ ~ In "" (keys (func_counts st))) /\
  Dict.total (category_counts st) =
    Dict.total (inclusive_time st) - Dict.get (inclusive_time st) "" 0.
Proof.
  cbv zeta.
  rewrite buckets_add_up.
  destruct (parse_file_fields init lines) as (-> & _ & _ & -> & _ & _).
  destruct (scan_inclusive lines init) as (I1 & I2 & I3).
  specialize (I1 eq_refl). specialize (I2 (NoDup_nil _)).
  split; [exact I1|]. split; [|split].
  - intros Hno. rewrite I1. apply named_entries_all.
    rewrite I3. intros [[]|(stack & w & Hin & Hk)]. exact (Hno _ _ Hin Hk).
  - intros Hex. split.
    + apply I3. now right.
    + rewrite I1. apply named_entries_keys.
  - rewrite I1. now apply total_named_entries.
Qed.

(** A leading, a trailing and a doubled semicolon each give a stack with
    an empty frame. *)
Example empty_frames :
  parse_line ";a;1" = Some ([""; "a"], 1) /\
  parse_line "a;;1" = Some (["a"; ""], 1) /\
  parse_line "a;;b;1" = Some (["a"; ""; "b"], 1).
Proof. vm_compute. repeat split. Qed.

Lemma func_counts_vs_inclusive_time_witness :
  (func_counts (parse_file init ["a;b;2"]) =
   inclusive_time (parse_file init ["a;b;2"])) /\
  (In "" (keys (inclusive_time (parse_file init ["a;;b;2"]))) /\
   ~ In "" (keys (func_counts (parse_file init ["a;;b;2"])))).
Proof.
  split.
  - apply (func_counts_vs_inclusive_time ["a;b;2"]).
    intros stack w [H|[]]. injection H as <- _.
    intros [H|[H|[]]]; discriminate.
  - apply (func_counts_vs_inclusive_time ["a;;b;2"]).
    exists ["a"; ""; "b"], 2. split; [now left|right; now left].
Defined.

(** ** One Sample in the tallies *)

Lemma occurrences_cons (f x : string) (stack : list string) :
  occurrences f (x :: stack) =
  occurrences f stack + (if String.eqb x f then 1 else 0).
Proof.
  unfold occurrences. simpl.
  destruct (string_dec x f) as [->|Hne].
  - rewrite String.eqb_refl. lia.
  - apply String.eqb_neq in Hne. rewrite Hne. lia.
Qed.

Lemma get_count_inclusive (stack : list string) (w : Z) (it : dict Z) f :
  Dict.get (count_inclusive stack w it) f 0 =
  Dict.get it f 0 + occurrences f stack * w.
Proof.
  unfold count_inclusive. revert it.
  induction stack as [|x stack IH]; intros it; simpl.
  - unfold occurrences. simpl. lia.
  - rewrite IH, get_add, occurrences_cons.
    destruct (String.eqb x f); lia.
Qed.

Lemma get_count_funcs (stack : list string) (w : Z) (fc : dict Z) f :
  f <> "" ->
  Dict.get (count_funcs stack w fc) f 0 =
  Dict.get fc f 0 + occurrences f stack * w.
Proof.
  intros Hf. unfold count_funcs. revert fc.
  induction stack as [|x stack IH]; intros fc; simpl.
  - unfold occurrences. simpl. lia.
  - rewrite IH, occurrences_cons.
    destruct (String.eqb x "") eqn:E.
    + apply String.eqb_eq in E. subst x.
      destruct (String.eqb "" f) eqn:E0; [|lia].
      apply String.eqb_eq in E0. congruence.
    + rewrite get_add. destruct (String.eqb x f); lia.
Qed.

Lemma mem_In (x : string) (s : pyset) : Dict.mem x s = true <-> In x s.
Proof.
  unfold Dict.mem. rewrite existsb_exists. split.
  - intros (y & Hin & E). apply String.eqb_eq in E. now subst.
  - intros H. exists x. split; auto. apply String.eqb_refl.
Qed.

Lemma In_set_add (x y : string) (s : pyset) :
  In y (Dict.set_add x s) <-> y = x \/ In y s.
Proof.
  unfold Dict.set_add. destruct (Dict.mem x s) eqn:E.
  - apply mem_In in E. split; auto. intros [->|H]; auto.
  - rewrite in_app_iff. simpl. intuition.
Qed.

Lemma NoDup_set_add (x : string) (s : pyset) :
  NoDup s -> NoDup (Dict.set_add x s).
Proof.
  intros H. unfold Dict.set_add. destruct (Dict.mem x s) eqn:E; auto.
  assert (~ In x s) as Hnin.
  { intros Hin. apply mem_In in Hin. congruence. }
  clear E. induction H as [|y s Hy Hs IH]; simpl.
  - constructor; [intros []|constructor].
  - constructor.
    + rewrite in_app_iff. simpl in *. intuition congruence.
    + apply IH. simpl in Hnin. intuition.
Qed.

Lemma get_add_member (k x k0 : string) (cr : dict pyset) :
  Dict.get (Dict.add_member k x cr) k0 [] =
  if String.eqb k k0 then Dict.set_add x (Dict.get cr k0 [])
  else Dict.get cr k0 [].
Proof.
  unfold Dict.add_member. destruct (String.eqb k k0) eqn:E.
  - apply String.eqb_eq in E. subst k0. apply get_update_same.
  - apply String.eqb_neq in E. now apply get_update_other.
Qed.

Lemma Adjacent_cons (caller callee a b : string) (rest : list string) :
  Adjacent caller callee (a :: b :: rest) <->
  (caller = a /\ callee = b) \/ Adjacent caller callee (b :: rest).
Proof.
  unfold Adjacent. split.
  - intros (pre & post & H). destruct pre as [|p pre]; simpl in H.
    + injection H as <- <- _. now left.
    + injection H as <- H. right. now exists pre, post.
  - intros [[-> ->]|(pre & post & H)].
    + now exists [], rest.
    + exists (a :: pre), post. simpl. now rewrite H.
Qed.

Lemma Adjacent_short (caller callee : string) (stack : list string) :
  (List.length stack <= 1)%nat -> ~ Adjacent caller callee stack.
Proof.
  intros Hlen (pre & post & ->). rewrite length_app in Hlen.
  simpl in Hlen. lia.
Qed.

Lemma record_calls_spec (stack : list string) (cr : dict pyset) :
  (forall caller callee,
     In callee (Dict.get (record_calls stack cr) caller []) <->
     In callee (Dict.get cr caller []) \/ Adjacent caller callee stack) /\
  ((forall caller, NoDup (Dict.get cr caller [])) ->
   forall caller, NoDup (Dict.get (record_calls stack cr) caller [])).
Proof.
  revert cr. induction stack as [|a stack IH]; intros cr.
  - simpl. split; auto. intros caller callee. split; auto.
    intros [H|H]; auto.
      exfalso. revert H. apply Adjacent_short. simpl. lia.
  - destruct stack as [|b rest].
    + simpl. split; auto. intros caller callee. split; auto.
      intros [H|H]; auto.
      exfalso. revert H. apply Adjacent_short. simpl. lia.
    + change (record_calls (a :: b :: rest) cr)
        with (record_calls (b :: rest) (Dict.add_member a b cr)).
      destruct (IH (Dict.add_member a b cr)) as [I1 I2]. split.
      * intros caller callee.
        rewrite I1, Adjacent_cons, get_add_member.
        destruct (String.eqb a caller) eqn:E.
        -- apply String.eqb_eq in E. subst caller.
           rewrite In_set_add. intuition.
        -- apply String.eqb_neq in E. intuition. congruence.
      * intros Hnd. apply I2. intros caller. rewrite get_add_member.
        destruct (String.eqb a caller); auto. now apply NoDup_set_add.
Qed.

(** C5.  One Sample with stack [S] (of at least one frame) and weight [w]
    adds to [inclusive_time], for every name, [w] times the number of
    positions of [S] that hold it (and the same to [func_counts] for every
    name but the empty one); adds [w] to the entry of the last frame of [S]
    in [exclusive_time] and in [leaf_counts], and nothing to their other
    entries; and puts [callee] in the set of [caller] exactly for the pairs
    that stand next to each other in [S], the sets staying free of
    duplicates.  On a fresh analyzer the stack [a;a;a] with weight 5 gives
    15 for [a] in both per-occurrence tallies, 5 in [exclusive_time] and
    the one-member set holding [a] as the callees of [a]. *)
Theorem aggregate_sample :
  (forall (st : analyzer) (stack : list string) (w : Z),
      stack <> [] ->
      let st' := aggregate st stack w in
      (forall f, Dict.get (inclusive_time st') f 0 =
                 Dict.get (inclusive_time st) f 0 + occurrences f stack * w) /\
      (forall f, f <> "" ->
                 Dict.get (func_counts st') f 0 =
                 Dict.get (func_counts st) f 0 + occurrences f stack * w) /\
      (forall f, Dict.get (exclusive_time st') f 0 =
                 Dict.get (exclusive_time st) f 0 +
                 (if String.eqb (last stack "") f then w else 0)) /\
      (forall f, Dict.get (leaf_counts st') f 0 =
                 Dict.get (leaf_counts st) f 0 +
                 (if String.eqb (last stack "") f then w else 0)) /\
      (forall caller callee,
          In callee (Dict.get (call_relations st') caller []) <->
          In callee (Dict.get (call_relations st) caller []) \/
          Adjacent caller callee stack) /\
      ((forall caller, NoDup (Dict.get (call_relations st) caller [])) ->
       forall caller, NoDup (Dict.get (call_relations st') caller [])))
  /\
  (let st := aggregate init ["a"; "a"; "a"] 5 in
   Dict.get (inclusive_time st) "a" 0 = 15 /\
   Dict.get (func_counts st) "a" 0 = 15 /\
   Dict.get (exclusive_time st) "a" 0 = 5 /\
   Dict.get (leaf_counts st) "a" 0 = 5 /\
   call_relations st = [("a", ["a"])] /\
   parse_line "a;a;a;5" = Some (["a"; "a"; "a"], 5)).
Proof.
  split; [|vm_compute; repeat split].
  intros st stack w Hne. cbv zeta.
  destruct (aggregate_fields st stack w Hne)
    as (-> & -> & -> & -> & -> & _ & _).
  destruct (record_calls_spec stack (call_relations st)) as [R1 R2].
  repeat apply conj; auto.
  - intros f. apply get_count_inclusive.
  - intros f Hf. now apply get_count_funcs.
  - intros f. apply get_add.
  - intros f. apply get_add.
Qed.

Lemma aggregate_sample_witness :
  ["x"; "y"; "x"] <> [] /\
  Dict.get (inclusive_time (aggregate init ["x"; "y"; "x"] 4)) "x" 0 =
  Dict.get (inclusive_time init) "x" 0 + occurrences "x" ["x"; "y"; "x"] * 4.
Proof.
  split; [discriminate|].
  exact (proj1 (proj1 aggregate_sample init ["x"; "y"; "x"] 4
                      ltac:(discriminate)) "x").
Defined.

(** ** The line parser *)

Lemma rsplit1_none (sep : ascii) (s : string) :
  Py.rsplit1 sep s = None <-> Py.has_char sep s = false.
Proof.
  induction s as [|c s IH]; simpl.
  - tauto.
  - destruct (Py.rsplit1 sep s) as [[a b]|].
    + split; [discriminate|]. intros H.
      apply orb_false_iff in H. destruct H as [_ H].
      apply IH in H. discriminate.
    + destruct (Ascii.eqb c sep); simpl.
      * split; discriminate.
      * tauto.
Qed.

Lemma rsplit1_cut (sep : ascii) (s a b : string) :
  Py.rsplit1 sep s = Some (a, b) <->
  s = (a ++ String sep b)%string /\ Py.has_char sep b = false.
Proof.
  revert a. induction s as [|c s IH]; intros a; simpl.
  - split; [discriminate|]. intros [H _].
    destruct a; discriminate.
  - destruct (Py.rsplit1 sep s) as [[a' b']|] eqn:E.
    + split.
      * intros H. injection H as <- <-.
        destruct (proj1 (IH a') eq_refl) as [-> Hb]. auto.
      * intros [H Hb]. destruct a as [|c0 a]; simpl in H.
        -- injection H as -> ->.
           apply rsplit1_none in Hb. congruence.
        -- injection H as -> H.
           assert (Some (a', b') = Some (a, b)) as H' by (apply IH; auto).
           now injection H' as -> ->.
    + pose proof (proj1 (rsplit1_none sep s) E) as Hs.
      destruct (Ascii.eqb c sep) eqn:Ec.
      * apply Ascii.eqb_eq in Ec. subst c. split.
        -- intros H. injection H as <- <-. auto.
        -- intros [H Hb]. destruct a as [|c0 a]; simpl in H.
           ++ now injection H as ->.
           ++ injection H as -> H.
              assert (None = Some (a, b)) as H' by (apply IH; auto).
              discriminate.
      * split; [discriminate|]. intros [H Hb].
        destruct a as [|c0 a]; simpl in H.
        -- injection H as -> _. now rewrite Ascii.eqb_refl in Ec.
        -- injection H as -> H.
           assert (None = Some (a, b)) as H' by (apply IH; auto).
           discriminate.
Qed.

Lemma contains_char (c : ascii) (s : string) :
  Py.contains (String c "") s = Py.has_char c s.
Proof.
  induction s as [|c' s IH]; simpl; auto.
  rewrite IH. f_equal.
  destruct (ascii_dec c c') as [->|Hne].
  - rewrite Ascii.eqb_refl. now destruct s.
  - symmetry. apply Ascii.eqb_neq. congruence.
Qed.

Lemma has_char_app (c : ascii) (a b : string) :
  Py.has_char c (a ++ b) = Py.has_char c a || Py.has_char c b.
Proof.
  induction a as [|x a IH]; simpl; auto.
  rewrite IH. apply orb_assoc.
Qed.

Lemma split_no_sep (sep : ascii) (s : string) :
  Py.has_char sep s = false -> Py.split sep s = [s].
Proof.
  induction s as [|c s IH]; simpl; auto.
  intros H. apply orb_false_iff in H. destruct H as [-> H].
  now rewrite (IH H).
Qed.

Lemma split_weight_semicolon (line s c : string) :
  line = (s ++ ";" ++ c)%string -> Py.has_char ";" c = false ->
  split_weight line =
  match Py.int c with
  | Some n => (s, n)
  | None => (line, 1)
  end.
Proof.
  intros Hl Hc. unfold split_weight, Py.rsplit.
  rewrite (proj2 (rsplit1_cut ";" line s c) (conj Hl Hc)). reflexivity.
Qed.

Lemma split_weight_space (line s c : string) :
  Py.has_char ";" line = false ->
  line = (s ++ " " ++ c)%string -> Py.has_char " " c = false ->
  split_weight line =
  match Py.int c with
  | Some n => (s, n)
  | None => (line, 1)
  end.
Proof.
  intros Hsemi Hl Hc. unfold split_weight, Py.rsplit.
  rewrite (proj2 (rsplit1_none ";" line) Hsemi). simpl.
  rewrite contains_char.
  assert (Py.has_char " " line = true) as ->.
  { rewrite Hl, has_char_app. simpl. apply orb_true_r. }
  rewrite (proj2 (rsplit1_cut " " line s c) (conj Hl Hc)). reflexivity.
Qed.

Lemma split_weight_plain (line : string) :
  Py.has_char ";" line = false -> Py.has_char " " line = false ->
  split_weight line = (line, 1).
Proof.
  intros Hsemi Hsp. unfold split_weight, Py.rsplit.
  rewrite (proj2 (rsplit1_none ";" line) Hsemi). simpl.
  now rewrite contains_char, Hsp.
Qed.

Lemma lstrip_cut (s : string) :
  exists l, s = (l ++ Py.lstrip_with Py.isspace s)%string /\
            all_space l = true /\
            forall c t, Py.lstrip_with Py.isspace s = String c t ->
                        Py.isspace c = false.
Proof.
  induction s as [|c s (l & Hs & Hl & Hc)]; simpl.
  - exists "". split; [|split]; auto. discriminate.
  - destruct (Py.isspace c) eqn:E.
    + exists (String c l). simpl. rewrite E, Hl, <- Hs. auto.
    + exists "". split; [|split]; auto.
      intros c' t H. now injection H as <- _.
Qed.

Lemma rstrip_cut (s : string) :
  exists r, s = (Py.rstrip_with Py.isspace s ++ r)%string /\
            all_space r = true /\
            forall t c, Py.rstrip_with Py.isspace s = (t ++ String c "")%string ->
                        Py.isspace c = false.
Proof.
  induction s as [|c s (r & Hs & Hr & Hc)]; simpl.
  - exists "". split; [|split]; auto. intros [|? ?]; discriminate.
  - destruct (Py.rstrip_with Py.isspace s) as [|x u] eqn:E.
    + simpl in Hs. subst r. destruct (Py.isspace c) eqn:Ec.
      * exists (String c s). simpl. rewrite Ec, Hr.
        split; [|split]; auto.
      * exists s. split; [|split]; auto.
        intros [|y t] c0 H; simpl in H.
        -- now injection H as <-.
        -- injection H as _ H. destruct t; discriminate.
    + exists r. simpl. rewrite Hs at 1. split; [|split]; auto.
      intros [|y t] c0 H; simpl in H.
      * discriminate.
      * injection H as _ H. eauto.
Qed.

(** [strip] cuts white space, and only white space, from both ends. *)
Lemma strip_cut (raw : string) :
  exists l r,
    raw = (l ++ Py.strip raw ++ r)%string /\
    all_space l = true /\ all_space r = true /\
    (forall c t, Py.strip raw = String c t -> Py.isspace c = false) /\
    (forall t c, Py.strip raw = (t ++ String c "")%string ->
                 Py.isspace c = false).
Proof.
  unfold Py.strip, Py.strip_with.
  destruct (lstrip_cut raw) as (l & Hl & Hla & Hlc).
  destruct (rstrip_cut (Py.lstrip_with Py.isspace raw)) as (r & Hr & Hra & Hrc).
  exists l, r. split; [|split; [|split; [|split]]]; auto.
  - now rewrite <- Hr.
  - intros c t H. rewrite H in Hr. simpl in Hr. eauto.
Qed.

(** A line that is blank once stripped (the line terminator is white
    space too) gives no Sample, and it is the stripped line that the
    parser cuts. *)
Example blank_line_gives_no_sample :
  parse_line " " = None /\
  parse_line "" = None /\
  parse_line "  a;b nine  " = Some (["a"; "b nine"], 1).
Proof. vm_compute. repeat split. Qed.

(** C4.  Of a line of ASCII text.  A line is non-empty when something is
    left of it once the white space at its two ends is stripped; [line] is
    what is left, the line the parser works on.  An empty [line] gives no
    Sample.  A non-empty [line]
    gives exactly one Sample, with a stack of at least one frame: if [line]
    has a semicolon, [c] being the text after the last one and [s] the text
    before it, the Sample is [s] cut at its semicolons with the weight
    [int(c)], or, when [int(c)] fails, the whole [line] cut at its
    semicolons with weight 1; if [line] has no semicolon but has a blank,
    the same holds with the last blank as the cut; with neither, the stack
    is [line] alone and the weight is 1.  [parse_line] is a total function:
    no line raises.  The lines [a;b;c nine] and [onlyonefield] give the
    stacks ["a"; "b"; "c nine"] and ["onlyonefield"], each with weight
    1. *)
Theorem parse_line_spec :
  (forall raw : string,
      ascii_text raw = true ->
      let line := Py.strip raw in
      (exists l r, raw = (l ++ line ++ r)%string /\
                   all_space l = true /\ all_space r = true /\
                   (forall c t, line = String c t -> Py.isspace c = false) /\
                   (forall t c, line = (t ++ String c "")%string ->
                                Py.isspace c = false)) /\
      (line = "" -> parse_line raw = None) /\
      (line <> "" ->
       (exists stack w, parse_line raw = Some (stack, w) /\ stack <> []) /\
       (forall s c,
           line = (s ++ ";" ++ c)%string -> Py.has_char ";" c = false ->
           parse_line raw =
           Some (match Py.int c with
                 | Some n => (Py.split ";" s, n)
                 | None => (Py.split ";" line, 1)
                 end)) /\
       (Py.has_char ";" line = false ->
        forall s c,
          line = (s ++ " " ++ c)%string -> Py.has_char " " c = false ->
          parse_line raw =
          Some (match Py.int c with
                | Some n => ([s], n)
                | None => ([line], 1)
                end)) /\
       (Py.has_char ";" line = false -> Py.has_char " " line = false ->
        parse_line raw = Some ([line], 1))))
  /\
  parse_line "a;b;c nine" = Some (["a"; "b"; "c nine"], 1) /\
  parse_line "onlyonefield" = Some (["onlyonefield"], 1).
Proof.
  split; [|vm_compute; split; reflexivity].
  intros raw _. cbv zeta. split; [apply strip_cut|].
  unfold parse_line. split.
  - intros ->. reflexivity.
  - intros Hne. apply String.eqb_neq in Hne. rewrite Hne.
    split; [|split; [|split]].
    + destruct (split_weight (Py.strip raw)) as [stack_str count].
      exists (Py.split ";" stack_str), count. split; auto.
      apply split_not_nil.
    + intros s c Hl Hc. rewrite (split_weight_semicolon _ s c Hl Hc).
      now destruct (Py.int c).
    + intros Hsemi s c Hl Hc.
      rewrite (split_weight_space _ s c Hsemi Hl Hc).
      destruct (Py.int c).
      * rewrite split_no_sep; auto.
        rewrite Hl, has_char_app in Hsemi.
        now apply orb_false_iff in Hsemi.
      * now rewrite split_no_sep.
    + intros Hsemi Hsp. rewrite (split_weight_plain _ Hsemi Hsp).
      now rewrite split_no_sep.
Qed.

Lemma parse_line_spec_witness :
  ascii_text " x;y;7 " = true /\
  Py.strip " x;y;7 " <> "" /\
  parse_line " x;y;7 " = Some (["x"; "y"], 7).
Proof.
  split; [reflexivity|]. split; [vm_compute; discriminate|].
  exact (proj1 (proj2 (proj2 (proj2 (proj1 parse_line_spec " x;y;7 "
                                       eq_refl))
                         ltac:(vm_compute; discriminate)))
               "x;y" "7" eq_refl eq_refl).
Defined.

(** ** The categorizer *)

Lemma prefix_cut (sub s : string) :
  String.prefix sub s = true <-> exists b, s = (sub ++ b)%string.
Proof.
  revert sub. induction s as [|c s IH]; intros [|a sub]; simpl.
  - split; eauto.
  - split; [discriminate|]. intros (b & H). discriminate.
  - split; eauto.
  - destruct (ascii_dec a c) as [->|Hne].
    + rewrite IH. split; intros (b & H); exists b.
      * now rewrite H.
      * now injection H.
    + split; [discriminate|]. intros (b & H). injection H as H _.
      congruence.
Qed.

(** [sub in s] holds exactly when [sub] occurs in [s]. *)
Lemma contains_Substring (sub s : string) :
  Py.contains sub s = true <-> Substring sub s.
Proof.
  unfold Substring. induction s as [|c s IH]; cbn [Py.contains].
  - rewrite orb_false_r, prefix_cut. split.
    + intros (b & H). now exists "", b.
    + intros (a & b & H). destruct a; [now exists b|discriminate].
  - rewrite orb_true_iff, IH. split.
    + intros [H|(a & b & H)].
      * apply (prefix_cut sub (String c s)) in H.
        destruct H as (b & H). now exists "", b.
      * exists (String c a), b. simpl. now rewrite H.
    + intros (a & b & H). destruct a as [|x a]; simpl in H.
      * left. apply (prefix_cut sub (String c s)). now exists b.
      * right. injection H as _ H. now exists a, b.
Qed.

Lemma first_match_spec (cats : list (string * string)) (func : string) :
  (forall pre cat sub post,
      cats = (pre ++ (cat, sub) :: post)%list ->
      Substring sub func ->
      (forall p, In p pre -> ~ Substring (snd p) func) ->
      first_match cats func = Some cat) /\
  ((forall p, In p cats -> ~ Substring (snd p) func) ->
   first_match cats func = None).
Proof.
  induction cats as [|[c0 s0] cats [IH1 IH2]]; simpl.
  - split; auto. intros [|? ?]; discriminate.
  - split.
    + intros pre cat sub post Hc Hsub Hpre.
      destruct pre as [|p pre]; simpl in Hc.
      * injection Hc as -> -> _.
        apply contains_Substring in Hsub. now rewrite Hsub.
      * injection Hc as <- Hc.
        destruct (Py.contains s0 func) eqn:E.
        -- apply contains_Substring in E.
           exfalso. apply (Hpre (c0, s0)); simpl; auto.
        -- apply (IH1 pre cat sub post); auto.
           intros p Hp. apply Hpre. now right.
    + intros Hno. destruct (Py.contains s0 func) eqn:E.
      * apply contains_Substring in E.
        exfalso. apply (Hno (c0, s0)); auto.
      * apply IH2. intros p Hp. apply Hno. now right.
Qed.

Lemma get_categorize (fc cc : dict Z) (cat : string) :
  Dict.get (categorize fc cc) cat 0 = Dict.get cc cat 0 + bucket_share cat fc.
Proof.
  unfold categorize, bucket_share. revert cc.
  induction fc as [|[func count] fc IH]; intros cc; simpl.
  - lia.
  - rewrite IH, get_add.
    destruct (String.eqb (category_of func) cat); simpl; lia.
Qed.

Lemma keys_count_funcs_NoDup (stack : list string) (w : Z) (fc : dict Z) :
  NoDup (keys fc) -> NoDup (keys (count_funcs stack w fc)).
Proof.
  unfold count_funcs. revert fc.
  induction stack as [|f stack IH]; intros fc H; simpl; auto.
  apply IH. destruct (String.eqb f ""); auto.
  now apply NoDup_keys_update.
Qed.

Lemma category_names_differ :
  NoDup (other :: map fst categories).
Proof.
  repeat (constructor;
          [simpl; intros H;
           repeat (destruct H as [H|H]; [discriminate H|]); exact H|]).
  constructor.
Qed.

Lemma well_formed_init : well_formed init.
Proof.
  unfold well_formed. simpl.
  repeat (split; [constructor|]). split; intros k [].
Qed.

Lemma aggregate_not_nil (st : analyzer) (stack : list string) (w : Z) :
  stack <> [] ->
  aggregate st stack w =
  let leaf_func := last stack "" in
  let is_alloc := is_alloc_name leaf_func in
  let is_free := negb is_alloc && Py.contains "free" leaf_func in
  {| inclusive_time := count_inclusive stack w (inclusive_time st);
     exclusive_time := Dict.add leaf_func w (exclusive_time st);
     call_relations := record_calls stack (call_relations st);
     leaf_counts := Dict.add leaf_func w (leaf_counts st);
     func_counts := count_funcs stack w (func_counts st);
     total_samples := total_samples st;
     parsed_lines := parsed_lines st;
     line_count := line_count st;
     malloc_counts :=
       if is_alloc then Dict.add leaf_func w (malloc_counts st)
       else malloc_counts st;
     free_counts :=
       if is_free then Dict.add leaf_func w (free_counts st)
       else free_counts st;
     category_counts := category_counts st |}.
Proof. intros Hne. destruct stack; [contradiction|reflexivity]. Qed.

Lemma well_formed_aggregate (st : analyzer) (stack : list string) (w : Z) :
  stack <> [] -> well_formed st -> well_formed (aggregate st stack w).
Proof.
  intros Hne (H1 & H2 & H3 & H4 & H5 & H6 & H7 & H8).
  rewrite (aggregate_not_nil st stack w Hne). cbv zeta.
  unfold well_formed.
  cbn [inclusive_time exclusive_time leaf_counts func_counts
       malloc_counts free_counts].
  split; [now apply NoDup_count_inclusive|].
  split; [now apply NoDup_keys_update|].
  split; [now apply NoDup_keys_update|].
  split; [now apply keys_count_funcs_NoDup|].
  destruct (is_alloc_name (last stack "")) eqn:E; simpl.
  - split; [now apply NoDup_keys_update|].
    split; [assumption|]. split; [|assumption].
    intros k Hk. apply keys_update in Hk. destruct Hk as [->|Hk]; auto.
  - split; [assumption|].
    destruct (Py.contains "free" (last stack "")).
    + split; [now apply NoDup_keys_update|]. split; [assumption|].
      intros k Hk. apply keys_update in Hk. destruct Hk as [->|Hk]; auto.
    + auto.
Qed.

Lemma well_formed_scan (lines : list string) (st : analyzer) :
  well_formed st -> well_formed (scan st lines).
Proof.
  apply scan_invariant; auto.
  intros st' stack w. apply well_formed_aggregate.
Qed.

Lemma well_formed_parse_file (lines : list string) :
  well_formed (parse_file init lines).
Proof.
  unfold parse_file. fold (scan init lines).
  exact (well_formed_scan lines init well_formed_init).
Qed.

(** C9.  The bucket of a name is the category of the first pair of
    [categories] whose substring occurs in the name, and the fallback
    bucket when no substring occurs.  [func_counts] holds each name once,
    and after [parse_file] on a fresh analyzer every bucket holds the sum
    of the [func_counts] values of exactly the names it is the bucket of;
    no bucket other than the configured ones and the fallback exists.  The
    bucket is a function of the name: a name with two configured
    substrings goes to the one listed first, as [QtCoreFoundation] goes to
    [Qt]. *)
Theorem categorize_first_match :
  (forall func : string,
      (forall pre cat sub post,
          categories = (pre ++ (cat, sub) :: post)%list ->
          Substring sub func ->
          (forall p, In p pre -> ~ Substring (snd p) func) ->
          category_of func = cat) /\
      ((forall p, In p categories -> ~ Substring (snd p) func) ->
       category_of func = other)) /\
  (forall lines : list string,
      let st := parse_file init lines in
      NoDup (keys (func_counts st)) /\
      (forall cat, Dict.get (category_counts st) cat 0 =
                   bucket_share cat (func_counts st)) /\
      (forall cat, In cat (keys (category_counts st)) ->
                   exists func, In func (keys (func_counts st)) /\
                                category_of func = cat)) /\
  NoDup (other :: map fst categories) /\
  category_of "QtCoreFoundation" = "Qt" /\
  category_of "CoreFoundation`CFRelease" = "CoreFoundation" /\
  category_of "main" = other.
Proof.
  split; [|split; [|split; [apply category_names_differ|]]].
  - intros func. unfold category_of.
    destruct (first_match_spec categories func) as [F1 F2]. split.
    + intros pre cat sub post Hc Hsub Hpre.
      now rewrite (F1 pre cat sub post Hc Hsub Hpre).
    + intros Hno. now rewrite (F2 Hno).
  - intros lines. cbv zeta.
    destruct (well_formed_parse_file lines) as (_ & _ & _ & Hnd & _).
    split; [exact Hnd|].
    destruct (parse_file_fields init lines) as (_ & _ & _ & -> & _ & ->).
    split.
    + intros cat. now rewrite get_categorize.
    + intros cat. unfold categorize.
      generalize (func_counts (scan init lines)).
      assert (forall (fc cc : dict Z),
                 In cat (keys (fold_left
                   (fun cc '(func, count) =>
                      Dict.add (category_of func) count cc) fc cc)) ->
                 In cat (keys cc) \/
                 exists func, In func (keys fc) /\ category_of func = cat)
        as Hgen.
      { induction fc as [|[func count] fc IH]; intros cc; simpl; auto.
        intros H. apply IH in H. destruct H as [H|(g & Hg & Hc)].
        - unfold Dict.add in H. apply keys_update in H.
          destruct H as [->|H]; auto. right. exists func. auto.
        - right. exists g. auto. }
      intros fc H. apply Hgen in H. simpl in H. destruct H as [[]|H]; auto.
  - vm_compute. repeat split.
Qed.

Lemma categorize_first_match_witness :
  Substring "Qt" "QtCoreFoundation" /\
  category_of "QtCoreFoundation" = "Qt".
Proof.
  assert (Substring "Qt" "QtCoreFoundation") as Hsub.
  { exists "", "CoreFoundation". reflexivity. }
  split; [exact Hsub|].
  apply (proj1 (proj1 categorize_first_match "QtCoreFoundation")
               [("MoganSTEM", "MoganSTEM")] "Qt" "Qt"
               (skipn 2 categories) eq_refl Hsub).
  intros p [<-|[]]. simpl. intros Hc.
  apply contains_Substring in Hc. vm_compute in Hc. discriminate.
Defined.

(** ** Sorting and the error monad *)

Section SortFacts.
Context {A : Type} (key : A -> Z).

Lemma insert_desc_perm (x : A) (l : list A) :
  Permutation (insert_desc key x l) (x :: l).
Proof.
  induction l as [|y l IH]; simpl; auto.
  destruct (key y >? key x); auto.
  rewrite IH. apply perm_swap.
Qed.

Lemma sorted_desc_perm (l : list A) : Permutation (sorted_desc key l) l.
Proof.
  induction l as [|x l IH]; simpl; auto.
  rewrite insert_desc_perm. now constructor.
Qed.

Lemma insert_desc_sorted (x : A) (l : list A) :
  Descending key l -> Descending key (insert_desc key x l).
Proof.
  unfold Descending. induction l as [|y l IH]; simpl; intros H.
  - constructor; [constructor|constructor].
  - inversion H as [|? ? Hs Hf]; subst.
    destruct (key y >? key x) eqn:E.
    + constructor; auto.
      rewrite insert_desc_perm.
      apply Z.gtb_lt in E. constructor; auto. lia.
    + constructor; auto. constructor; [lia|].
      eapply Forall_impl; [|exact Hf]. simpl. intros z Hz. lia.
Qed.

Lemma sorted_desc_sorted (l : list A) : Descending key (sorted_desc key l).
Proof.
  induction l as [|x l IH]; simpl.
  - constructor.
  - now apply insert_desc_sorted.
Qed.

Lemma insert_desc_stable (k : Z) (x : A) (l : list A) :
  filter (fun y => key y =? k) (insert_desc key x l) =
  filter (fun y => key y =? k) (x :: l).
Proof.
  induction l as [|y l IH]; simpl; auto.
  destruct (key y >? key x) eqn:E; simpl; auto.
  rewrite IH. simpl.
  destruct (key y =? k) eqn:Ey, (key x =? k) eqn:Ex; auto.
  lia.
Qed.

(** [sorted] is stable: the items of one key keep their order. *)
Lemma sorted_desc_stable (k : Z) (l : list A) :
  filter (fun y => key y =? k) (sorted_desc key l) =
  filter (fun y => key y =? k) l.
Proof.
  induction l as [|x l IH]; simpl; auto.
  rewrite insert_desc_stable. simpl. now rewrite IH.
Qed.

Lemma sorted_desc_In (x : A) (l : list A) :
  In x (sorted_desc key l) <-> In x l.
Proof.
  split; apply Permutation_in; [|symmetry]; apply sorted_desc_perm.
Qed.
End SortFacts.

Lemma sorted_desc_keys (d : dict Z) :
  NoDup (keys d) -> NoDup (keys (sorted_desc snd d)).
Proof.
  unfold keys. apply Permutation_NoDup, Permutation_map.
  symmetry. apply sorted_desc_perm.
Qed.

Lemma for_each_ok {A B} (body : A -> result B) (g : A -> B) (l : list A) :
  (forall x, In x l -> body x = Ok (g x)) ->
  for_each body l = Ok (map g l).
Proof.
  induction l as [|x l IH]; simpl; intros H; auto.
  rewrite (H x) by auto. simpl. rewrite IH by auto. reflexivity.
Qed.

Lemma for_each_raise {A B} (body : A -> result B) (e : exn) (l : list A) :
  l <> [] -> (forall x, In x l -> body x = Raise e) ->
  for_each body l = Raise e.
Proof.
  destruct l as [|x l]; [contradiction|]. intros _ H. simpl.
  rewrite (H x) by (now left). reflexivity.
Qed.

Lemma for_each_inv {A B} (body : A -> result B) (l : list A) (ys : list B) :
  for_each body l = Ok ys -> Forall2 (fun x y => body x = Ok y) l ys.
Proof.
  revert ys. induction l as [|x l IH]; simpl; intros ys H.
  - injection H as <-. constructor.
  - destruct (body x) as [y|e] eqn:E; simpl in H; [|discriminate].
    destruct (for_each body l) as [ys'|e]; simpl in H; [|discriminate].
    injection H as <-. constructor; auto.
Qed.

Lemma percentage_ok (weight total : Z) :
  total <> 0 ->
  percentage weight total =
  Ok (inject_Z weight / inject_Z total * 100)%Q.
Proof.
  intros H. unfold percentage, truediv.
  apply Z.eqb_neq in H. now rewrite H.
Qed.

Lemma percentage_zero (weight : Z) :
  percentage weight 0 = Raise ZeroDivisionError.
Proof. reflexivity. Qed.

Lemma slice_to_nat {A} (n : nat) (l : list A) :
  slice_to (Z.of_nat n) l = firstn n l.
Proof.
  unfold slice_to. destruct (Z.of_nat n <? 0) eqn:E.
  - apply Z.ltb_lt in E. lia.
  - now rewrite Nat2Z.id.
Qed.

(** ** Binary64 *)

Lemma floor_log2_quot_le (n d k : Z) :
  0 < n -> 0 < d -> 0 <= k -> n <= d * 2 ^ k -> floor_log2_quot n d <= k.
Proof.
  intros Hn Hd Hk H. unfold floor_log2_quot.
  assert (Z.log2 n - Z.log2 d <= k).
  { pose proof (Z.log2_le_mono _ _ H) as L.
    rewrite Z.log2_mul_pow2 in L by lia. lia. }
  match goal with |- (if ?c then _ else _) <= _ => destruct c end; lia.
Qed.

Lemma floor_log2_quot_upper (n d : Z) :
  0 < n -> 0 < d -> 0 <= floor_log2_quot n d ->
  n < d * 2 ^ (floor_log2_quot n d + 1).
Proof.
  intros Hn Hd. unfold floor_log2_quot.
  set (e0 := Z.log2 n - Z.log2 d).
  assert (0 <= e0 -> n < d * 2 ^ (e0 + 1)) as Hup.
  { intros He0.
    pose proof (Z.log2_spec n Hn) as [_ Hnu].
    pose proof (Z.log2_spec d Hd) as [Hdl _].
    pose proof (Z.log2_nonneg d).
    replace (Z.succ (Z.log2 n)) with (Z.log2 d + (e0 + 1)) in Hnu
      by (unfold e0; lia).
    rewrite Z.pow_add_r in Hnu by lia.
    assert (0 < 2 ^ (e0 + 1)) by (apply Z.pow_pos_nonneg; lia).
    nia. }
  destruct (0 <=? e0) eqn:E0.
  - apply Z.leb_le in E0.
    destruct (d * 2 ^ e0 <=? n) eqn:E.
    + intros _. auto.
    + intros He. apply Z.leb_gt in E.
      now replace (e0 - 1 + 1) with e0 by lia.
  - apply Z.leb_gt in E0. destruct (d <=? _); lia.
Qed.

(** A quotient of at most [2 ^ 970] is within the range. *)
Lemma round_quot_finite (n d : Z) :
  0 < n -> 0 < d -> n <= d * 2 ^ 970 ->
  exists m e, round_quot n d = Finite m e.
Proof.
  intros Hn Hd H. unfold round_quot.
  pose proof (floor_log2_quot_le n d 970 Hn Hd ltac:(lia) H) as He.
  set (e := floor_log2_quot n d) in *.
  set (s := Z.max (e - 52) (-1074)).
  destruct (0 <=? s) eqn:Es; cbn [andb]; [|eauto].
  apply Z.leb_le in Es.
  assert (s = e - 52) as Hs by (unfold s in *; lia).
  assert (0 <= e) as He0 by lia.
  pose proof (floor_log2_quot_upper n d Hn Hd He0) as Hup. fold e in Hup.
  assert ((s <? 0) = false) as -> by (apply Z.ltb_ge; lia).
  set (D := d * 2 ^ s).
  assert (0 < 2 ^ s) as Hps by (apply Z.pow_pos_nonneg; lia).
  assert (0 < D) as HD by (unfold D; nia).
  assert (n / D < 2 ^ 53) as Hq.
  { apply Z.div_lt_upper_bound; [assumption|].
    replace (e + 1) with (s + 53) in Hup by lia.
    rewrite Z.pow_add_r in Hup by lia. unfold D. nia. }
  match goal with |- context [if ?c then n / D + 1 else n / D] =>
    set (m := if c then n / D + 1 else n / D) end.
  assert (m <= 2 ^ 53) as Hm.
  { unfold m. match goal with |- (if ?c then _ else _) <= _ =>
      destruct c end; lia. }
  assert (m * 2 ^ s < 2 ^ 1024) as Hlt.
  { assert (2 ^ s <= 2 ^ 918) by (apply Z.pow_le_mono_r; lia).
    assert (2 ^ 53 * 2 ^ 918 < 2 ^ 1024) by (vm_compute; reflexivity).
    assert (0 < 2 ^ 53) by (vm_compute; reflexivity).
    nia. }
  apply Z.leb_gt in Hlt. rewrite Hlt. eauto.
Qed.

Lemma floor_log2_quot_bounds (n d : Z) :
  0 < n -> 0 < d ->
  let e := floor_log2_quot n d in
  (0 <= e -> d * 2 ^ e <= n < d * 2 ^ (e + 1)) /\
  (e < 0 -> d <= n * 2 ^ (- e) /\ n * 2 ^ (- e - 1) < d).
Proof.
  intros Hn Hd. cbv zeta. unfold floor_log2_quot.
  set (e0 := Z.log2 n - Z.log2 d).
  pose proof (Z.log2_spec n Hn) as [Hnl Hnu].
  pose proof (Z.log2_spec d Hd) as [Hdl Hdu].
  pose proof (Z.log2_nonneg d) as Hd0. pose proof (Z.log2_nonneg n) as Hn0.
  rewrite Z.pow_succ_r in Hnu, Hdu by assumption.
  set (a := Z.log2 n) in *. set (b := Z.log2 d) in *.
  assert (0 < 2 ^ a) as Pa by (apply Z.pow_pos_nonneg; lia).
  assert (0 < 2 ^ b) as Pb by (apply Z.pow_pos_nonneg; lia).
  destruct (0 <=? e0) eqn:E0.
  - apply Z.leb_le in E0.
    assert (2 ^ a = 2 ^ b * 2 ^ e0) as Hab.
    { rewrite <- Z.pow_add_r by lia. f_equal. unfold e0. lia. }
    assert (0 < 2 ^ e0) as Pe by (apply Z.pow_pos_nonneg; lia).
    destruct (d * 2 ^ e0 <=? n) eqn:E.
    + apply Z.leb_le in E. split; [|lia]. intros _. split; [exact E|].
      rewrite Z.pow_add_r, Z.pow_1_r by lia. nia.
    + apply Z.leb_gt in E. split.
      * intros He. replace (e0 - 1 + 1) with e0 by lia.
        split; [|exact E].
        replace e0 with (e0 - 1 + 1) in Hab by lia.
        rewrite Z.pow_add_r, Z.pow_1_r in Hab by lia.
        assert (0 < 2 ^ (e0 - 1)) by (apply Z.pow_pos_nonneg; lia).
        nia.
      * intros He. assert (e0 = 0) as He0 by lia.
        rewrite He0 in *. change (- (0 - 1)) with 1.
        change (- (0 - 1) - 1) with 0.
        rewrite Z.pow_0_r in *. rewrite Z.pow_1_r. nia.
  - apply Z.leb_gt in E0.
    assert (2 ^ b = 2 ^ a * 2 ^ (- e0)) as Hab.
    { rewrite <- Z.pow_add_r by lia. f_equal. unfold e0. lia. }
    assert (0 < 2 ^ (- e0)) as Pe by (apply Z.pow_pos_nonneg; lia).
    assert (2 ^ (- e0) = 2 * 2 ^ (- e0 - 1)) as Hhalf.
    { rewrite <- Z.pow_succ_r by lia. f_equal. lia. }
    assert (0 < 2 ^ (- e0 - 1)) as Ph by (apply Z.pow_pos_nonneg; lia).
    destruct (d <=? n * 2 ^ (- e0)) eqn:E.
    + apply Z.leb_le in E. split; [lia|]. intros _. split; [exact E|]. nia.
    + apply Z.leb_gt in E. split; [lia|]. intros _.
      replace (- (e0 - 1)) with (- e0 + 1) by lia.
      replace (- e0 + 1 - 1) with (- e0) by lia.
      rewrite Z.pow_add_r, Z.pow_1_r by lia. split; [nia|exact E].
Qed.

(** [round_quot] rounds to the nearest multiple of [2 ^ s], a tie going
    to the even one: with [N / D] the quotient in units of [2 ^ s]. *)
Lemma round_quot_nearest (n d m s : Z) :
  0 < n -> 0 < d -> round_quot n d = Finite m s ->
  let N := if s <? 0 then n * 2 ^ (- s) else n in
  let D := if s <? 0 then d else d * 2 ^ s in
  -1074 <= s /\
  2 * Z.abs (N - m * D) <= D /\
  (2 * Z.abs (N - m * D) = D -> Z.even m = true).
Proof.
  intros Hn Hd. unfold round_quot.
  set (e := floor_log2_quot n d).
  set (s0 := Z.max (e - 52) (-1074)).
  set (N := if s0 <? 0 then n * 2 ^ (- s0) else n).
  set (D := if s0 <? 0 then d else d * 2 ^ s0).
  assert (0 < D) as HD.
  { unfold D. destruct (s0 <? 0) eqn:E; [assumption|].
    apply Z.ltb_ge in E.
    assert (0 < 2 ^ s0) by (apply Z.pow_pos_nonneg; lia). nia. }
  pose proof (Z.div_mod N D ltac:(lia)) as Hdm.
  pose proof (Z.mod_pos_bound N D HD) as Hr.
  set (q := N / D) in *. set (r := N mod D) in *.
  set (m0 := if (D <? 2 * r) || ((D =? 2 * r) && Z.odd q) then q + 1 else q).
  destruct ((0 <=? s0) && _); [discriminate|].
  intros H. assert (m = m0 /\ s = s0) as [-> ->] by (split; congruence).
  cbv zeta. fold N D. unfold m0.
  split; [unfold s0; lia|].
  destruct (D <? 2 * r) eqn:E1; cbn [orb].
  - apply Z.ltb_lt in E1. split; [lia|]. intros Habs. lia.
  - apply Z.ltb_ge in E1.
    destruct (D =? 2 * r) eqn:E2; cbn [andb].
    + apply Z.eqb_eq in E2. destruct (Z.odd q) eqn:Eo.
      * split; [lia|]. intros _.
        rewrite Z.even_add, <- Z.negb_odd, Eo. reflexivity.
      * split; [lia|]. intros _. now rewrite <- Z.negb_odd, Eo.
    + apply Z.eqb_neq in E2. split; [lia|]. intros Habs. lia.
Qed.

(** The mantissa has at most 53 bits, and exactly 53 unless the number is
    subnormal; a finite result is below [2 ^ 1024]. *)
Lemma round_quot_mantissa (n d m s : Z) :
  0 < n -> 0 < d -> round_quot n d = Finite m s ->
  0 <= m <= 2 ^ 53 /\
  (-1074 < s -> 2 ^ 52 <= m) /\
  (0 <= s -> m * 2 ^ s < 2 ^ 1024).
Proof.
  intros Hn Hd. unfold round_quot.
  pose proof (floor_log2_quot_bounds n d Hn Hd) as HB. cbv zeta in HB.
  set (e := floor_log2_quot n d) in *.
  set (s0 := Z.max (e - 52) (-1074)).
  set (N := if s0 <? 0 then n * 2 ^ (- s0) else n).
  set (D := if s0 <? 0 then d else d * 2 ^ s0).
  assert (0 < D /\ N < D * 2 ^ 53 /\ (-1074 < s0 -> D * 2 ^ 52 <= N))
    as (HD & Hup & Hlow).
  { unfold N, D. destruct (s0 <? 0) eqn:Es.
    - apply Z.ltb_lt in Es. split; [assumption|].
      assert (0 < 2 ^ 52) as P52 by reflexivity.
      destruct (Z_le_gt_dec 0 e) as [He|He].
      + destruct (proj1 HB He) as [Hl Hu].
        assert (s0 = e - 52) as -> by (unfold s0; lia).
        replace (- (e - 52)) with (52 - e) by lia.
        assert (0 < 2 ^ e) by (apply Z.pow_pos_nonneg; lia).
        assert (0 < 2 ^ (52 - e)) by (apply Z.pow_pos_nonneg; lia).
        assert (2 ^ e * 2 ^ (52 - e) = 2 ^ 52) as H52.
        { rewrite <- Z.pow_add_r by lia. f_equal. lia. }
        rewrite Z.pow_add_r, Z.pow_1_r in Hu by lia.
        replace (2 ^ 53) with (2 * 2 ^ 52) by reflexivity.
        split; [|intros _]; nia.
      + destruct (proj2 HB ltac:(lia)) as [Hl Hu].
        assert (0 < 2 ^ (- e - 1)) by (apply Z.pow_pos_nonneg; lia).
        assert (2 ^ (- e) = 2 * 2 ^ (- e - 1)) as Hh.
        { rewrite <- Z.pow_succ_r by lia. f_equal. lia. }
        split.
        * assert (- s0 - (- e - 1) <= 53) by (unfold s0; lia).
          destruct (Z_le_gt_dec 0 (- s0 - (- e - 1))) as [Hk|Hk].
          -- replace (- s0) with (- e - 1 + (- s0 - (- e - 1))) by lia.
             rewrite Z.pow_add_r by lia.
             assert (2 ^ (- s0 - (- e - 1)) <= 2 ^ 53)
               by (apply Z.pow_le_mono_r; lia).
             assert (0 < 2 ^ (- s0 - (- e - 1)))
               by (apply Z.pow_pos_nonneg; lia).
             nia.
          -- assert (2 ^ (- s0) <= 2 ^ (- e - 1))
               by (apply Z.pow_le_mono_r; lia).
             nia.
        * intros Hs. assert (s0 = e - 52) as -> by (unfold s0 in *; lia).
          replace (- (e - 52)) with (- e + 52) by lia.
          rewrite Z.pow_add_r by lia. nia.
    - apply Z.ltb_ge in Es.
      assert (s0 = e - 52) as Hs0 by (unfold s0 in *; lia).
      destruct (proj1 HB ltac:(lia)) as [Hl Hu].
      assert (0 < 2 ^ s0) by (apply Z.pow_pos_nonneg; lia).
      assert (2 ^ e = 2 ^ s0 * 2 ^ 52) as He.
      { rewrite <- Z.pow_add_r by lia. f_equal. lia. }
      rewrite Z.pow_add_r, Z.pow_1_r, He in Hu by lia. rewrite He in Hl.
      replace (2 ^ 53) with (2 * 2 ^ 52) by reflexivity.
      split; [nia|]. split; [|intros _]; nia. }
  assert (0 <= N) as HN.
  { unfold N. destruct (s0 <? 0); [|lia].
    assert (0 <= 2 ^ (- s0)) by (apply Z.pow_nonneg; lia). nia. }
  assert (0 <= N / D < 2 ^ 53) as Hq.
  { split; [apply Z.div_pos; lia|].
    apply Z.div_lt_upper_bound; [assumption|]. lia. }
  assert (-1074 < s0 -> 2 ^ 52 <= N / D) as Hq'.
  { intros Hs. apply Z.div_le_lower_bound; [assumption|].
    specialize (Hlow Hs). lia. }
  set (q := N / D) in *. set (r := N mod D).
  set (m0 := if (D <? 2 * r) || ((D =? 2 * r) && Z.odd q) then q + 1 else q).
  assert (q <= m0 <= q + 1) as Hm0.
  { unfold m0. match goal with |- _ <= (if ?c then _ else _) <= _ =>
      destruct c end; lia. }
  destruct ((0 <=? s0) && (2 ^ 1024 <=? m0 * 2 ^ s0)) eqn:Eov;
    [discriminate|].
  intros H. assert (m = m0 /\ s = s0) as [-> ->] by (split; congruence).
  split; [lia|]. split.
  - intros Hs. specialize (Hq' Hs). lia.
  - intros Hs. apply Z.leb_le in Hs. rewrite Hs in Eov. cbn [andb] in Eov.
    now apply Z.leb_gt in Eov.
Qed.

Lemma truediv64_returns (a b : Z) :
  b <> 0 -> Z.abs a <= Z.abs b * 2 ^ 970 ->
  exists q, truediv64 a b = Ok q.
Proof.
  intros Hb H. unfold truediv64, round64.
  apply Z.eqb_neq in Hb as Hb'. rewrite Hb'.
  assert (0 < Z.abs b) as Hd by lia.
  assert (Z.abs (a * Z.sgn b) = Z.abs a) as Hn.
  { rewrite Z.abs_mul. destruct b; [contradiction| |]; cbn [Z.sgn]; lia. }
  set (n := a * Z.sgn b) in *. set (d := Z.abs b) in *.
  assert (Z.abs n <= d * 2 ^ 970) as Hle by (rewrite Hn; exact H).
  clear H Hn Hb Hb'. set (K := 2 ^ 970) in Hle.
  destruct (Z.compare_spec n 0) as [E|E|E].
  - eauto.
  - destruct (round_quot_finite (- n) d) as (m & e & ->);
      [lia|lia|fold K; lia|]. cbn [fneg]. eauto.
  - destruct (round_quot_finite n d) as (m & e & ->);
      [lia|lia|fold K; lia|]. eauto.
Qed.

Lemma percent64_returns (weight total : Z) :
  total <> 0 -> Z.abs weight <= Z.abs total * 2 ^ 970 ->
  exists p, percent64 weight total = Ok p.
Proof.
  intros H1 H2. unfold percent64.
  destruct (truediv64_returns weight total H1 H2) as [q ->].
  cbn [bind]. eauto.
Qed.

Lemma percent64_zero (weight : Z) :
  percent64 weight 0 = Raise ZeroDivisionError.
Proof. reflexivity. Qed.

(** ** The outlier view *)

Lemma for_each_Forall2 {A B} (body : A -> result B) (l : list A)
  (ys : list B) :
  Forall2 (fun x y => body x = Ok y) l ys -> for_each body l = Ok ys.
Proof.
  induction 1 as [|x y l ys Hb _ IH]; simpl; [reflexivity|].
  rewrite Hb. cbn [bind]. rewrite IH. reflexivity.
Qed.

Lemma high_cost_rows (tally : dict Z) (total : Z) (threshold : float64) out :
  high_cost tally total threshold = Ok out <->
  exists rows, window_rows tally total rows /\
               out = filter (fun y => float_ltb threshold (snd y)) rows.
Proof.
  unfold high_cost, window_rows.
  change 20 with (Z.of_nat 20). rewrite slice_to_nat.
  set (body := fun '(func, time_val) =>
                 p <- percent64 time_val total ;; Ok (func, p)).
  assert (forall x y, body x = Ok y <->
            fst y = fst x /\ percent64 (snd x) total = Ok (snd y)) as Hbody.
  { intros [f v] [g p]. unfold body. cbn [fst snd].
    destruct (percent64 v total) as [p'|e]; cbn [bind]; split.
    - intros H. injection H as <- <-. auto.
    - intros [-> H]. injection H as ->. reflexivity.
    - discriminate.
    - intros [_ H]. discriminate. }
  assert (forall rows : list (string * float64),
             filter (fun '(_, p) => float_ltb threshold p) rows =
             filter (fun y => float_ltb threshold (snd y)) rows) as Hf.
  { intros rows. apply filter_ext. now intros [g p]. }
  split.
  - destruct (for_each body _) as [rows|e] eqn:E; cbn [bind]; [|discriminate].
    intros H. injection H as <-. exists rows. split; [|apply Hf].
    apply for_each_inv in E.
    eapply Forall2_impl; [|exact E]. intros x y. apply Hbody.
  - intros (rows & Hrows & ->).
    rewrite (for_each_Forall2 body _ rows).
    + cbn [bind]. now rewrite Hf.
    + eapply Forall2_impl; [|exact Hrows]. intros x y. apply Hbody.
Qed.

Lemma window_rows_In (tally : dict Z) (total : Z) rows f p :
  window_rows tally total rows ->
  In (f, p) rows <->
  exists v, In (f, v) (firstn 20 (sorted_desc snd tally)) /\
            percent64 v total = Ok p.
Proof.
  unfold window_rows. generalize (firstn 20 (sorted_desc snd tally)).
  intros l H. induction H as [|[g v] [g' p'] l rows [Hg Hp] _ IH];
    cbn [fst snd] in *.
  - split; [intros []|intros (v & [] & _)].
  - subst g'. split.
    + intros [H|H].
      * injection H as -> ->. exists v. split; [now left|assumption].
      * apply IH in H. destruct H as (v' & Hin & Hv).
        exists v'. split; [now right|assumption].
    + intros (v' & [H|H] & Hv).
      * injection H as -> ->. left. rewrite Hp in Hv.
        now injection Hv as ->.
      * right. apply IH. eauto.
Qed.

Lemma high_cost_In (tally : dict Z) (total : Z) (threshold : float64)
  out f p :
  high_cost tally total threshold = Ok out ->
  In (f, p) out <-> Reported tally total threshold f p.
Proof.
  intros H. apply high_cost_rows in H. destruct H as (rows & Hrows & ->).
  rewrite filter_In. cbn [snd]. rewrite (window_rows_In _ _ _ _ _ Hrows).
  unfold Reported. split.
  - intros [(v & Hin & Hv) Hlt]. eauto.
  - intros (v & Hin & Hv & Hlt). eauto.
Qed.

Lemma high_cost_names (tally : dict Z) (total : Z) (threshold : float64)
  out f :
  high_cost tally total threshold = Ok out ->
  In f (map fst out) -> In f (keys (firstn 20 (sorted_desc snd tally))).
Proof.
  intros H Hin. apply in_map_iff in Hin. destruct Hin as ([g p] & <- & Hin).
  apply (high_cost_In _ _ _ _ _ _ H) in Hin.
  destruct Hin as (v & Hin & _). unfold keys.
  apply in_map_iff. now exists (g, v).
Qed.

Lemma high_cost_returns (tally : dict Z) (total : Z) (threshold : float64) :
  total <> 0 ->
  (forall f v, In (f, v) tally -> Z.abs v <= Z.abs total * 2 ^ 970) ->
  exists out, high_cost tally total threshold = Ok out.
Proof.
  intros Ht Hb.
  assert (exists rows, window_rows tally total rows) as [rows Hrows].
  { unfold window_rows.
    assert (forall x, In x (firstn 20 (sorted_desc snd tally)) ->
                      In x tally) as Hsub.
    { intros x Hx. apply (sorted_desc_In snd).
      rewrite <- (firstn_skipn 20 (sorted_desc snd tally)).
      apply in_or_app. now left. }
    revert Hsub. generalize (firstn 20 (sorted_desc snd tally)).
    intros l. induction l as [|[f v] l IH]; intros Hsub.
    - exists []. constructor.
    - destruct IH as [rows Hrows]; [intros x Hx; apply Hsub; now right|].
      destruct (percent64_returns v total Ht) as [p Hp].
      { apply (Hb f). apply Hsub. now left. }
      exists ((f, p) :: rows). constructor; auto. }
  eexists. apply high_cost_rows. eauto.
Qed.

Lemma beyond_window (d : dict Z) (i : nat) (f : string) (v : Z) :
  NoDup (keys d) -> (20 <= i)%nat -> nth_error d i = Some (f, v) ->
  ~ In f (keys (firstn 20 d)).
Proof.
  intros Hnd Hi Hnth Hin.
  rewrite <- (firstn_skipn 20 d) in Hnd, Hnth.
  unfold keys in *. rewrite map_app in Hnd.
  assert (In f (map fst (skipn 20 d))) as Hin'.
  { rewrite nth_error_app2 in Hnth.
    - apply nth_error_In in Hnth.
      apply in_map_iff. now exists (f, v).
    - rewrite length_firstn. lia. }
  clear Hnth. revert Hnd Hin Hin'.
  generalize (map fst (firstn 20 d)) (map fst (skipn 20 d)).
  intros l1 l2. induction l1 as [|x l1 IH]; simpl; [tauto|].
  intros Hnd [->|Hin] Hin'.
  - inversion Hnd as [|? ? Hx _]; subst. apply Hx.
    apply in_or_app. now right.
  - inversion Hnd; subst. auto.
Qed.

(** C6.  [sorted] puts a tally in decreasing order of weight, items of
    equal weight staying in the order of the tally.  [high_cost] returns
    exactly when the percentage of each of the first twenty items of that
    order is defined, and what it returns is, in that order, the items
    among those twenty whose percentage is above the threshold: an item is
    reported exactly when it is one of the first twenty and its
    percentage, the binary64 number the code computes, is above the
    threshold.  It returns whenever the total is not zero and no weight
    is beyond [2 ^ 970] times the total.  [print_performance_issues] is
    [high_cost] of [inclusive_time] with the threshold 2.0 and of
    [exclusive_time] with the threshold 1.0.  On a parsed file, whenever it
    returns, an item at rank 21 or lower is in neither list; in the file
    [twenty_one_lines] the function of rank 21 has a percentage above both
    thresholds and is not reported.  The comparison is that of the floats:
    a weight of 200000000000000001 in a total of [10 ^ 19] has the
    percentage 2.0 once rounded, and is not above the threshold.  A
    percentage is not defined when the total is zero
    ([ZeroDivisionError]) or when the quotient is beyond the floats
    ([OverflowError]). *)
Theorem high_cost_window :
  (forall tally : dict Z,
      Permutation (sorted_desc snd tally) tally /\
      Descending snd (sorted_desc snd tally) /\
      forall weight, filter (fun x => snd x =? weight) (sorted_desc snd tally) =
                     filter (fun x => snd x =? weight) tally) /\
  (forall (tally : dict Z) (total : Z) (threshold : float64) out,
      (high_cost tally total threshold = Ok out <->
       exists rows, window_rows tally total rows /\
                    out = filter (fun y => float_ltb threshold (snd y)) rows) /\
      (high_cost tally total threshold = Ok out ->
       forall f p, In (f, p) out <-> Reported tally total threshold f p)) /\
  (forall (tally : dict Z) (total : Z) (threshold : float64),
      total <> 0 ->
      (forall f v, In (f, v) tally -> Z.abs v <= Z.abs total * 2 ^ 970) ->
      exists out, high_cost tally total threshold = Ok out) /\
  (forall (st : analyzer) high_inclusive high_exclusive,
      print_performance_issues st = Ok (high_inclusive, high_exclusive) <->
      high_cost (inclusive_time st) (total_samples st) (round64 2 1) =
      Ok high_inclusive /\
      high_cost (exclusive_time st) (total_samples st) (round64 1 1) =
      Ok high_exclusive) /\
  (forall (lines : list string) high_inclusive high_exclusive,
      let st := parse_file init lines in
      print_performance_issues st = Ok (high_inclusive, high_exclusive) ->
      forall (i : nat) f v, (20 <= i)%nat ->
        (nth_error (sorted_desc snd (inclusive_time st)) i = Some (f, v) ->
         ~ In f (map fst high_inclusive)) /\
        (nth_error (sorted_desc snd (exclusive_time st)) i = Some (f, v) ->
         ~ In f (map fst high_exclusive))) /\
  (let st := parse_file init twenty_one_lines in
   nth_error (sorted_desc snd (inclusive_time st)) 20 = Some ("f21", 1) /\
   nth_error (sorted_desc snd (exclusive_time st)) 20 = Some ("f21", 1) /\
   exists p high_inclusive high_exclusive,
     percent64 1 (total_samples st) = Ok p /\
     float_ltb (round64 2 1) p = true /\
     print_performance_issues st = Ok (high_inclusive, high_exclusive) /\
     List.length high_inclusive = 20%nat /\
     List.length high_exclusive = 20%nat /\
     ~ In "f21" (map fst high_inclusive) /\
     ~ In "f21" (map fst high_exclusive)) /\
  (exists p,
     percent64 200000000000000001 (10 ^ 19) = Ok p /\
     float_ltb (round64 2 1) p = false /\
     float_ltb p (round64 2 1) = false) /\
  percent64 (10 ^ 400) 1 = Raise OverflowError /\
  percent64 1 0 = Raise ZeroDivisionError.
Proof.
  split; [|split; [|split; [|split; [|split; [|split; [|split]]]]]].
  - intros tally. split; [apply sorted_desc_perm|].
    split; [apply sorted_desc_sorted|].
    intros weight. apply sorted_desc_stable.
  - intros tally total threshold out.
    split; [apply high_cost_rows|].
    intros H f p. now apply high_cost_In.
  - apply high_cost_returns.
  - intros st hi he. unfold print_performance_issues.
    destruct (high_cost (inclusive_time st) _ _) as [hi'|e1]; cbn [bind].
    + destruct (high_cost (exclusive_time st) _ _) as [he'|e2]; cbn [bind].
      * split.
        -- intros H. injection H as <- <-. auto.
        -- intros [H1 H2]. injection H1 as <-. injection H2 as <-.
           reflexivity.
      * split; [discriminate|intros [_ H]; discriminate].
    + split; [discriminate|intros [H _]; discriminate].
  - intros lines hi he. cbv zeta.
    destruct (well_formed_parse_file lines) as (Hinc & Hexc & _).
    set (st := parse_file init lines) in *.
    unfold print_performance_issues.
    destruct (high_cost (inclusive_time st) _ _) as [hi'|] eqn:Ei;
      cbn [bind]; [|discriminate].
    destruct (high_cost (exclusive_time st) _ _) as [he'|] eqn:Ee;
      cbn [bind]; [|discriminate].
    intros H. injection H as <- <-. intros i f v Hi. split.
    + intros Hnth Hin. apply (high_cost_names _ _ _ _ _ Ei) in Hin.
      revert Hin. apply (beyond_window _ i f v); auto.
      now apply sorted_desc_keys.
    + intros Hnth Hin. apply (high_cost_names _ _ _ _ _ Ee) in Hin.
      revert Hin. apply (beyond_window _ i f v); auto.
      now apply sorted_desc_keys.
  - cbv zeta. split; [vm_compute; reflexivity|].
    split; [vm_compute; reflexivity|].
    eexists. eexists. eexists.
    split; [vm_compute; reflexivity|].
    split; [vm_compute; reflexivity|].
    split; [vm_compute; reflexivity|].
    split; [vm_compute; reflexivity|].
    split; [vm_compute; reflexivity|].
    split; vm_compute; intros H;
      repeat (destruct H as [H|H]; [discriminate H|]); exact H.
  - eexists. split; [vm_compute; reflexivity|].
    split; vm_compute; reflexivity.
  - split; vm_compute; reflexivity.
Qed.

Lemma high_cost_window_witness :
  exists out,
    high_cost [("a", 3); ("c", 1); ("d", 96)] 100 (round64 2 1) = Ok out.
Proof.
  apply (proj1 (proj2 (proj2 high_cost_window))
           [("a", 3); ("c", 1); ("d", 96)] 100 (round64 2 1)).
  - discriminate.
  - intros f v H. simpl in H.
    repeat (destruct H as [H|H]; [injection H as _ <-; vm_compute; discriminate|]).
    contradiction.
Defined.

(** ** The memory heuristics *)

Lemma memory_stats_In (st : analyzer) (funcs : list string) func m f t :
  In (func, m, f, t) (memory_stats st funcs) <->
  In func funcs /\
  m = Dict.get (malloc_counts st) func 0 /\
  f = Dict.get (free_counts st) func 0 /\
  t = m + f /\ t > 0.
Proof.
  unfold memory_stats. rewrite sorted_desc_In, in_flat_map. split.
  - intros (g & Hg & Hin).
    destruct (_ >? 0) eqn:E; [|contradiction].
    destruct Hin as [H|[]]. injection H as -> <- <- <-.
    apply Z.gtb_lt in E. repeat split; auto. lia.
  - intros (Hin & -> & -> & -> & Ht). exists func. split; auto.
    destruct (_ >? 0) eqn:E.
    + now left.
    + lia.
Qed.

Lemma leak_candidates_In (stats : list mem_stat) func malloc free diff :
  In (func, malloc, free, diff) (leak_candidates stats) <->
  (exists total, In (func, malloc, free, total) stats) /\
  malloc > 0 /\ free > 0 /\ malloc > 2 * free /\ malloc - free > 10 /\
  diff = malloc - free.
Proof.
  unfold leak_candidates. rewrite sorted_desc_In, in_flat_map. split.
  - intros ([[[g m] f] t] & Hin & H).
    destruct ((m >? 0) && (f >? 0)) eqn:E1; [|contradiction].
    destruct ((m >? f * 2) && (m - f >? 10)) eqn:E2; [|contradiction].
    destruct H as [H|[]]. injection H as -> -> -> <-.
    apply andb_true_iff in E1, E2. destruct E1 as [A B], E2 as [C D].
    apply Z.gtb_lt in A, B, C, D.
    split; [now exists t|]. repeat split; lia.
  - intros ((t & Hin) & A & B & C & D & ->).
    exists (func, malloc, free, t). split; auto.
    assert ((malloc >? 0) && (free >? 0) = true) as ->.
    { apply andb_true_iff. split; apply Z.gtb_lt; lia. }
    assert ((malloc >? free * 2) && (malloc - free >? 10) = true) as ->.
    { apply andb_true_iff. split; apply Z.gtb_lt; lia. }
    now left.
Qed.

Lemma no_member_nil {A} (l : list A) : (forall x, ~ In x l) -> l = [].
Proof.
  destruct l as [|x l]; auto. intros H. exfalso. apply (H x). now left.
Qed.

(** After [parse_file] no name is counted both as an allocation and as a
    release. *)
Lemma counted_once (lines : list string) (func : string) :
  let st := parse_file init lines in
  Dict.get (malloc_counts st) func 0 = 0 \/
  Dict.get (free_counts st) func 0 = 0.
Proof.
  cbv zeta.
  destruct (well_formed_parse_file lines) as (_ & _ & _ & _ & _ & _ & Hm & Hf).
  destruct (in_dec string_dec func (keys (malloc_counts (parse_file init lines))))
    as [Hin|Hnin].
  - right. apply get_absent. intros Hin'.
    apply Hm in Hin. apply Hf in Hin'. congruence.
  - left. now apply get_absent.
Qed.

(** So on the tallies of a parsed file the list of leak candidates is
    always empty. *)
Lemma parsed_file_has_no_leak_candidate (lines funcs : list string) :
  leak_candidates (memory_stats (parse_file init lines) funcs) = [].
Proof.
  apply no_member_nil. intros [[[func m] f] d] Hin.
  apply leak_candidates_In in Hin.
  destruct Hin as ((t & Hin) & A & B & _).
  apply memory_stats_In in Hin. destruct Hin as (_ & -> & -> & _).
  destruct (counted_once lines func) as [H|H]; cbv zeta in H; lia.
Qed.

Lemma print_memory_analysis_ok (st : analyzer) (funcs : list string) r :
  print_memory_analysis st funcs = Ok r ->
  map fst (mr_leaks r) =
    firstn 10 (leak_candidates (memory_stats st funcs)) /\
  match memory_stats st funcs with
  | [] => mr_ratio r = None
  | _ => memory_ratio (Dict.total (malloc_counts st))
                      (Dict.total (free_counts st)) = Ok (mr_ratio r)
  end.
Proof.
  unfold print_memory_analysis.
  destruct (memory_stats st funcs) as [|s0 stats] eqn:E.
  - intros H. injection H as <-. split; reflexivity.
  - destruct (percentage (Dict.total (malloc_counts st)) (total_samples st));
      cbn [bind]; [|discriminate].
    destruct (percentage (Dict.total (free_counts st)) (total_samples st));
      cbn [bind]; [|discriminate].
    destruct (memory_ratio _ _) as [ratio|e]; cbn [bind]; [|discriminate].
    intros H. injection H as <-. cbn [mr_leaks mr_ratio]. split; auto.
    change 10 with (Z.of_nat 10). rewrite slice_to_nat, map_map.
    rewrite <- (map_id (firstn 10 _)) at 2.
    apply map_ext. now intros [[[func m] f] d].
Qed.

(** C7.  An entry is among the leak candidates exactly when its
    allocation count and its free count are both positive, the first is
    more than twice the second and exceeds it by more than 10; the
    candidates are in decreasing order of that difference, and the report
    prints the first ten of them.  For a name the report looks at, with the
    counts read from [malloc_counts] and [free_counts], this is the
    condition under which it is a candidate.  A leaf with 100 allocations
    and 40 frees is a candidate, one with 15 and 10 is not. *)
Theorem leak_candidates_spec :
  (forall (stats : list mem_stat) func malloc free diff,
      In (func, malloc, free, diff) (leak_candidates stats) <->
      (exists total, In (func, malloc, free, total) stats) /\
      malloc > 0 /\ free > 0 /\ malloc > 2 * free /\ malloc - free > 10 /\
      diff = malloc - free) /\
  (forall stats : list mem_stat,
      Descending (fun '(_, _, _, diff) => diff) (leak_candidates stats)) /\
  (forall (st : analyzer) (funcs : list string) (func : string),
      In func funcs ->
      let malloc := Dict.get (malloc_counts st) func 0 in
      let free := Dict.get (free_counts st) func 0 in
      (exists diff,
          In (func, malloc, free, diff)
             (leak_candidates (memory_stats st funcs))) <->
      malloc > 0 /\ free > 0 /\ malloc > 2 * free /\ malloc - free > 10) /\
  (forall (st : analyzer) (funcs : list string) r,
      print_memory_analysis st funcs = Ok r ->
      map fst (mr_leaks r) =
      firstn 10 (leak_candidates (memory_stats st funcs))) /\
  leak_candidates [("leaf", 100, 40, 140)] = [("leaf", 100, 40, 60)] /\
  leak_candidates [("leaf", 15, 10, 25)] = [].
Proof.
  split; [|split; [|split; [|split; [|split; reflexivity]]]].
  - intros. apply leak_candidates_In.
  - intros stats. apply sorted_desc_sorted.
  - intros st funcs func Hin. cbv zeta. split.
    + intros (diff & H). apply leak_candidates_In in H. tauto.
    + intros (A & B & C & D).
      exists (Dict.get (malloc_counts st) func 0 -
              Dict.get (free_counts st) func 0).
      apply leak_candidates_In. split; [|tauto].
      eexists. apply memory_stats_In.
      split; [exact Hin|]. repeat split; lia.
  - intros st funcs r H. now apply print_memory_analysis_ok in H.
Qed.

Lemma leak_candidates_spec_witness :
  In "leaf" ["leaf"] /\
  exists diff,
    In ("leaf", 100, 40, diff)
       (leak_candidates
          (memory_stats
             (mkAnalyzer [] [] [] [] [] 140 2 2 [("leaf", 100)] [("leaf", 40)] [])
             ["leaf"])).
Proof.
  split; [now left|].
  apply (proj2 (proj1 (proj2 (proj2 leak_candidates_spec))
                  (mkAnalyzer [] [] [] [] [] 140 2 2
                              [("leaf", 100)] [("leaf", 40)] [])
                  ["leaf"] "leaf" (or_introl eq_refl))).
  vm_compute. repeat split.
Defined.

Lemma get_In (d : dict Z) (k : string) (v : Z) :
  NoDup (keys d) -> In (k, v) d -> Dict.get d k 0 = v.
Proof.
  unfold keys. induction d as [|[k' v'] d IH]; simpl; intros Hnd Hin.
  - contradiction.
  - inversion Hnd as [|? ? Hnin Hnd']; subst.
    destruct Hin as [H|H].
    + injection H as -> ->. now rewrite String.eqb_refl.
    + destruct (String.eqb k' k) eqn:E; auto.
      apply String.eqb_eq in E. subst k'.
      exfalso. apply Hnin. apply in_map_iff. now exists (k, v).
Qed.

Lemma total_nonpos (d : dict Z) :
  (forall k v, In (k, v) d -> v <= 0) -> Dict.total d <= 0.
Proof.
  unfold Dict.total, Dict.values.
  induction d as [|[k v] d IH]; simpl; intros H; [lia|].
  pose proof (H k v (or_introl eq_refl)).
  assert (fold_right Z.add 0 (map snd d) <= 0) by (apply IH; eauto).
  lia.
Qed.

(** After [parse_file], a positive total of allocations shows in the
    statistics. *)
Lemma parsed_allocations_listed (lines funcs : list string) :
  let st := parse_file init lines in
  enumerates funcs st ->
  Dict.total (malloc_counts st) > 0 -> memory_stats st funcs <> [].
Proof.
  cbv zeta. intros [_ Henum] Hpos Hnil.
  destruct (well_formed_parse_file lines) as (_ & _ & _ & _ & Hnd & _).
  set (st := parse_file init lines) in *.
  assert (Dict.total (malloc_counts st) <= 0); [|lia].
  apply total_nonpos. intros k v Hin.
  destruct (Z_le_gt_dec v 0) as [|Hv]; auto. exfalso.
  pose proof (get_In _ _ _ Hnd Hin) as Hget.
  assert (In k funcs) as Hk.
  { apply Henum. left. apply in_map_iff. now exists (k, v). }
  assert (In (k, v, 0, v) (memory_stats st funcs)) as Hin'.
  { apply memory_stats_In. split; [exact Hk|].
    destruct (counted_once lines k) as [H|H]; cbv zeta in H;
      fold st in H; repeat split; lia. }
  rewrite Hnil in Hin'. contradiction.
Qed.

Lemma float_ltb_scale (m1 e1 m2 e2 k : Z) :
  k <= e1 -> k <= e2 ->
  float_ltb (Finite m1 e1) (Finite m2 e2) =
  (m1 * 2 ^ (e1 - k) <? m2 * 2 ^ (e2 - k)).
Proof.
  intros H1 H2. cbn [float_ltb]. set (e := Z.min e1 e2).
  assert (0 < 2 ^ (e - k)) as Hp by (apply Z.pow_pos_nonneg; lia).
  replace (e1 - k) with (e1 - e + (e - k)) by lia.
  replace (e2 - k) with (e2 - e + (e - k)) by lia.
  rewrite !Z.pow_add_r by lia.
  set (P := 2 ^ (e - k)) in *.
  set (a := m1 * 2 ^ (e1 - e)). set (b := m2 * 2 ^ (e2 - e)).
  rewrite !Z.mul_assoc. fold a b.
  destruct (a <? b) eqn:E; symmetry.
  - apply Z.ltb_lt in E. apply Z.ltb_lt. nia.
  - apply Z.ltb_ge in E. apply Z.ltb_ge. nia.
Qed.

(** [<] on the finite floats is transitive and has no cycle. *)
Lemma float_ltb_trans (x : float64) (m1 e1 m2 e2 : Z) :
  float_ltb (Finite m1 e1) (Finite m2 e2) = true ->
  float_ltb x (Finite m1 e1) = true ->
  float_ltb x (Finite m2 e2) = true.
Proof.
  destruct x as [m e| |]; [|discriminate|reflexivity].
  set (k := Z.min e (Z.min e1 e2)).
  rewrite (float_ltb_scale m1 e1 m2 e2 k) by lia.
  rewrite (float_ltb_scale m e m1 e1 k) by lia.
  rewrite (float_ltb_scale m e m2 e2 k) by lia.
  rewrite !Z.ltb_lt. lia.
Qed.

Lemma float_ltb_asym (x y : float64) :
  float_ltb x y = true -> float_ltb y x = false.
Proof.
  destruct x as [m1 e1| |], y as [m2 e2| |]; try reflexivity;
    try discriminate.
  rewrite (float_ltb_scale m1 e1 m2 e2 (Z.min e1 e2)) by lia.
  rewrite (float_ltb_scale m2 e2 m1 e1 (Z.min e1 e2)) by lia.
  rewrite Z.ltb_lt, Z.ltb_ge. lia.
Qed.

(** A ratio above 1.2 is not below 0.8. *)
Lemma above_is_not_below (ratio : float64) :
  float_ltb (round64 12 10) ratio = true ->
  float_ltb ratio (round64 8 10) = false.
Proof.
  intros H. destruct (float_ltb ratio (round64 8 10)) eqn:E; auto.
  assert (float_ltb ratio (round64 12 10) = true) as H'.
  { revert E. apply float_ltb_trans. vm_compute. reflexivity. }
  apply float_ltb_asym in H'. congruence.
Qed.

Lemma memory_ratio_spec (total_malloc total_free : Z)
  (r : option (float64 * ratio_class)) :
  memory_ratio total_malloc total_free = Ok r ->
  match r with
  | None => total_malloc <= 0
  | Some (ratio, cls) =>
      total_malloc > 0 /\
      truediv64 total_free total_malloc = Ok ratio /\
      (cls = LeakRisk <-> float_ltb ratio (round64 8 10) = true) /\
      (cls = CacheOrSkew <-> float_ltb (round64 12 10) ratio = true) /\
      (cls = Neutral <-> float_ltb ratio (round64 8 10) = false /\
                         float_ltb (round64 12 10) ratio = false)
  end.
Proof.
  unfold memory_ratio. destruct (total_malloc >? 0) eqn:Epos.
  - apply Z.gtb_lt in Epos.
    destruct (truediv64 total_free total_malloc) as [ratio|e]; cbn [bind];
      [|discriminate].
    pose proof (above_is_not_below ratio) as Hab.
    destruct (float_ltb ratio (round64 8 10)) eqn:E1;
      [|destruct (float_ltb (round64 12 10) ratio) eqn:E2];
      intros H; injection H as <-;
      (split; [lia|]); (split; [reflexivity|]);
      (split; [|split]); split; try congruence; try tauto;
      intros; try (specialize (Hab ltac:(assumption))); try congruence;
      try (match goal with H : _ /\ _ |- _ => destruct H end; congruence).
  - intros H. injection H as <-. lia.
Qed.

Lemma unguarded_totals_raise (st : analyzer) (funcs : list string) :
  memory_stats st funcs <> [] -> total_samples st = 0 ->
  print_memory_analysis st funcs = Raise ZeroDivisionError.
Proof.
  intros Hne Hz. unfold print_memory_analysis.
  destruct (memory_stats st funcs); [contradiction|].
  rewrite Hz. reflexivity.
Qed.

(** C8.  Lines 236-242 produce a ratio exactly when the total of
    allocations is positive: the ratio is the float quotient of the total
    of frees by it, its class is "leak risk" exactly when the ratio is
    below 0.8, "cache release or sampling skew" exactly when it is above
    1.2, and no message otherwise; the comparison is that of the floats,
    so that the totals [10 ^ 17] and [8 * 10 ^ 16 - 1], whose quotient
    rounds to 0.8, give no message.  A memory report that is printed
    carries exactly this.  But the report reaches these lines only past
    the percentages of lines 234-235, which divide by the total sample
    weight without the guard of lines 225-227: on a parsed file whose
    total of allocations is positive and whose total sample weight is
    zero (the counts and their total being integers that lines 224-234
    can print), [print_memory_analysis] raises [ZeroDivisionError] and
    neither ratio nor class is printed.  The file made of the lines
    [malloc;5] and [x;-5] is such a file: its total of allocations is 5,
    its total of frees 0, its class would be "leak risk". *)
Theorem memory_ratio_unreached :
  (forall (total_malloc total_free : Z) r,
      memory_ratio total_malloc total_free = Ok r ->
      match r with
      | None => total_malloc <= 0
      | Some (ratio, cls) =>
          total_malloc > 0 /\
          truediv64 total_free total_malloc = Ok ratio /\
          (cls = LeakRisk <-> float_ltb ratio (round64 8 10) = true) /\
          (cls = CacheOrSkew <-> float_ltb (round64 12 10) ratio = true) /\
          (cls = Neutral <-> float_ltb ratio (round64 8 10) = false /\
                             float_ltb (round64 12 10) ratio = false)
      end) /\
  (forall (st : analyzer) (funcs : list string) r,
      print_memory_analysis st funcs = Ok r ->
      memory_stats st funcs <> [] ->
      memory_ratio (Dict.total (malloc_counts st))
                   (Dict.total (free_counts st)) = Ok (mr_ratio r)) /\
  (forall lines funcs : list string,
      let st := parse_file init lines in
      enumerates funcs st ->
      (forall f v, In (f, v) (malloc_counts st) \/ In (f, v) (free_counts st) ->
                   printable v) ->
      printable (Dict.total (malloc_counts st)) ->
      Dict.total (malloc_counts st) > 0 ->
      total_samples st = 0 ->
      print_memory_analysis st funcs = Raise ZeroDivisionError) /\
  (let st := parse_file init ["malloc;5"; "x;-5"] in
   Dict.total (malloc_counts st) = 5 /\
   Dict.total (free_counts st) = 0 /\
   total_samples st = 0 /\
   memory_ratio 5 0 = Ok (Some (Finite 0 0, LeakRisk)) /\
   print_memory_analysis st (all_memory_funcs st) =
   Raise ZeroDivisionError) /\
  (exists r7 r8 r12 r13 r,
      memory_ratio 10 7 = Ok (Some (r7, LeakRisk)) /\
      memory_ratio 10 8 = Ok (Some (r8, Neutral)) /\
      memory_ratio 10 12 = Ok (Some (r12, Neutral)) /\
      memory_ratio 10 13 = Ok (Some (r13, CacheOrSkew)) /\
      memory_ratio (10 ^ 17) (8 * 10 ^ 16 - 1) = Ok (Some (r, Neutral)) /\
      memory_ratio 0 13 = Ok None).
Proof.
  split; [|split; [|split; [|split]]].
  - apply memory_ratio_spec.
  - intros st funcs r H Hne. apply print_memory_analysis_ok in H.
    destruct H as [_ H].
    destruct (memory_stats st funcs); [contradiction|exact H].
  - intros lines funcs. cbv zeta. intros Henum _ _ Hpos Hz.
    apply unguarded_totals_raise; [|exact Hz].
    now apply parsed_allocations_listed.
  - vm_compute. repeat split.
  - do 5 eexists. vm_compute. repeat split.
Qed.

Lemma memory_ratio_unreached_witness :
  print_memory_analysis (parse_file init ["malloc;5"; "x;-5"]) ["malloc"] =
  Raise ZeroDivisionError.
Proof.
  apply (proj1 (proj2 (proj2 memory_ratio_unreached))
           ["malloc;5"; "x;-5"] ["malloc"]).
  - split.
    + repeat constructor. simpl. tauto.
    + intros f. vm_compute. tauto.
  - intros f v H. vm_compute in H.
    destruct H as [[H|[]]|[]]. injection H as _ <-.
    unfold printable. apply Z.ltb_lt. vm_compute. reflexivity.
  - unfold printable. apply Z.ltb_lt. vm_compute. reflexivity.
  - vm_compute. reflexivity.
  - vm_compute. reflexivity.
Defined.

(** ** Percentages of a zero total *)

Lemma samples_In (lines : list string) (s : list string * Z) :
  In s (samples lines) <-> exists raw, In raw lines /\ parse_line raw = Some s.
Proof.
  unfold samples. rewrite in_flat_map. split.
  - intros (raw & Hin & H). exists raw. split; auto.
    destruct (parse_line raw) as [s'|]; [|contradiction].
    destruct H as [->|[]]. reflexivity.
  - intros (raw & Hin & H). exists raw. split; auto.
    rewrite H. now left.
Qed.

Lemma inclusive_time_not_nil (lines : list string) :
  samples lines <> [] -> inclusive_time (parse_file init lines) <> [].
Proof.
  intros Hs.
  destruct (parse_file_fields init lines) as (-> & _).
  destruct (samples lines) as [|[stack w] rest] eqn:E; [contradiction|].
  assert (In (stack, w) (samples lines)) as Hin by (rewrite E; now left).
  pose proof Hin as Hin'. apply samples_In in Hin'.
  destruct Hin' as (raw & _ & Hp). apply parse_line_not_nil in Hp.
  destruct stack as [|f stack]; [contradiction|].
  destruct (scan_inclusive lines init) as (_ & _ & I3).
  assert (In f (keys (inclusive_time (scan init lines)))) as Hk.
  { apply I3. right. exists (f :: stack), w. split; [exact Hin|now left]. }
  intros Hnil. rewrite Hnil in Hk. contradiction.
Qed.

Lemma ranking_raises (tally : dict Z) (top_n : Z) :
  tally <> [] -> top_n > 0 ->
  ranking tally 0 top_n = Raise ZeroDivisionError.
Proof.
  intros Ht Hn. unfold ranking. apply for_each_raise.
  - assert (sorted_desc snd tally <> []) as Hs.
    { intros H. pose proof (sorted_desc_perm snd tally) as P.
      rewrite H in P. apply Permutation_nil in P. contradiction. }
    destruct (sorted_desc snd tally) as [|x l]; [contradiction|].
    unfold slice_to, enumerate1.
    assert ((top_n <? 0) = false) as -> by lia.
    destruct (Z.to_nat top_n) as [|n] eqn:E; [lia|]. simpl. discriminate.
  - now intros [i [func v]] _.
Qed.

Lemma ranking_returns (tally : dict Z) (total top_n : Z) :
  total <> 0 -> exists rows, ranking tally total top_n = Ok rows.
Proof.
  intros H. unfold ranking. eexists.
  apply (for_each_ok _ (fun '(i, (func, v)) =>
           (i, func, v, (inject_Z v / inject_Z total * 100)%Q))).
  intros [i [func v]] _. now rewrite percentage_ok.
Qed.

(** Every file with an accepted line and a total weight of zero makes the
    first ranking, and with it the whole report, raise. *)
Lemma zero_total_report_raises (lines funcs : list string) :
  samples lines <> [] -> total_weight lines = 0 ->
  let st := parse_file init lines in
  print_inclusive_time_top st 20 = Raise ZeroDivisionError /\
  generate_report st funcs = Raise ZeroDivisionError.
Proof.
  intros Hs Hw. cbv zeta.
  assert (print_inclusive_time_top (parse_file init lines) 20 =
          Raise ZeroDivisionError) as H.
  { unfold print_inclusive_time_top.
    destruct (parse_file_fields init lines) as (_ & _ & _ & _ & Ht & _).
    destruct (scan_totals lines init) as (Hts & _).
    rewrite Ht, Hts, Hw. simpl (total_samples init + 0).
    apply ranking_raises; [|lia].
    now apply inclusive_time_not_nil. }
  split; [exact H|]. unfold generate_report. now rewrite H.
Qed.

(** C2, on the code.  The file whose only line is [a;0] has one accepted
    line and a total sample weight of zero: the rankings, the category
    table, the outlier view and so the whole report raise
    [ZeroDivisionError].  On the file [malloc;5], [x;-5] the memory section
    raises it too, at the percentage of the total of allocations, right
    after the rows whose percentages are guarded.  The empty file raises
    nothing. *)
Theorem zero_total_raises :
  (let st := parse_file init ["a;0"] in
   parsed_lines st = 1 /\ total_samples st = 0 /\
   print_inclusive_time_top st 20 = Raise ZeroDivisionError /\
   print_exclusive_time_top st 20 = Raise ZeroDivisionError /\
   print_leaf_functions_top st 30 = Raise ZeroDivisionError /\
   print_category_analysis st = Raise ZeroDivisionError /\
   print_performance_issues st = Raise ZeroDivisionError /\
   generate_report st (all_memory_funcs st) = Raise ZeroDivisionError) /\
  (let st := parse_file init ["malloc;5"; "x;-5"] in
   parsed_lines st = 2 /\ total_samples st = 0 /\
   memory_stats st (all_memory_funcs st) = [("malloc", 5, 0, 5)] /\
   guarded_percentage 5 (total_samples st) = 0%Q /\
   print_memory_analysis st (all_memory_funcs st) = Raise ZeroDivisionError) /\
  (exists r, generate_report (parse_file init []) [] = Ok r).
Proof.
  split; [|split].
  - vm_compute. repeat split.
  - vm_compute. repeat split.
  - eexists. vm_compute. reflexivity.
Qed.

(* ================================================================== *)
(** * Further properties of the analyzer *)

(** ** The parse loop, line by line *)

Lemma process_line_accept (st : analyzer) (raw : string) stack w :
  parse_line raw = Some (stack, w) ->
  process_line st raw =
  {| inclusive_time := count_inclusive stack w (inclusive_time st);
     exclusive_time := Dict.add (last stack "") w (exclusive_time st);
     call_relations := record_calls stack (call_relations st);
     leaf_counts := Dict.add (last stack "") w (leaf_counts st);
     func_counts := count_funcs stack w (func_counts st);
     total_samples := total_samples st + w;
     parsed_lines := parsed_lines st + 1;
     line_count := line_count st + 1;
     malloc_counts :=
       if is_alloc_name (last stack "")
       then Dict.add (last stack "") w (malloc_counts st)
       else malloc_counts st;
     free_counts :=
       if is_free_name (last stack "")
       then Dict.add (last stack "") w (free_counts st)
       else free_counts st;
     category_counts := category_counts st |}.
Proof.
  intros E. rewrite (process_line_sample _ _ _ _ E).
  rewrite aggregate_not_nil by (eapply parse_line_not_nil; eauto).
  reflexivity.
Qed.

Lemma samples_app (l1 l2 : list string) :
  samples (l1 ++ l2) = (samples l1 ++ samples l2)%list.
Proof. unfold samples. apply flat_map_app. Qed.

Lemma scan_app (st : analyzer) (l1 l2 : list string) :
  scan st (l1 ++ l2) = scan (scan st l1) l2.
Proof. unfold scan. apply fold_left_app. Qed.

Lemma parse_line_blank (raw : string) :
  parse_line raw = None <-> Py.strip raw = "".
Proof.
  unfold parse_line. destruct (String.eqb (Py.strip raw) "") eqn:E.
  - apply String.eqb_eq in E. tauto.
  - apply String.eqb_neq in E.
    destruct (split_weight (Py.strip raw)). split; [discriminate|tauto].
Qed.

Lemma scan_counters (lines : list string) (st : analyzer) :
  line_count (scan st lines) =
    line_count st + Z.of_nat (List.length lines) /\
  parsed_lines (scan st lines) =
    parsed_lines st + Z.of_nat (List.length (samples lines)) /\
  List.length lines =
    (List.length (samples lines) + List.length (blank_lines lines))%nat.
Proof.
  unfold scan, blank_lines. revert st.
  induction lines as [|raw lines IH]; intros st.
  - simpl. repeat split; lia.
  - cbn [fold_left filter]. rewrite samples_cons.
    destruct (IH (process_line st raw)) as (I1 & I2 & I3).
    rewrite I1, I2. clear IH I1 I2.
    destruct (parse_line raw) as [[stack w]|] eqn:E.
    + rewrite (process_line_accept _ _ _ _ E). cbn [line_count parsed_lines].
      assert (String.eqb (Py.strip raw) "" = false) as ->.
      { apply String.eqb_neq. intros H. apply parse_line_blank in H.
        congruence. }
      cbn [List.length]. repeat split; lia.
    + rewrite (process_line_skip _ _ E). cbn [count_line line_count parsed_lines].
      apply parse_line_blank in E. rewrite E. cbn [String.eqb List.length].
      repeat split; lia.
Qed.

(** X1.  After [parse_file] on a fresh analyzer and a file of ASCII
    lines, [line_count] is the number of lines of the file, [parsed_lines]
    the number of Samples, and their difference the number of lines that
    are blank once stripped: no other line is ever dropped. *)
Theorem counters_account_for_every_line (lines : list string) :
  Forall (fun raw => ascii_text raw = true) lines ->
  let st := parse_file init lines in
  line_count st = Z.of_nat (List.length lines) /\
  parsed_lines st = Z.of_nat (List.length (samples lines)) /\
  line_count st - parsed_lines st =
    Z.of_nat (List.length (blank_lines lines)) /\
  0 <= parsed_lines st <= line_count st.
Proof.
  intros _. cbv zeta. unfold parse_file. fold (scan init lines).
  cbn [set_category_counts line_count parsed_lines].
  destruct (scan_counters lines init) as (-> & -> & H).
  cbn [init line_count parsed_lines]. repeat split; lia.
Qed.

Lemma counters_account_for_every_line_witness :
  let st := parse_file init ["a;b;3"; "   "; ""; "c 4"; "d"] in
  line_count st = 5 /\ parsed_lines st = 3 /\
  blank_lines ["a;b;3"; "   "; ""; "c 4"; "d"] = ["   "; ""].
Proof.
  destruct (counters_account_for_every_line
              ["a;b;3"; "   "; ""; "c 4"; "d"]
              ltac:(repeat constructor)) as (H1 & H2 & _).
  cbv zeta. rewrite H1, H2. vm_compute. repeat split.
Defined.

(** ** The tallies of a whole file *)

Lemma get_count_funcs_all (stack : list string) (w : Z) (fc : dict Z) f :
  Dict.get (count_funcs stack w fc) f 0 =
  Dict.get fc f 0 + (if String.eqb f "" then 0 else occurrences f stack * w).
Proof.
  destruct (String.eqb f "") eqn:E.
  - apply String.eqb_eq in E. subst f.
    unfold count_funcs. revert fc.
    induction stack as [|x stack IH]; intros fc; simpl; [lia|].
    rewrite IH. destruct (String.eqb x "") eqn:Ex; [lia|].
    rewrite get_add. rewrite Ex. lia.
  - apply String.eqb_neq in E. now apply get_count_funcs.
Qed.

Lemma bucket_share_add (cat k : string) (w : Z) (d : dict Z) :
  bucket_share cat (Dict.add k w d) =
  bucket_share cat d + (if String.eqb (category_of k) cat then w else 0).
Proof.
  unfold bucket_share, Dict.add.
  induction d as [|[k' v] d IH]; simpl.
  - destruct (String.eqb (category_of k) cat); simpl; lia.
  - destruct (String.eqb k' k) eqn:E; simpl.
    + apply String.eqb_eq in E. subst k'.
      destruct (String.eqb (category_of k) cat); simpl; lia.
    + destruct (String.eqb (category_of k') cat); simpl; rewrite IH; lia.
Qed.

Lemma bucket_share_count_funcs (cat : string) (stack : list string) (w : Z)
    (fc : dict Z) :
  bucket_share cat (count_funcs stack w fc) =
  bucket_share cat fc + w * bucket_frames cat stack.
Proof.
  unfold count_funcs, bucket_frames, named_frames. revert fc.
  induction stack as [|x stack IH]; intros fc; simpl; [lia|].
  rewrite IH. destruct (String.eqb x "") eqn:E; simpl; [lia|].
  rewrite bucket_share_add.
  destruct (String.eqb (category_of x) cat); simpl List.length; lia.
Qed.

Lemma weight_where_cons (chosen : list string -> bool) raw lines :
  weight_where chosen (raw :: lines) =
  match parse_line raw with
  | Some (stack, w) => if chosen stack then w else 0
  | None => 0
  end + weight_where chosen lines.
Proof.
  unfold weight_where. rewrite samples_cons.
  destruct (parse_line raw) as [[stack w]|]; simpl; [|lia].
  destruct (chosen stack); simpl; lia.
Qed.

(** What the loop adds to each entry, whatever the analyzer held. *)
Lemma scan_entries (lines : list string) (st : analyzer) (f : string) :
  let st' := scan st lines in
  Dict.get (inclusive_time st') f 0 =
    Dict.get (inclusive_time st) f 0 + occurrence_weight_of f lines /\
  Dict.get (func_counts st') f 0 =
    Dict.get (func_counts st) f 0 +
    (if String.eqb f "" then 0 else occurrence_weight_of f lines) /\
  Dict.get (exclusive_time st') f 0 =
    Dict.get (exclusive_time st) f 0 +
    weight_where (fun stack => String.eqb (last stack "") f) lines /\
  Dict.get (leaf_counts st') f 0 =
    Dict.get (leaf_counts st) f 0 +
    weight_where (fun stack => String.eqb (last stack "") f) lines /\
  Dict.get (malloc_counts st') f 0 =
    Dict.get (malloc_counts st) f 0 +
    weight_where (fun stack => is_alloc_name (last stack "") &&
                               String.eqb (last stack "") f) lines /\
  Dict.get (free_counts st') f 0 =
    Dict.get (free_counts st) f 0 +
    weight_where (fun stack => is_free_name (last stack "") &&
                               String.eqb (last stack "") f) lines /\
  forall cat,
    bucket_share cat (func_counts st') =
    bucket_share cat (func_counts st) + bucket_weight cat lines.
Proof.
  cbv zeta. unfold scan, occurrence_weight_of, bucket_weight. revert st.
  induction lines as [|raw lines IH]; intros st.
  - unfold weight_where. simpl.
    destruct (String.eqb f ""); repeat split; intros; lia.
  - cbn [fold_left]. rewrite !weight_where_cons, samples_cons.
    destruct (IH (process_line st raw)) as (I1 & I2 & I3 & I4 & I5 & I6 & I7).
    rewrite I1, I2, I3, I4, I5, I6. clear IH I1 I2 I3 I4 I5 I6.
    destruct (parse_line raw) as [[stack w]|] eqn:E.
    + rewrite (process_line_accept _ _ _ _ E) in *.
      cbn [inclusive_time func_counts exclusive_time leaf_counts
           malloc_counts free_counts] in *.
      rewrite get_count_inclusive, get_count_funcs_all, !get_add.
      cbn [map fold_right].
      assert (Dict.get (if is_alloc_name (last stack "")
                        then Dict.add (last stack "") w (malloc_counts st)
                        else malloc_counts st) f 0 =
              Dict.get (malloc_counts st) f 0 +
              (if is_alloc_name (last stack "") &&
                  String.eqb (last stack "") f then w else 0)) as ->.
      { destruct (is_alloc_name (last stack "")); simpl; [|lia].
        apply get_add. }
      assert (Dict.get (if is_free_name (last stack "")
                        then Dict.add (last stack "") w (free_counts st)
                        else free_counts st) f 0 =
              Dict.get (free_counts st) f 0 +
              (if is_free_name (last stack "") &&
                  String.eqb (last stack "") f then w else 0)) as ->.
      { destruct (is_free_name (last stack "")); simpl; [|lia].
        apply get_add. }
      destruct (String.eqb f "");
        (split; [lia|]); (split; [lia|]); (split; [lia|]);
        (split; [lia|]); (split; [lia|]); (split; [lia|]);
        intros cat; rewrite I7, bucket_share_count_funcs; lia.
    + rewrite (process_line_skip _ _ E) in *.
      cbn [count_line inclusive_time func_counts exclusive_time leaf_counts
           malloc_counts free_counts] in *.
      destruct (String.eqb f "");
        (split; [lia|]); (split; [lia|]); (split; [lia|]);
        (split; [lia|]); (split; [lia|]); (split; [lia|]);
        intros cat; rewrite I7; lia.
Qed.

Lemma parse_file_state (st : analyzer) (lines : list string) :
  let st' := parse_file st lines in
  inclusive_time st' = inclusive_time (scan st lines) /\
  exclusive_time st' = exclusive_time (scan st lines) /\
  leaf_counts st' = leaf_counts (scan st lines) /\
  func_counts st' = func_counts (scan st lines) /\
  malloc_counts st' = malloc_counts (scan st lines) /\
  free_counts st' = free_counts (scan st lines) /\
  call_relations st' = call_relations (scan st lines) /\
  total_samples st' = total_samples (scan st lines).
Proof.
  cbv zeta. unfold parse_file. fold (scan st lines). simpl. repeat split.
Qed.

(** X2.  After [parse_file] on a fresh analyzer, for every name [f]:
    [inclusive_time] holds the weight of every Sample once for each
    occurrence of [f] in its stack; [func_counts] holds the same, except
    that it holds nothing for the empty name; [exclusive_time] and
    [leaf_counts] hold the weight of the Samples whose last frame is [f];
    and every bucket holds the weight of every Sample once for each named
    frame of its stack that the bucket takes. *)
Theorem tallies_of_a_file (lines : list string) (f : string) :
  let st := parse_file init lines in
  Dict.get (inclusive_time st) f 0 = occurrence_weight_of f lines /\
  Dict.get (func_counts st) f 0 =
    (if String.eqb f "" then 0 else occurrence_weight_of f lines) /\
  Dict.get (exclusive_time st) f 0 =
    weight_where (fun stack => String.eqb (last stack "") f) lines /\
  Dict.get (leaf_counts st) f 0 =
    weight_where (fun stack => String.eqb (last stack "") f) lines /\
  forall cat, Dict.get (category_counts st) cat 0 = bucket_weight cat lines.
Proof.
  cbv zeta.
  destruct (parse_file_fields init lines) as (_ & _ & _ & _ & _ & ->).
  destruct (parse_file_state init lines) as (-> & -> & -> & -> & _).
  destruct (scan_entries lines init f) as (-> & -> & -> & -> & _ & _ & H).
  split; [simpl; lia|]. split; [simpl; lia|].
  split; [simpl; lia|]. split; [simpl; lia|].
  intros cat. rewrite get_categorize, H. reflexivity.
Qed.

(** ** Parsing in two steps *)

(** The entries after [parse_file] on an analyzer that [parse_file] has
    already filled from [l1]. *)
Lemma parse_file_twice (l1 l2 : list string) (f : string) :
  let s1 := parse_file init l1 in
  let s2 := parse_file init l2 in
  let st := parse_file s1 l2 in
  total_samples st = total_samples s1 + total_samples s2 /\
  Dict.get (inclusive_time st) f 0 =
    Dict.get (inclusive_time s1) f 0 + Dict.get (inclusive_time s2) f 0 /\
  Dict.get (func_counts st) f 0 =
    Dict.get (func_counts s1) f 0 + Dict.get (func_counts s2) f 0 /\
  Dict.get (exclusive_time st) f 0 =
    Dict.get (exclusive_time s1) f 0 + Dict.get (exclusive_time s2) f 0 /\
  Dict.get (leaf_counts st) f 0 =
    Dict.get (leaf_counts s1) f 0 + Dict.get (leaf_counts s2) f 0 /\
  Dict.get (malloc_counts st) f 0 =
    Dict.get (malloc_counts s1) f 0 + Dict.get (malloc_counts s2) f 0 /\
  Dict.get (free_counts st) f 0 =
    Dict.get (free_counts s1) f 0 + Dict.get (free_counts s2) f 0 /\
  forall cat,
    Dict.get (category_counts st) cat 0 =
    2 * Dict.get (category_counts s1) cat 0 +
    Dict.get (category_counts s2) cat 0.
Proof.
  cbv zeta.
  destruct (parse_file_fields (parse_file init l1) l2)
    as (_ & _ & _ & _ & _ & Hc).
  destruct (parse_file_fields init l2) as (_ & _ & _ & _ & _ & Hc2).
  destruct (parse_file_fields init l1) as (_ & _ & _ & _ & _ & Hc1).
  destruct (parse_file_state (parse_file init l1) l2)
    as (-> & -> & -> & -> & -> & -> & _ & ->).
  destruct (parse_file_state init l2)
    as (-> & -> & -> & -> & -> & -> & _ & ->).
  destruct (scan_entries l2 (parse_file init l1) f)
    as (-> & -> & -> & -> & -> & -> & H).
  destruct (scan_entries l2 init f) as (-> & -> & -> & -> & -> & -> & H2).
  destruct (scan_totals l2 (parse_file init l1)) as (-> & _).
  destruct (scan_totals l2 init) as (-> & _).
  cbn [init inclusive_time func_counts exclusive_time leaf_counts
       malloc_counts free_counts total_samples Dict.get].
  repeat (split; [rewrite ?Z.add_0_l; reflexivity|]).
  intros cat. rewrite Hc, Hc2, Hc1, !get_categorize, H, H2.
  destruct (parse_file_state init l1) as (_ & _ & _ & -> & _).
  cbn [init category_counts func_counts Dict.get].
  change (bucket_share cat []) with 0. lia.
Qed.

(** X3.  The tallies of a file made of two parts are, entry by entry, the
    sums of the tallies of the parts, and so are the buckets and the total
    sample weight. *)
Theorem tallies_of_two_parts (l1 l2 : list string) (f : string) :
  let s1 := parse_file init l1 in
  let s2 := parse_file init l2 in
  let st := parse_file init (l1 ++ l2) in
  total_samples st = total_samples s1 + total_samples s2 /\
  Dict.get (inclusive_time st) f 0 =
    Dict.get (inclusive_time s1) f 0 + Dict.get (inclusive_time s2) f 0 /\
  Dict.get (func_counts st) f 0 =
    Dict.get (func_counts s1) f 0 + Dict.get (func_counts s2) f 0 /\
  Dict.get (exclusive_time st) f 0 =
    Dict.get (exclusive_time s1) f 0 + Dict.get (exclusive_time s2) f 0 /\
  Dict.get (leaf_counts st) f 0 =
    Dict.get (leaf_counts s1) f 0 + Dict.get (leaf_counts s2) f 0 /\
  Dict.get (malloc_counts st) f 0 =
    Dict.get (malloc_counts s1) f 0 + Dict.get (malloc_counts s2) f 0 /\
  Dict.get (free_counts st) f 0 =
    Dict.get (free_counts s1) f 0 + Dict.get (free_counts s2) f 0 /\
  forall cat,
    Dict.get (category_counts st) cat 0 =
    Dict.get (category_counts s1) cat 0 +
    Dict.get (category_counts s2) cat 0.
Proof.
  cbv zeta.
  destruct (parse_file_fields init (l1 ++ l2)) as (_ & _ & _ & _ & _ & Hc).
  destruct (parse_file_fields init l2) as (_ & _ & _ & _ & _ & Hc2).
  destruct (parse_file_fields init l1) as (_ & _ & _ & _ & _ & Hc1).
  destruct (parse_file_state init (l1 ++ l2))
    as (-> & -> & -> & -> & -> & -> & _ & ->).
  destruct (parse_file_state init l1)
    as (-> & -> & -> & -> & -> & -> & _ & ->).
  destruct (parse_file_state init l2)
    as (-> & -> & -> & -> & -> & -> & _ & ->).
  rewrite scan_app.
  destruct (scan_entries l2 (scan init l1) f)
    as (-> & -> & -> & -> & -> & -> & H).
  destruct (scan_entries l2 init f) as (-> & -> & -> & -> & -> & -> & H2).
  destruct (scan_totals l2 (scan init l1)) as (-> & _).
  destruct (scan_totals l2 init) as (-> & _).
  cbn [init inclusive_time func_counts exclusive_time leaf_counts
       malloc_counts free_counts total_samples Dict.get].
  repeat (split; [rewrite ?Z.add_0_l; reflexivity|]).
  intros cat. rewrite Hc, Hc2, Hc1, !get_categorize, scan_app, H, H2.
  cbn [init category_counts func_counts Dict.get].
  change (bucket_share cat []) with 0. lia.
Qed.

(** X4.  With [--analysis all] (the default) or [--no-report], [main]
    parses the file and [run_analysis] parses it again on the same
    analyzer: the sections are printed from tallies and a total sample
    weight that are twice those of the file, and from buckets that are
    three times those of the file.  With a list of sections the file is
    parsed once. *)
Theorem main_parses_twice (lines : list string) (a : args)
    (funcs : list string) (order : pyset -> list string) :
  let s1 := parse_file init lines in
  (arg_analysis a = "all" \/ arg_no_report a = true ->
   exists st,
     main (Some lines) a funcs order =
       Finished st (full_report st funcs order) /\
     total_samples st = 2 * total_samples s1 /\
     (forall f,
         Dict.get (inclusive_time st) f 0 =
           2 * Dict.get (inclusive_time s1) f 0 /\
         Dict.get (exclusive_time st) f 0 =
           2 * Dict.get (exclusive_time s1) f 0 /\
         Dict.get (leaf_counts st) f 0 =
           2 * Dict.get (leaf_counts s1) f 0 /\
         Dict.get (func_counts st) f 0 =
           2 * Dict.get (func_counts s1) f 0 /\
         Dict.get (malloc_counts st) f 0 =
           2 * Dict.get (malloc_counts s1) f 0 /\
         Dict.get (free_counts st) f 0 =
           2 * Dict.get (free_counts s1) f 0) /\
     (forall cat,
         Dict.get (category_counts st) cat 0 =
           3 * Dict.get (category_counts s1) cat 0)) /\
  (arg_analysis a <> "all" -> arg_no_report a = false ->
   exists out, main (Some lines) a funcs order = Finished s1 out).
Proof.
  cbv zeta. split.
  - intros Hall. exists (parse_file (parse_file init lines) lines).
    split.
    + unfold main, run_analysis.
      assert (String.eqb (arg_analysis a) "all" || arg_no_report a = true)
        as ->; [|reflexivity].
      apply orb_true_iff. destruct Hall as [->|H]; auto.
    + split; [|split].
      * destruct (parse_file_twice lines lines "") as (H & _).
        cbv zeta in H. lia.
      * intros f.
        destruct (parse_file_twice lines lines f)
          as (_ & H1 & H2 & H3 & H4 & H5 & H6 & _).
        cbv zeta in *. repeat split; lia.
      * intros cat.
        destruct (parse_file_twice lines lines "") as (_ & _ & _ & _ & _ & _ & _ & H).
        cbv zeta in H. rewrite H. lia.
  - intros Hne Hrep. unfold main.
    apply String.eqb_neq in Hne. rewrite Hne, Hrep.
    cbn [orb]. eauto.
Qed.

Lemma main_parses_twice_witness :
  (arg_analysis (mkArgs "all" 20 false) = "all" \/
   arg_no_report (mkArgs "all" 20 false) = true) /\
  exists st,
    main (Some ["a;b;3"]) (mkArgs "all" 20 false) [] (fun s => s) =
      Finished st (full_report st [] (fun s => s)) /\
    total_samples st = 2 * total_samples (parse_file init ["a;b;3"]).
Proof.
  split; [left; reflexivity|].
  destruct (proj1 (main_parses_twice ["a;b;3"] (mkArgs "all" 20 false)
                                     [] (fun s => s))
                  (or_introl eq_refl)) as (st & H1 & H2 & _).
  exists st. split; assumption.
Defined.

(** ** Bounds under weights that are not negative *)

Lemma occurrences_last (stack : list string) :
  stack <> [] -> 1 <= occurrences (last stack "") stack.
Proof.
  intros Hne. unfold occurrences.
  assert (In (last stack "") stack) as Hin.
  { destruct stack as [|x stack]; [contradiction|].
    clear Hne. revert x. induction stack as [|y stack IH]; intros x.
    - now left.
    - right. apply (IH y). }
  apply (count_occ_In string_dec) in Hin. lia.
Qed.

Lemma occurrences_nonneg (f : string) (stack : list string) :
  0 <= occurrences f stack.
Proof. unfold occurrences. lia. Qed.

Lemma sample_bounds (samples : list (list string * Z)) (f : string) :
  (forall stack w, In (stack, w) samples -> stack <> [] /\ 0 <= w) ->
  let exclusive :=
    fold_right Z.add 0
      (map snd (filter (fun s => String.eqb (last (fst s) "") f) samples)) in
  0 <= exclusive /\
  exclusive <= fold_right Z.add 0
                 (map (fun '(stack, w) => occurrences f stack * w) samples) /\
  exclusive <= fold_right Z.add 0 (map snd samples).
Proof.
  cbv zeta. induction samples as [|[stack w] l IH]; intros H.
  - simpl. lia.
  - destruct (H stack w (or_introl eq_refl)) as [Hne Hw].
    assert (forall s w', In (s, w') l -> s <> [] /\ 0 <= w') as H'.
    { intros s w' Hin. apply H. now right. }
    specialize (IH H'). cbn [filter map fold_right fst snd].
    pose proof (occurrences_nonneg f stack) as Hocc.
    destruct (String.eqb (last stack "") f) eqn:E.
    + apply String.eqb_eq in E. subst f.
      pose proof (occurrences_last stack Hne).
      cbn [map fold_right snd]. nia.
    + nia.
Qed.

(** X5.  When no accepted line carries a negative weight, for every name
    the exclusive weight lies between 0 and the inclusive weight, and is at
    most the total sample weight. *)
Theorem exclusive_within_inclusive (lines : list string) (f : string) :
  (forall stack w, In (stack, w) (samples lines) -> 0 <= w) ->
  let st := parse_file init lines in
  0 <= Dict.get (exclusive_time st) f 0 /\
  Dict.get (exclusive_time st) f 0 <= Dict.get (inclusive_time st) f 0 /\
  Dict.get (exclusive_time st) f 0 <= total_samples st.
Proof.
  intros Hw. cbv zeta.
  destruct (parse_file_state init lines) as (-> & -> & _ & _ & _ & _ & _ & ->).
  destruct (scan_entries lines init f) as (-> & _ & -> & _).
  destruct (scan_totals lines init) as (-> & _).
  cbn [init inclusive_time exclusive_time total_samples Dict.get].
  unfold weight_where, occurrence_weight_of, total_weight.
  assert (forall stack w, In (stack, w) (samples lines) ->
                          stack <> [] /\ 0 <= w) as H.
  { intros stack w Hin. split; [|eauto].
    apply samples_In in Hin. destruct Hin as (raw & _ & Hp).
    eapply parse_line_not_nil; eauto. }
  pose proof (sample_bounds (samples lines) f H) as B.
  cbv zeta in B. lia.
Qed.

Lemma exclusive_within_inclusive_witness :
  let st := parse_file init ["a;b;a;3"; "b;a;2"; "c 4"] in
  0 <= Dict.get (exclusive_time st) "a" 0 /\
  Dict.get (exclusive_time st) "a" 0 <= Dict.get (inclusive_time st) "a" 0 /\
  Dict.get (exclusive_time st) "a" 0 <= total_samples st.
Proof.
  apply (exclusive_within_inclusive ["a;b;a;3"; "b;a;2"; "c 4"] "a").
  intros stack w H. vm_compute in H.
  repeat (destruct H as [H|H]; [injection H as _ <-; lia|]).
  contradiction.
Defined.

(** ** The call graph *)

Lemma In_slice_to {A} (n : Z) (l : list A) (x : A) :
  In x (slice_to n l) -> In x l.
Proof.
  unfold slice_to. intros H.
  destruct (n <? 0);
    [rewrite <- (firstn_skipn (List.length l - Z.to_nat (- n)) l)
    |rewrite <- (firstn_skipn (Z.to_nat n) l)];
    apply in_or_app; now left.
Qed.

Lemma In_enumerate1 {A} (l : list A) (i : nat) (x : A) :
  In (i, x) (enumerate1 l) -> In x l.
Proof. unfold enumerate1. apply in_combine_r. Qed.

Lemma proper_sets_add_member (k x : string) (cr : dict pyset) :
  proper_sets cr -> proper_sets (Dict.add_member k x cr).
Proof.
  unfold proper_sets, Dict.add_member.
  assert (forall s, NoDup s -> Dict.set_add x s <> [] /\
                                NoDup (Dict.set_add x s)) as Hadd.
  { intros s Hs. split; [|now apply NoDup_set_add].
    intros H. assert (In x (Dict.set_add x s)) as Hin.
    { apply In_set_add. now left. }
    rewrite H in Hin. contradiction. }
  induction cr as [|[k' v] cr IH]; simpl; intros H.
  - constructor; [|constructor]. simpl. apply Hadd. constructor.
  - inversion H as [|? ? [Hv Hnd] Hrest]; subst.
    destruct (String.eqb k' k); constructor; auto.
    simpl in *. now apply Hadd.
Qed.

Lemma record_calls_proper (stack : list string) (cr : dict pyset) :
  (proper_sets cr -> proper_sets (record_calls stack cr)) /\
  (NoDup (keys cr) -> NoDup (keys (record_calls stack cr))).
Proof.
  revert cr. induction stack as [|a stack IH]; intros cr; [simpl; auto|].
  destruct stack as [|b rest]; [simpl; auto|].
  change (record_calls (a :: b :: rest) cr)
    with (record_calls (b :: rest) (Dict.add_member a b cr)).
  destruct (IH (Dict.add_member a b cr)) as [I1 I2]. split; intros H.
  - apply I1. now apply proper_sets_add_member.
  - apply I2. now apply NoDup_keys_update.
Qed.

Lemma scan_calls (lines : list string) (st : analyzer) :
  let st' := scan st lines in
  (forall caller callee,
      In callee (Dict.get (call_relations st') caller []) <->
      In callee (Dict.get (call_relations st) caller []) \/
      exists stack w, In (stack, w) (samples lines) /\
                      Adjacent caller callee stack) /\
  (proper_sets (call_relations st) -> proper_sets (call_relations st')) /\
  (NoDup (keys (call_relations st)) -> NoDup (keys (call_relations st'))).
Proof.
  cbv zeta. unfold scan. revert st.
  induction lines as [|raw lines IH]; intros st.
  - simpl. split; [|auto]. intros caller callee. split; auto.
    intros [H|(? & ? & [] & _)]; auto.
  - cbn [fold_left]. rewrite samples_cons.
    destruct (IH (process_line st raw)) as (I1 & I2 & I3). clear IH.
    destruct (parse_line raw) as [[stack w]|] eqn:E.
    + rewrite (process_line_accept _ _ _ _ E) in *.
      cbn [call_relations] in *.
      destruct (record_calls_spec stack (call_relations st)) as [R1 _].
      destruct (record_calls_proper stack (call_relations st)) as [P1 P2].
      split; [|auto]. intros caller callee. rewrite I1, R1. split.
      * intros [[H|H]|(s & w' & H & Ha)]; auto.
        -- right. exists stack, w. split; [now left|auto].
        -- right. exists s, w'. split; [now right|auto].
      * intros [H|(s & w' & [H|H] & Ha)]; auto.
        -- injection H as <- <-. auto.
        -- right. exists s, w'. auto.
    + rewrite (process_line_skip _ _ E) in *.
      cbn [count_line call_relations] in *.
      split; [exact I1|auto].
Qed.

(** X6.  After [parse_file] on a fresh analyzer, [callee] is in the set of
    [caller] exactly when some accepted stack has [callee] right after
    [caller]; every caller is a key once, and every set has at least one
    member and each member once, so a stack of a single frame never adds a
    key. *)
Theorem call_edges_of_a_file (lines : list string) :
  let st := parse_file init lines in
  (forall caller callee,
      In callee (Dict.get (call_relations st) caller []) <->
      exists stack w, In (stack, w) (samples lines) /\
                      Adjacent caller callee stack) /\
  NoDup (keys (call_relations st)) /\
  (forall caller callees,
      In (caller, callees) (call_relations st) ->
      callees <> [] /\ NoDup callees /\
      callees = Dict.get (call_relations st) caller []).
Proof.
  cbv zeta.
  destruct (parse_file_state init lines) as (_ & _ & _ & _ & _ & _ & -> & _).
  destruct (scan_calls lines init) as (H1 & H2 & H3).
  assert (NoDup (keys (call_relations (scan init lines)))) as Hnd.
  { apply H3. constructor. }
  split; [|split; [exact Hnd|]].
  - intros caller callee. rewrite H1. simpl. tauto.
  - intros caller callees Hin.
    assert (proper_sets (call_relations (scan init lines))) as Hp.
    { apply H2. constructor. }
    unfold proper_sets in Hp. rewrite Forall_forall in Hp.
    destruct (Hp _ Hin) as [Hne Hn]. split; [exact Hne|]. split; [exact Hn|].
    clear - Hnd Hin. unfold keys in Hnd.
    induction (call_relations (scan init lines)) as [|[k v] d IH];
      simpl in *; [contradiction|].
    inversion Hnd as [|? ? Hnin Hnd']; subst.
    destruct Hin as [H|H].
    + injection H as -> ->. now rewrite String.eqb_refl.
    + destruct (String.eqb k caller) eqn:E; auto.
      apply String.eqb_eq in E. subst k. exfalso. apply Hnin.
      apply in_map_iff. now exists (caller, callees).
Qed.

Lemma callee_counts_inner (l : list string) (cc : dict Z) (f : string) :
  let cc' := fold_left (fun cc callee => Dict.add callee 1 cc) l cc in
  Dict.get cc' f 0 =
    Dict.get cc f 0 + Z.of_nat (count_occ string_dec l f) /\
  Dict.total cc' = Dict.total cc + Z.of_nat (List.length l) /\
  (NoDup (keys cc) -> NoDup (keys cc')) /\
  (Forall (fun e => 1 <= snd e) cc -> Forall (fun e => 1 <= snd e) cc').
Proof.
  cbv zeta. revert cc. induction l as [|x l IH]; intros cc.
  - simpl. repeat split; auto; lia.
  - cbn [fold_left]. destruct (IH (Dict.add x 1 cc)) as (I1 & I2 & I3 & I4).
    rewrite I1, I2, get_add, total_add. cbn [count_occ List.length].
    split; [|split; [lia|split]].
    + destruct (string_dec x f) as [->|Hne].
      * rewrite String.eqb_refl. lia.
      * apply String.eqb_neq in Hne. rewrite Hne. lia.
    + intros H. apply I3. now apply NoDup_keys_update.
    + intros H. apply I4. clear - H. unfold Dict.add.
      induction cc as [|[k v] cc IH]; simpl.
      * constructor; [simpl; lia|constructor].
      * inversion H; subst. simpl in *.
        destruct (String.eqb k x); constructor; simpl; auto; lia.
Qed.

Lemma callee_counts_spec (order : pyset -> list string) (cr : dict pyset)
    (f : string) :
  (forall s, Permutation (order s) s) -> proper_sets cr ->
  let cc := callee_counts order cr in
  Dict.get cc f 0 = Z.of_nat (List.length (callers_of f cr)) /\
  Dict.total cc =
    Z.of_nat (fold_right Nat.add 0%nat
                (map (fun v : pyset => List.length v) (values cr))) /\
  NoDup (keys cc) /\ Forall (fun e => 1 <= snd e) cc.
Proof.
  intros Hord Hp. cbv zeta. unfold callee_counts, callers_of, keys, values.
  assert (forall cc0 : dict Z,
    let cc := fold_left
      (fun cc '(_, callees) =>
         fold_left (fun cc callee => Dict.add callee 1 cc) (order callees) cc)
      cr cc0 in
    Dict.get cc f 0 =
      Dict.get cc0 f 0 +
      Z.of_nat (List.length
        (map fst (filter (fun '(_, callees) => Dict.mem f callees) cr))) /\
    Dict.total cc =
      Dict.total cc0 +
      Z.of_nat (fold_right Nat.add 0%nat
                  (map (fun v : pyset => List.length v) (map snd cr))) /\
    (NoDup (map fst cc0) -> NoDup (map fst cc)) /\
    (Forall (fun e => 1 <= snd e) cc0 -> Forall (fun e => 1 <= snd e) cc))
    as Hgen.
  { cbv zeta. induction cr as [|[k s] cr IH]; intros cc0.
    - simpl. repeat split; auto; lia.
    - inversion Hp as [|? ? [_ Hnd] Hrest]; subst. simpl in Hnd.
      cbn [fold_left].
      destruct (IH Hrest (fold_left (fun cc callee => Dict.add callee 1 cc)
                                    (order s) cc0)) as (I1 & I2 & I3 & I4).
      destruct (callee_counts_inner (order s) cc0 f) as (J1 & J2 & J3 & J4).
      rewrite I1, I2, J1, J2. cbn [filter map fold_right snd].
      rewrite (Permutation_length (Hord s)).
      assert (count_occ string_dec (order s) f =
              if Dict.mem f s then 1%nat else 0%nat) as ->.
      { rewrite (proj1 (Permutation_count_occ string_dec _ _) (Hord s)).
        destruct (Dict.mem f s) eqn:E.
        - apply mem_In in E.
          apply (count_occ_In string_dec) in E.
          pose proof (proj1 (NoDup_count_occ string_dec s) Hnd f). lia.
        - apply (count_occ_not_In string_dec). intros Hin.
          apply mem_In in Hin. congruence. }
      split; [|split; [lia|split; auto]].
      destruct (Dict.mem f s); cbn [map List.length]; lia. }
  destruct (Hgen []) as (G1 & G2 & G3 & G4). cbv zeta in *.
  rewrite G1, G2. simpl. repeat split; auto; try lia.
  apply G3. constructor.
Qed.

(** X7.  Whatever the order in which Python walks the sets,
    [print_call_relations] gives every callee the number of its distinct
    callers, which is at least 1, and every caller the size of its set,
    which is at least 1; and the counts of all the callees add up to the
    number of call edges that [print_basic_stats] prints. *)
Theorem call_graph_degrees (lines : list string)
    (order : pyset -> list string) :
  (forall s, Permutation (order s) s) ->
  let st := parse_file init lines in
  let cr := call_relations st in
  (forall f, Dict.get (callee_counts order cr) f 0 =
             Z.of_nat (List.length (callers_of f cr))) /\
  Dict.total (callee_counts order cr) =
    Z.of_nat (snd (print_basic_stats st)) /\
  (forall top_n i func count,
      In (i, func, count) (fst (print_call_relations order st top_n)) ->
      1 <= count /\ count = Z.of_nat (List.length (callers_of func cr))) /\
  (forall top_n i func n,
      In (i, func, n) (snd (print_call_relations order st top_n)) ->
      (1 <= n)%nat /\ n = List.length (Dict.get cr func [])).
Proof.
  intros Hord. cbv zeta.
  destruct (parse_file_state init lines) as (_ & _ & _ & _ & _ & _ & Hcr & _).
  destruct (scan_calls lines init) as (_ & H2 & H3).
  assert (proper_sets (call_relations (parse_file init lines))) as Hp.
  { rewrite Hcr. apply H2. constructor. }
  assert (NoDup (keys (call_relations (parse_file init lines)))) as Hnd.
  { rewrite Hcr. apply H3. constructor. }
  set (st := parse_file init lines) in *.
  split; [|split; [|split]].
  - intros f. now apply callee_counts_spec.
  - destruct (callee_counts_spec order (call_relations st) "" Hord Hp)
      as (_ & H & _). exact H.
  - intros top_n i func count Hin. unfold print_call_relations in Hin.
    cbn [fst] in Hin. apply in_map_iff in Hin.
    destruct Hin as ([j [g c]] & Heq & Hin). injection Heq as -> -> ->.
    apply In_enumerate1, In_slice_to, sorted_desc_In in Hin.
    destruct (callee_counts_spec order (call_relations st) func Hord Hp)
      as (Hget & _ & Hk & Hpos).
    cbv zeta in *. rewrite Forall_forall in Hpos.
    split; [exact (Hpos _ Hin)|].
    rewrite <- Hget. symmetry. now apply get_In.
  - intros top_n i func n Hin. unfold print_call_relations in Hin.
    cbn [snd] in Hin. apply in_map_iff in Hin.
    destruct Hin as ([j [g s]] & Heq & Hin). injection Heq as -> -> <-.
    apply In_enumerate1, In_slice_to, sorted_desc_In in Hin.
    unfold proper_sets in Hp. rewrite Forall_forall in Hp.
    destruct (Hp _ Hin) as [Hne _]. simpl in Hne. split.
    + destruct s; [contradiction|simpl; lia].
    + f_equal. clear - Hnd Hin. unfold keys in Hnd.
      induction (call_relations st) as [|[k v] d IH];
        simpl in *; [contradiction|].
      inversion Hnd as [|? ? Hnin Hnd']; subst.
      destruct Hin as [H|H].
      * injection H as -> ->. now rewrite String.eqb_refl.
      * destruct (String.eqb k func) eqn:E; auto.
        apply String.eqb_eq in E. subst k. exfalso. apply Hnin.
        apply in_map_iff. now exists (func, s).
Qed.

Lemma call_graph_degrees_witness :
  (forall s : pyset, Permutation (rev s) s) /\
  Dict.total (callee_counts (@rev string)
                (call_relations (parse_file init ["a;b;3"; "c;b;a;1"]))) =
  Z.of_nat (snd (print_basic_stats (parse_file init ["a;b;3"; "c;b;a;1"]))).
Proof.
  assert (forall s : pyset, Permutation (rev s) s) as H.
  { intros s. symmetry. apply Permutation_rev. }
  split; [exact H|].
  exact (proj1 (proj2 (call_graph_degrees ["a;b;3"; "c;b;a;1"] (@rev string) H))).
Defined.

Lemma call_edges_of_a_file_witness :
  In ("a", ["b"]) (call_relations (parse_file init ["a;b;3"])) /\
  ["b"] <> [] /\ NoDup ["b"] /\
  ["b"] = Dict.get (call_relations (parse_file init ["a;b;3"])) "a" [].
Proof.
  assert (In ("a", ["b"]) (call_relations (parse_file init ["a;b;3"])))
    as H by (vm_compute; now left).
  split; [exact H|].
  exact (proj2 (proj2 (call_edges_of_a_file ["a;b;3"])) "a" ["b"] H).
Defined.

(** ** The allocation and release tallies *)

Lemma restrict_add (keep : string -> bool) (k : string) (w : Z) (d : dict Z) :
  restrict keep (Dict.add k w d) =
  if keep k then Dict.add k w (restrict keep d) else restrict keep d.
Proof.
  unfold restrict, Dict.add.
  induction d as [|[k' v] d IH]; simpl.
  - destruct (keep k); reflexivity.
  - destruct (String.eqb k' k) eqn:E; simpl.
    + apply String.eqb_eq in E. subst k'.
      destruct (keep k) eqn:Ek; simpl; auto.
      now rewrite String.eqb_refl.
    + rewrite IH.
      destruct (keep k') eqn:E1, (keep k) eqn:E0; simpl; auto.
      now rewrite E.
Qed.

Lemma get_restrict (keep : string -> bool) (d : dict Z) (f : string) :
  Dict.get (restrict keep d) f 0 = if keep f then Dict.get d f 0 else 0.
Proof.
  unfold restrict. induction d as [|[k v] d IH]; simpl.
  - now destruct (keep f).
  - destruct (keep k) eqn:Ek; simpl.
    + destruct (String.eqb k f) eqn:E; auto.
      apply String.eqb_eq in E. subst k. now rewrite Ek.
    + destruct (String.eqb k f) eqn:E; auto.
      apply String.eqb_eq in E. subst k. rewrite Ek in IH.
      now rewrite IH, Ek.
Qed.

(** X8.  After [parse_file] on a fresh analyzer [malloc_counts] is
    [exclusive_time] cut down to the names that hold [malloc], [calloc] or
    [realloc], and [free_counts] is [exclusive_time] cut down to the names
    that hold [free] and none of those three: a leaf whose name holds both
    an allocation word and [free] is counted as an allocation only, and no
    name has an entry in both. *)
Theorem memory_tallies_restrict_exclusive (lines : list string) :
  let st := parse_file init lines in
  malloc_counts st = restrict is_alloc_name (exclusive_time st) /\
  free_counts st = restrict is_free_name (exclusive_time st) /\
  (forall f,
      Dict.get (malloc_counts st) f 0 =
        (if is_alloc_name f then Dict.get (exclusive_time st) f 0 else 0) /\
      Dict.get (free_counts st) f 0 =
        (if is_free_name f then Dict.get (exclusive_time st) f 0 else 0)) /\
  (forall f, In f (keys (malloc_counts st)) ->
             ~ In f (keys (free_counts st))).
Proof.
  cbv zeta.
  assert (malloc_counts (parse_file init lines) =
            restrict is_alloc_name (exclusive_time (parse_file init lines)) /\
          free_counts (parse_file init lines) =
            restrict is_free_name (exclusive_time (parse_file init lines)))
    as [Hm Hf].
  { destruct (parse_file_state init lines)
      as (_ & -> & _ & _ & -> & -> & _).
    apply (scan_invariant
             (fun st => malloc_counts st =
                          restrict is_alloc_name (exclusive_time st) /\
                        free_counts st =
                          restrict is_free_name (exclusive_time st))).
    - auto.
    - auto.
    - intros st stack w Hne [H1 H2].
      rewrite (aggregate_not_nil st stack w Hne). cbv zeta.
      cbn [malloc_counts free_counts exclusive_time].
      rewrite !restrict_add, H1, H2. unfold is_free_name.
      destruct (is_alloc_name (last stack "")); simpl; auto.
    - split; reflexivity. }
  split; [exact Hm|]. split; [exact Hf|]. split.
  - intros f. rewrite Hm, Hf, !get_restrict. auto.
  - intros f Hin Hin'.
    destruct (well_formed_parse_file lines)
      as (_ & _ & _ & _ & _ & _ & Ha & Hb).
    apply Ha in Hin. apply Hb in Hin'. congruence.
Qed.

(** X9.  On the tallies of a parsed file the leak view is always empty:
    every row of the memory statistics has no allocation or no release,
    so no name passes the test of line 249, and a report that is printed
    lists no leak candidate. *)
Theorem leak_view_is_empty (lines funcs : list string) :
  let st := parse_file init lines in
  (forall func malloc free total,
      In (func, malloc, free, total) (memory_stats st funcs) ->
      (malloc = 0 /\ free = total) \/ (free = 0 /\ malloc = total)) /\
  leak_candidates (memory_stats st funcs) = [] /\
  (forall r, print_memory_analysis st funcs = Ok r -> mr_leaks r = []).
Proof.
  cbv zeta. split; [|split].
  - intros func m f t Hin. apply memory_stats_In in Hin.
    destruct Hin as (_ & Hm & Hf & Ht & _).
    destruct (counted_once lines func) as [H|H]; cbv zeta in H; lia.
  - apply parsed_file_has_no_leak_candidate.
  - intros r Hr. apply print_memory_analysis_ok in Hr.
    destruct Hr as [Hr _].
    rewrite parsed_file_has_no_leak_candidate in Hr.
    destruct (mr_leaks r); [reflexivity|discriminate].
Qed.

Lemma memory_tallies_restrict_exclusive_witness :
  In "malloc_free" (keys (malloc_counts (parse_file init ["x;malloc_free;2"]))) /\
  ~ In "malloc_free" (keys (free_counts (parse_file init ["x;malloc_free;2"]))).
Proof.
  assert (In "malloc_free"
             (keys (malloc_counts (parse_file init ["x;malloc_free;2"]))))
    as H by (vm_compute; now left).
  split; [exact H|].
  exact (proj2 (proj2 (proj2
           (memory_tallies_restrict_exclusive ["x;malloc_free;2"])))
               "malloc_free" H).
Defined.

Lemma leak_view_is_empty_witness :
  match print_memory_analysis (parse_file init ["x;malloc;2"; "y;free;1"])
                              ["malloc"; "free"] with
  | Ok r => mr_leaks r = []
  | Raise _ => False
  end.
Proof.
  destruct (print_memory_analysis (parse_file init ["x;malloc;2"; "y;free;1"])
                                  ["malloc"; "free"]) as [r|e] eqn:E.
  - exact (proj2 (proj2 (leak_view_is_empty ["x;malloc;2"; "y;free;1"]
                                            ["malloc"; "free"])) r E).
  - vm_compute in E. discriminate.
Defined.

(** ** When the report fails *)

Lemma scan_no_samples (lines : list string) (st : analyzer) :
  samples lines = [] ->
  let st' := scan st lines in
  inclusive_time st' = inclusive_time st /\
  exclusive_time st' = exclusive_time st /\
  leaf_counts st' = leaf_counts st /\
  func_counts st' = func_counts st /\
  malloc_counts st' = malloc_counts st /\
  free_counts st' = free_counts st /\
  call_relations st' = call_relations st /\
  total_samples st' = total_samples st.
Proof.
  cbv zeta. unfold scan. revert st.
  induction lines as [|raw lines IH]; intros st Hs.
  - simpl. repeat split.
  - rewrite samples_cons in Hs. cbn [fold_left].
    destruct (parse_line raw) as [s|] eqn:E; [discriminate|].
    rewrite (process_line_skip _ _ E).
    destruct (IH (count_line st) Hs) as (-> & -> & -> & -> & -> & -> & -> & ->).
    repeat split.
Qed.

Lemma ranking_nil (total top_n : Z) : ranking [] total top_n = Ok [].
Proof.
  unfold ranking, slice_to. simpl. rewrite !firstn_nil.
  now destruct (top_n <? 0).
Qed.

Lemma memory_stats_nil (st : analyzer) (funcs : list string) :
  malloc_counts st = [] -> free_counts st = [] -> memory_stats st funcs = [].
Proof.
  intros Hm Hf. unfold memory_stats. rewrite Hm, Hf.
  induction funcs as [|f funcs IH]; simpl in *; auto.
Qed.

Lemma empty_report_returns (st : analyzer) (funcs : list string) :
  inclusive_time st = [] -> exclusive_time st = [] -> leaf_counts st = [] ->
  malloc_counts st = [] -> free_counts st = [] -> category_counts st = [] ->
  exists r, generate_report st funcs = Ok r.
Proof.
  intros H1 H2 H3 H4 H5 H6.
  unfold generate_report, print_inclusive_time_top, print_exclusive_time_top,
    print_leaf_functions_top, print_category_analysis,
    print_memory_analysis, print_moganstem_analysis,
    print_performance_issues, high_cost.
  rewrite (memory_stats_nil st funcs H4 H5), H1, H2, H3, H6, !ranking_nil.
  simpl. eauto.
Qed.

Lemma full_report_generate (st : analyzer) (funcs : list string)
    (order : pyset -> list string) :
  full_report st funcs order =
  (r <- generate_report st funcs ;;
   Ok (mkSections (print_basic_stats st)
                  (Some (r_inclusive r)) (Some (r_exclusive r))
                  (Some (r_leaves r)) (Some (r_categories r))
                  (Some (r_memory r)) (Some (r_mogan r))
                  (Some (r_performance r))
                  (Some (print_call_relations order st 10)))).
Proof.
  unfold full_report, generate_report.
  destruct (print_inclusive_time_top st 20); cbn [bind]; auto.
  destruct (print_exclusive_time_top st 20); cbn [bind]; auto.
  destruct (print_leaf_functions_top st 30); cbn [bind]; auto.
  destruct (print_category_analysis st); cbn [bind]; auto.
  destruct (print_memory_analysis st funcs); cbn [bind]; auto.
  destruct (print_moganstem_analysis st); cbn [bind]; auto.
  destruct (print_performance_issues st); cbn [bind]; auto.
Qed.

Lemma for_each_raise_inv {A B} (body : A -> result B) (l : list A)
  (e : exn) :
  for_each body l = Raise e -> exists x, In x l /\ body x = Raise e.
Proof.
  induction l as [|x l IH]; simpl; [discriminate|].
  destruct (body x) as [y|e'] eqn:E; cbn [bind].
  - destruct (for_each body l) as [ys|e'']; cbn [bind]; [discriminate|].
    intros H. destruct (IH H) as (x' & Hin & Hx'). eauto.
  - intros H. injection H as <-. eauto.
Qed.

Lemma truediv64_raises (a b : Z) (e : exn) :
  truediv64 a b = Raise e -> b <> 0 -> e = OverflowError.
Proof.
  unfold truediv64. intros H Hb. apply Z.eqb_neq in Hb. rewrite Hb in H.
  destruct (round64 a b); [discriminate| |]; now injection H as <-.
Qed.

Lemma high_cost_raises (tally : dict Z) (total : Z) (threshold : float64)
  (e : exn) :
  high_cost tally total threshold = Raise e -> total <> 0 ->
  e = OverflowError.
Proof.
  unfold high_cost. intros H Ht.
  destruct (for_each _ _) as [rows|e'] eqn:E; cbn [bind] in H;
    [discriminate|]. injection H as <-.
  apply for_each_raise_inv in E. destruct E as ([f v] & _ & E).
  unfold percent64 in E.
  destruct (truediv64 v total) as [q|e''] eqn:Eq; cbn [bind] in E;
    [discriminate|]. injection E as <-.
  exact (truediv64_raises _ _ _ Eq Ht).
Qed.

Lemma print_memory_analysis_raises (st : analyzer) (funcs : list string)
  (e : exn) :
  print_memory_analysis st funcs = Raise e -> total_samples st <> 0 ->
  e = OverflowError.
Proof.
  unfold print_memory_analysis. intros H Ht.
  destruct (memory_stats st funcs); [discriminate|].
  rewrite !percentage_ok in H by assumption. cbn [bind] in H.
  unfold memory_ratio in H.
  destruct (Dict.total (malloc_counts st) >? 0) eqn:Epos;
    [|discriminate].
  apply Z.gtb_lt in Epos.
  destruct (truediv64 _ _) as [ratio|e'] eqn:Eq; cbn [bind] in H.
  - destruct (float_ltb ratio _); [discriminate|].
    destruct (float_ltb _ ratio); discriminate.
  - injection H as <-. apply (truediv64_raises _ _ _ Eq). lia.
Qed.

(** With a total weight that is not zero no division of the report is a
    division by zero. *)
Lemma nonzero_total_divides (st : analyzer) (funcs : list string) :
  total_samples st <> 0 ->
  generate_report st funcs <> Raise ZeroDivisionError.
Proof.
  intros H. unfold generate_report, print_inclusive_time_top,
    print_exclusive_time_top, print_leaf_functions_top.
  destruct (ranking_returns (inclusive_time st) _ 20 H) as [r1 ->].
  destruct (ranking_returns (exclusive_time st) _ 20 H) as [r2 ->].
  destruct (ranking_returns (leaf_counts st) _ 30 H) as [r3 ->].
  cbn [bind].
  assert (exists c, print_category_analysis st = Ok c) as [c ->].
  { unfold print_category_analysis. eexists.
    apply (for_each_ok _ (fun '(cat, count) =>
             (cat, count,
              (inject_Z count / inject_Z (total_samples st) * 100)%Q))).
    intros [cat count] _. now rewrite percentage_ok. }
  cbn [bind].
  destruct (print_memory_analysis st funcs) as [m|e] eqn:Em; cbn [bind].
  2:{ rewrite (print_memory_analysis_raises _ _ _ Em H). discriminate. }
  assert (exists g, print_moganstem_analysis st = Ok g) as [g ->].
  { unfold print_moganstem_analysis.
    assert (forall l : dict Z, exists rows : list row,
               for_each (fun '(i, (func, time_val)) =>
                           p <- percentage time_val (total_samples st) ;;
                           Ok (i, func, time_val, p))
                        (enumerate1 (slice_to 15 l)) = Ok rows) as Ht.
    { intros l. eexists.
      apply (for_each_ok _ (fun '(i, (func, v)) =>
               (i, func, v,
                (inject_Z v / inject_Z (total_samples st) * 100)%Q))).
      intros [i [func v]] _. now rewrite percentage_ok. }
    destruct (sorted_desc snd (filter _ (inclusive_time st))); apply Ht. }
  cbn [bind]. unfold print_performance_issues.
  destruct (high_cost (inclusive_time st) _ _) as [hi|e] eqn:Ei; cbn [bind].
  2:{ rewrite (high_cost_raises _ _ _ _ Ei H). discriminate. }
  destruct (high_cost (exclusive_time st) _ _) as [he|e] eqn:Ee; cbn [bind].
  2:{ rewrite (high_cost_raises _ _ _ _ Ee H). discriminate. }
  discriminate.
Qed.

(** X10.  The full report of a parsed file of ASCII lines fails with
    [ZeroDivisionError] exactly when some line was accepted and the
    accepted weights add up to zero; for a file without an accepted line,
    the empty one and the one of blank lines included, every section is
    produced. *)
Theorem report_fails_exactly_on_zero_total (lines funcs : list string)
    (order : pyset -> list string) :
  Forall (fun raw => ascii_text raw = true) lines ->
  let st := parse_file init lines in
  (full_report st funcs order = Raise ZeroDivisionError <->
   samples lines <> [] /\ total_weight lines = 0) /\
  (samples lines = [] -> exists r, full_report st funcs order = Ok r).
Proof.
  intros _. cbv zeta.
  assert (samples lines = [] ->
          exists r, full_report (parse_file init lines) funcs order = Ok r)
    as Hok.
  { intros Hs. rewrite full_report_generate.
    assert (exists r, generate_report (parse_file init lines) funcs = Ok r)
      as [r ->]; [|cbn [bind]; eauto].
    destruct (parse_file_fields init lines) as (_ & _ & _ & _ & _ & Hc).
    destruct (parse_file_state init lines)
      as (E1 & E2 & E3 & E4 & E5 & E6 & _).
    destruct (scan_no_samples lines init Hs)
      as (S1 & S2 & S3 & S4 & S5 & S6 & _).
    apply empty_report_returns.
    - now rewrite E1, S1.
    - now rewrite E2, S2.
    - now rewrite E3, S3.
    - now rewrite E5, S5.
    - now rewrite E6, S6.
    - rewrite Hc, S4. reflexivity. }
  split; [|exact Hok]. split.
  - intros Hr.
    destruct (samples lines) as [|s l] eqn:Es.
    + destruct (Hok eq_refl) as [r Hr']. congruence.
    + split; [discriminate|].
      destruct (Z.eq_dec (total_weight lines) 0) as [|Hne]; auto.
      exfalso. rewrite full_report_generate in Hr.
      assert (total_samples (parse_file init lines) <> 0) as Ht.
      { destruct (parse_file_fields init lines) as (_ & _ & _ & _ & -> & _).
        destruct (scan_totals lines init) as (-> & _). simpl. exact Hne. }
      apply (nonzero_total_divides _ funcs) in Ht.
      destruct (generate_report (parse_file init lines) funcs);
        cbn [bind] in Hr; congruence.
  - intros [Hs Hw]. rewrite full_report_generate.
    destruct (zero_total_report_raises lines funcs Hs Hw) as [_ H].
    cbv zeta in H. now rewrite H.
Qed.

Lemma report_fails_exactly_on_zero_total_witness :
  full_report (parse_file init ["a;b;2"; "c;-2"]) [] (fun s => s) =
  Raise ZeroDivisionError.
Proof.
  apply (proj1 (report_fails_exactly_on_zero_total
                  ["a;b;2"; "c;-2"] [] (fun s => s)
                  ltac:(repeat constructor))).
  split; [vm_compute; discriminate|reflexivity].
Defined.

(** ** The shape of a ranking *)

Lemma table_rows (total : Z) (l : list (nat * (string * Z))) (rows : list row) :
  for_each (fun '(i, (func, time_val)) =>
              p <- percentage time_val total ;;
              Ok (i, func, time_val, p)) l = Ok rows ->
  map (fun '(i, func, time_val, _) => (i, (func, time_val))) rows = l /\
  forall i func time_val p,
    In (i, func, time_val, p) rows ->
    total <> 0 /\ p = (inject_Z time_val / inject_Z total * 100)%Q.
Proof.
  intros H. apply for_each_inv in H.
  induction H as [|[i [func v]] [[[i' f'] v'] p'] l rows Hb _ [IH1 IH2]].
  - split; [reflexivity|]. intros ? ? ? ? [].
  - unfold percentage, truediv in Hb.
    destruct (total =? 0) eqn:E; cbn [bind] in Hb; [discriminate|].
    injection Hb as <- <- <- <-. apply Z.eqb_neq in E.
    split; [simpl; now rewrite IH1|].
    intros j g u q [Heq|Hin]; [|eauto].
    injection Heq as <- <- <- <-. auto.
Qed.

Lemma enumerate1_parts {A} (l : list A) :
  map fst (enumerate1 l) = seq 1 (List.length l) /\
  map snd (enumerate1 l) = l.
Proof.
  unfold enumerate1. generalize 1%nat.
  induction l as [|x l IH]; intros n; simpl; [auto|].
  destruct (IH (S n)) as [-> ->]. auto.
Qed.

Lemma Descending_firstn {A} (key : A -> Z) (n : nat) (l : list A) :
  Descending key l -> Descending key (firstn n l).
Proof.
  unfold Descending. revert n.
  induction l as [|x l IH]; intros [|n] H; simpl; try constructor.
  - inversion H; subst. auto.
  - inversion H as [|? ? _ Hf]; subst.
    rewrite Forall_forall in *. intros y Hy. apply Hf.
    rewrite <- (firstn_skipn n l). apply in_or_app. now left.
Qed.

Lemma Descending_slice_to {A} (key : A -> Z) (n : Z) (l : list A) :
  Descending key l -> Descending key (slice_to n l).
Proof.
  unfold slice_to. destruct (n <? 0); apply Descending_firstn.
Qed.

(** X13.  A ranking that is printed lists the first [top_n] entries of the
    tally in decreasing order of weight, numbered from 1, each with its
    weight and its percentage of the total, which is then not zero.  With
    [top_n] at least 0 there are [top_n] rows, or as many as the tally has
    entries when it has fewer; a negative [top_n] does not give an empty
    ranking but leaves out the last [-top_n] entries. *)
Theorem ranking_shape (tally : dict Z) (total top_n : Z) (rows : list row) :
  ranking tally total top_n = Ok rows ->
  map (fun '(_, func, time_val, _) => (func, time_val)) rows =
    slice_to top_n (sorted_desc snd tally) /\
  map (fun '(i, _, _, _) => i) rows = seq 1 (List.length rows) /\
  Descending snd (map (fun '(_, func, time_val, _) => (func, time_val)) rows) /\
  (0 <= top_n ->
   List.length rows = Nat.min (Z.to_nat top_n) (List.length tally)) /\
  (top_n < 0 ->
   List.length rows = (List.length tally - Z.to_nat (- top_n))%nat) /\
  (forall i func time_val p,
      In (i, func, time_val, p) rows ->
      In (func, time_val) tally /\ total <> 0 /\
      p = (inject_Z time_val / inject_Z total * 100)%Q).
Proof.
  unfold ranking. intros H. apply table_rows in H. destruct H as [Hrows Hp].
  destruct (enumerate1_parts (slice_to top_n (sorted_desc snd tally)))
    as [Hfst Hsnd].
  assert (map (fun '(_, func, time_val, _) => (func, time_val)) rows =
          slice_to top_n (sorted_desc snd tally)) as Hitems.
  { rewrite <- Hsnd, <- Hrows, map_map. apply map_ext.
    now intros [[[i f] v] p]. }
  assert (List.length rows =
          List.length (slice_to top_n (sorted_desc snd tally))) as Hlen.
  { rewrite <- Hitems. now rewrite length_map. }
  assert (List.length (sorted_desc snd tally) = List.length tally) as Hsl.
  { apply Permutation_length, sorted_desc_perm. }
  split; [exact Hitems|]. split; [|split; [|split; [|split]]].
  - rewrite Hlen, <- Hfst, <- Hrows, map_map. apply map_ext.
    now intros [[[i f] v] p].
  - rewrite Hitems. apply Descending_slice_to, sorted_desc_sorted.
  - intros Hn. rewrite Hlen. unfold slice_to.
    assert ((top_n <? 0) = false) as -> by lia.
    now rewrite length_firstn, Hsl.
  - intros Hn. rewrite Hlen. unfold slice_to.
    assert ((top_n <? 0) = true) as -> by lia.
    rewrite length_firstn, Hsl. lia.
  - intros i func v p Hin. split; [|eauto].
    assert (In (func, v) (slice_to top_n (sorted_desc snd tally))) as H.
    { rewrite <- Hitems. apply in_map_iff.
      now exists (i, func, v, p). }
    apply In_slice_to in H. now apply sorted_desc_In in H.
Qed.

Lemma ranking_shape_witness :
  exists rows,
    ranking [("a", 3); ("b", 5); ("c", 1)] 9 (-1) = Ok rows /\
    map (fun '(_, func, time_val, _) => (func, time_val)) rows =
      [("b", 5); ("a", 3)].
Proof.
  destruct (ranking_returns [("a", 3); ("b", 5); ("c", 1)] 9 (-1))
    as [rows H]; [discriminate|].
  exists rows. split; [exact H|].
  exact (proj1 (ranking_shape _ _ _ _ H)).
Defined.

(** ** The token view *)

(** X12.  The token view prints at most fifteen rows.  As soon as one name
    of [inclusive_time] holds [MoganSTEM], every row is a name that holds
    [MoganSTEM], whatever the weight of the names that hold [iiiSTEM];
    only when no name holds [MoganSTEM] are the rows names that hold
    [iiiSTEM]. *)
Theorem token_view_falls_back (st : analyzer) (rows : list row) :
  print_moganstem_analysis st = Ok rows ->
  (List.length rows <= 15)%nat /\
  ((exists f, In f (keys (inclusive_time st)) /\
              Py.contains "MoganSTEM" f = true) ->
   forall i f v p, In (i, f, v, p) rows ->
                   Py.contains "MoganSTEM" f = true /\
                   In (f, v) (inclusive_time st)) /\
  ((forall f, In f (keys (inclusive_time st)) ->
              Py.contains "MoganSTEM" f = false) ->
   forall i f v p, In (i, f, v, p) rows ->
                   Py.contains "iiiSTEM" f = true /\
                   In (f, v) (inclusive_time st)).
Proof.
  unfold print_moganstem_analysis. cbv zeta beta.
  pose (holding := fun token : string =>
         sorted_desc snd
           (filter (fun '(f, _) => Py.contains token f) (inclusive_time st))).
  assert (forall token l,
    for_each (fun '(i, (func, time_val)) =>
                p <- percentage time_val (total_samples st) ;;
                Ok (i, func, time_val, p))
             (enumerate1 (slice_to 15 l)) = Ok rows ->
    (List.length rows <= 15)%nat /\
    (l = holding token ->
     forall i f v p, In (i, f, v, p) rows ->
                     Py.contains token f = true /\
                     In (f, v) (inclusive_time st))) as Htable.
  { intros token l H. apply table_rows in H. destruct H as [Hrows _].
    destruct (enumerate1_parts (slice_to 15 l)) as [_ Hsnd].
    assert (map (fun '(_, func, time_val, _) => (func, time_val)) rows =
            slice_to 15 l) as Hitems.
    { rewrite <- Hsnd, <- Hrows, map_map. apply map_ext.
      now intros [[[i f] v] p]. }
    split.
    - assert (List.length rows = List.length (slice_to 15 l)) as ->.
      { rewrite <- Hitems. now rewrite length_map. }
      change 15 with (Z.of_nat 15). rewrite slice_to_nat, length_firstn. lia.
    - intros -> i f v p Hin.
      assert (In (f, v) (slice_to 15 (holding token))) as H.
      { rewrite <- Hitems. apply in_map_iff. now exists (i, f, v, p). }
      apply In_slice_to in H. unfold holding in H.
      apply sorted_desc_In, filter_In in H. tauto. }
  assert (holding "MoganSTEM" = [] <->
          forall f, In f (keys (inclusive_time st)) ->
                    Py.contains "MoganSTEM" f = false) as Hnone.
  { unfold holding. split.
    - intros H f Hin. apply in_map_iff in Hin.
      destruct Hin as ([g v] & <- & Hin). simpl.
      destruct (Py.contains "MoganSTEM" g) eqn:E; auto.
      assert (In (g, v) (sorted_desc snd
                (filter (fun '(f, _) => Py.contains "MoganSTEM" f)
                        (inclusive_time st)))) as Hin'.
      { apply sorted_desc_In, filter_In. auto. }
      rewrite H in Hin'. contradiction.
    - intros H. apply no_member_nil. intros [g v] Hin.
      apply sorted_desc_In, filter_In in Hin. destruct Hin as [Hin Hc].
      rewrite (H g) in Hc; [discriminate|].
      apply in_map_iff. now exists (g, v). }
  change (sorted_desc snd
            (filter (fun '(f, _) => Py.contains "MoganSTEM" f)
                    (inclusive_time st)))
    with (holding "MoganSTEM").
  destruct (holding "MoganSTEM") as [|x l] eqn:E.
  - intros H. destruct (Htable "iiiSTEM" _ H) as [Hlen Hrows].
    split; [exact Hlen|]. split.
    + intros (f & Hin & Hc). rewrite (proj1 Hnone eq_refl f Hin) in Hc.
      discriminate.
    + intros _. apply Hrows. reflexivity.
  - intros H. destruct (Htable "MoganSTEM" _ H) as [Hlen Hrows].
    split; [exact Hlen|]. split.
    + intros _. apply Hrows. now rewrite E.
    + intros Hno. apply Hnone in Hno. discriminate.
Qed.

Lemma token_view_falls_back_witness :
  match print_moganstem_analysis
          (parse_file init ["iiiSTEM`f;9"; "MoganSTEM`g;1"]) with
  | Ok rows => (List.length rows <= 15)%nat
  | Raise _ => False
  end.
Proof.
  destruct (print_moganstem_analysis
              (parse_file init ["iiiSTEM`f;9"; "MoganSTEM`g;1"]))
    as [rows|e] eqn:E.
  - exact (proj1 (token_view_falls_back _ rows E)).
  - vm_compute in E. discriminate.
Defined.

(** ** A weight after a blank *)

Lemma string_app_assoc (a b c : string) :
  ((a ++ b) ++ c = a ++ (b ++ c))%string.
Proof. induction a as [|x a IH]; simpl; [reflexivity|now rewrite IH]. Qed.

Lemma c_isspace_isspace (c : ascii) :
  Py.c_isspace c = true -> Py.isspace c = true.
Proof.
  unfold Py.c_isspace, Py.isspace. cbv zeta.
  generalize (N_of_ascii c). intros n H.
  apply orb_true_iff in H. apply orb_true_iff.
  destruct H as [H|H]; [now left|right].
  apply N.eqb_eq in H. subst n. reflexivity.
Qed.

Lemma lstrip_app (ws : ascii -> bool) (x z : string) :
  Py.lstrip_with ws x <> "" ->
  Py.lstrip_with ws (x ++ z) = (Py.lstrip_with ws x ++ z)%string.
Proof.
  induction x as [|c x IH]; simpl; [contradiction|].
  destruct (ws c); auto.
Qed.

Lemma rstrip_app (ws : ascii -> bool) (u y : string) :
  Py.rstrip_with ws y <> "" ->
  Py.rstrip_with ws (u ++ y) = (u ++ Py.rstrip_with ws y)%string.
Proof.
  intros Hy. induction u as [|c u IH]; simpl; [reflexivity|].
  rewrite IH. destruct (u ++ Py.rstrip_with ws y)%string eqn:E; auto.
  destruct u; simpl in E; [contradiction|discriminate].
Qed.

Lemma not_blank_strips (x : string) :
  all_space x = false ->
  Py.lstrip_with Py.c_isspace x <> "" /\ Py.rstrip_with Py.c_isspace x <> "".
Proof.
  induction x as [|c x IH]; simpl; [discriminate|]. intros H.
  destruct (Py.c_isspace c) eqn:Ec.
  - rewrite (c_isspace_isspace c Ec) in H. simpl in H.
    destruct (IH H) as [I1 I2]. split; [exact I1|].
    destruct (Py.rstrip_with Py.c_isspace x); [contradiction|discriminate].
  - split; [discriminate|].
    destruct (Py.rstrip_with Py.c_isspace x); discriminate.
Qed.

Lemma scan_digits_blank (s : string) (prev_us : bool) (acc : Z) (n : nat) :
  Py.has_char " " s = true -> Py.scan_digits s prev_us acc n = None.
Proof.
  revert prev_us acc n. induction s as [|c s IH]; intros p acc n; simpl.
  - discriminate.
  - intros H. destruct (Ascii.eqb c "_") eqn:Eu.
    + apply Ascii.eqb_eq in Eu. subst c. simpl in H.
      destruct p; auto.
    + destruct (Ascii.eqb c " ") eqn:Es.
      * apply Ascii.eqb_eq in Es. subst c. reflexivity.
      * simpl in H. destruct (Py.digit_val c); auto.
Qed.

Lemma int_body_blank (s : string) :
  Py.has_char " " s = true -> Py.int_body s = None.
Proof.
  intros H. unfold Py.int_body. destruct s as [|c s]; auto.
  destruct (Ascii.eqb c "_"); auto.
  now rewrite scan_digits_blank.
Qed.

(** [int] refuses a text with a blank between two parts that are not
    blank. *)
Lemma int_blank_inside (x y : string) :
  all_space x = false -> all_space y = false ->
  Py.int (x ++ " " ++ y) = None.
Proof.
  intros Hx Hy.
  destruct (not_blank_strips x Hx) as [Hl _].
  destruct (not_blank_strips y Hy) as [_ Hr].
  assert (exists c0 rest,
             Py.strip_with Py.c_isspace (x ++ " " ++ y) = String c0 rest /\
             Py.has_char " " rest = true) as (c0 & rest & Hs & Hb).
  { unfold Py.strip_with. rewrite lstrip_app by assumption.
    rewrite <- string_app_assoc, rstrip_app by assumption.
    destruct (Py.lstrip_with Py.c_isspace x) as [|c0 x']; [contradiction|].
    exists c0, ((x' ++ " ") ++ Py.rstrip_with Py.c_isspace y)%string.
    split; [reflexivity|].
    rewrite !has_char_app. simpl. rewrite orb_true_r. reflexivity. }
  assert (Py.int_body rest = None) as H1 by now apply int_body_blank.
  assert (Py.int_body (String c0 rest) = None) as H2.
  { apply int_body_blank. simpl. rewrite Hb. apply orb_true_r. }
  unfold Py.int. rewrite Hs.
  destruct c0 as [[|] [|] [|] [|] [|] [|] [|] [|]];
    rewrite ?H1, ?H2; reflexivity.
Qed.

Lemma split_app_last (sep : ascii) (s t : string) :
  Py.has_char sep t = false ->
  Py.split sep (s ++ String sep t) = (Py.split sep s ++ [t])%list.
Proof.
  intros Ht. induction s as [|c s IH]; simpl.
  - rewrite Ascii.eqb_refl. now rewrite split_no_sep.
  - rewrite IH. destruct (Ascii.eqb c sep); [reflexivity|].
    pose proof (split_not_nil sep s).
    destruct (Py.split sep s); [contradiction|reflexivity].
Qed.

(** X14.  Of a line of ASCII text.  When the stripped line has a
    semicolon and its last field is made of a name, a blank and a further
    word, neither of the two being white space only, that whole field is
    the leaf and the weight is 1, even when the word is a number: the
    usual folded form [a;b 5] gives the leaf [b 5] with weight 1.  When
    the stripped line has no semicolon and what follows its last blank is
    a number, that number is the weight and what precedes the blank is
    the only frame. *)
Theorem blank_separated_weight (raw s leaf c : string) :
  ascii_text raw = true ->
  (Py.strip raw = (s ++ ";" ++ leaf ++ " " ++ c)%string ->
   Py.has_char ";" leaf = false -> Py.has_char ";" c = false ->
   all_space leaf = false -> all_space c = false ->
   parse_line raw =
   Some ((Py.split ";" s ++ [(leaf ++ " " ++ c)%string])%list, 1)) /\
  (forall w,
      Py.strip raw = (leaf ++ " " ++ c)%string ->
      Py.has_char ";" leaf = false -> Py.has_char ";" c = false ->
      Py.has_char " " c = false -> Py.int c = Some w ->
      parse_line raw = Some ([leaf], w)).
Proof.
  intros _. split.
  - intros Hl Hleaf Hc Hnl Hnc. unfold parse_line.
    assert (String.eqb (Py.strip raw) "" = false) as ->.
    { apply String.eqb_neq. rewrite Hl. destruct s; discriminate. }
    assert (Py.has_char ";" (leaf ++ " " ++ c) = false) as Hfield.
    { rewrite !has_char_app, Hleaf, Hc. reflexivity. }
    rewrite (split_weight_semicolon _ s (leaf ++ " " ++ c) Hl Hfield).
    rewrite (int_blank_inside leaf c Hnl Hnc).
    f_equal. f_equal. rewrite Hl. now apply split_app_last.
  - intros w Hl Hleaf Hc Hsp Hint. unfold parse_line.
    assert (String.eqb (Py.strip raw) "" = false) as ->.
    { apply String.eqb_neq. rewrite Hl. destruct leaf; discriminate. }
    assert (Py.has_char ";" (Py.strip raw) = false) as Hsemi.
    { rewrite Hl, !has_char_app, Hleaf, Hc. reflexivity. }
    rewrite (split_weight_space _ leaf c Hsemi Hl Hsp), Hint.
    now rewrite split_no_sep.
Qed.

Lemma blank_separated_weight_witness :
  parse_line "main;run;step 5" = Some (["main"; "run"; "step 5"], 1) /\
  parse_line "step 5" = Some (["step"], 5).
Proof.
  split.
  - exact (proj1 (blank_separated_weight "main;run;step 5" "main;run"
                                         "step" "5" eq_refl)
                 eq_refl eq_refl eq_refl eq_refl eq_refl).
  - exact (proj2 (blank_separated_weight "step 5" "" "step" "5" eq_refl) 5
                 eq_refl eq_refl eq_refl eq_refl eq_refl).
Defined.

(** ** The names the tallies hold *)

Lemma keys_named_entries (d : dict Z) (f : string) :
  In f (keys (named_entries d)) <-> f <> "" /\ In f (keys d).
Proof.
  unfold named_entries, keys. rewrite !in_map_iff. split.
  - intros ([k v] & <- & Hin). apply filter_In in Hin.
    destruct Hin as [Hin Hk]. simpl. split.
    + intros ->. discriminate.
    + now exists (k, v).
  - intros (Hne & [k v] & <- & Hin). exists (k, v). split; auto.
    apply filter_In. split; auto. simpl in *.
    apply String.eqb_neq in Hne. now rewrite Hne.
Qed.

Lemma scan_leaves (lines : list string) (st : analyzer) (f : string) :
  In f (keys (exclusive_time (scan st lines))) <->
  In f (keys (exclusive_time st)) \/
  exists stack w, In (stack, w) (samples lines) /\ last stack "" = f.
Proof.
  unfold scan. revert st. induction lines as [|raw lines IH]; intros st.
  - simpl. split; auto. intros [H|(? & ? & [] & _)]; auto.
  - cbn [fold_left]. rewrite samples_cons, IH. clear IH.
    destruct (parse_line raw) as [[stack w]|] eqn:E.
    + rewrite (process_line_accept _ _ _ _ E). cbn [exclusive_time].
      unfold Dict.add. rewrite keys_update. split.
      * intros [[->|H]|(s & w' & H & Hl)]; auto.
        -- right. exists stack, w. split; [now left|reflexivity].
        -- right. exists s, w'. split; [now right|auto].
      * intros [H|(s & w' & [H|H] & Hl)]; auto.
        -- injection H as <- <-. auto.
        -- right. exists s, w'. auto.
    + rewrite (process_line_skip _ _ E). cbn [count_line exclusive_time].
      tauto.
Qed.

(** X15.  After [parse_file] on a fresh analyzer every tally holds each
    name once.  [inclusive_time] has an entry for exactly the names that
    stand in some accepted stack, [func_counts] for those of them that are
    not the empty name, [exclusive_time] for exactly the last frames of the
    accepted stacks: a name has its entry whatever its weights add up to,
    zero included, and the number of functions [print_basic_stats] prints
    is the number of distinct named frames. *)
Theorem names_of_the_tallies (lines : list string) :
  let st := parse_file init lines in
  (forall f, In f (keys (inclusive_time st)) <->
             exists stack w, In (stack, w) (samples lines) /\ In f stack) /\
  (forall f, In f (keys (func_counts st)) <->
             f <> "" /\
             exists stack w, In (stack, w) (samples lines) /\ In f stack) /\
  (forall f, In f (keys (exclusive_time st)) <->
             exists stack w, In (stack, w) (samples lines) /\
                             last stack "" = f) /\
  NoDup (keys (inclusive_time st)) /\
  NoDup (keys (func_counts st)) /\
  NoDup (keys (exclusive_time st)) /\
  snd (fst (print_basic_stats st)) = List.length (keys (func_counts st)).
Proof.
  cbv zeta.
  destruct (well_formed_parse_file lines) as (N1 & N2 & _ & N4 & _).
  split; [|split; [|split; [|split; [exact N1|split; [exact N4|split;
    [exact N2|]]]]]].
  - intros f.
    destruct (parse_file_state init lines) as (-> & _).
    destruct (scan_inclusive lines init) as (_ & _ & I3).
    rewrite I3. simpl. tauto.
  - intros f.
    destruct (parse_file_state init lines) as (_ & _ & _ & -> & _).
    destruct (scan_inclusive lines init) as (I1 & _ & I3).
    rewrite (I1 eq_refl), keys_named_entries, I3. simpl. tauto.
  - intros f.
    destruct (parse_file_state init lines) as (_ & -> & _).
    rewrite scan_leaves. simpl. tauto.
  - unfold print_basic_stats, keys. simpl. now rewrite length_map.
Qed.

(** ** The hotspots *)

Lemma In_get (d : dict Z) (k : string) :
  In k (keys d) -> In (k, Dict.get d k 0) d.
Proof.
  unfold keys. induction d as [|[k' v] d IH]; simpl; [tauto|].
  intros H. destruct (String.eqb k' k) eqn:E.
  - apply String.eqb_eq in E. subst k'. now left.
  - right. apply IH. destruct H as [H|H]; auto.
    simpl in H. subst k'. now rewrite String.eqb_refl in E.
Qed.

Lemma malloc_hotspots_In (stats : list mem_stat) (f : string) (m : Z) :
  In (f, m) (malloc_hotspots stats) <->
  (exists fr t, In (f, m, fr, t) stats) /\ m > 0.
Proof.
  unfold malloc_hotspots. rewrite sorted_desc_In, in_flat_map. split.
  - intros ([[[g a] b] t] & Hin & H).
    destruct (a >? 0) eqn:E; [|contradiction].
    destruct H as [H|[]]. injection H as -> ->.
    split; [eauto|lia].
  - intros ((fr & t & Hin) & Hm). exists (f, m, fr, t). split; auto.
    assert ((m >? 0) = true) as -> by lia. now left.
Qed.

Lemma free_hotspots_In (stats : list mem_stat) (f : string) (fr : Z) :
  In (f, fr) (free_hotspots stats) <->
  (exists m t, In (f, m, fr, t) stats) /\ fr > 0.
Proof.
  unfold free_hotspots. rewrite sorted_desc_In, in_flat_map. split.
  - intros ([[[g a] b] t] & Hin & H).
    destruct (b >? 0) eqn:E; [|contradiction].
    destruct H as [H|[]]. injection H as -> ->.
    split; [eauto|lia].
  - intros ((m & t & Hin) & Hm). exists (f, m, fr, t). split; auto.
    assert ((fr >? 0) = true) as -> by lia. now left.
Qed.

(** X11.  On a parsed file, with the names of the two tallies walked in
    any order, the allocation hotspots are exactly the entries of
    [malloc_counts] with a positive count and the release hotspots exactly
    the entries of [free_counts] with a positive count, each list in
    decreasing order; the report prints at most ten of each and at most
    twenty rows of statistics. *)
Theorem hotspots_are_positive_entries (lines funcs : list string) :
  let st := parse_file init lines in
  enumerates funcs st ->
  (forall f m, In (f, m) (malloc_hotspots (memory_stats st funcs)) <->
               In (f, m) (malloc_counts st) /\ m > 0) /\
  (forall f m, In (f, m) (free_hotspots (memory_stats st funcs)) <->
               In (f, m) (free_counts st) /\ m > 0) /\
  Descending snd (malloc_hotspots (memory_stats st funcs)) /\
  Descending snd (free_hotspots (memory_stats st funcs)) /\
  (forall r, print_memory_analysis st funcs = Ok r ->
             (List.length (mr_stats r) <= 20)%nat /\
             (List.length (mr_malloc_hot r) <= 10)%nat /\
             (List.length (mr_free_hot r) <= 10)%nat).
Proof.
  cbv zeta. intros [_ Henum].
  destruct (well_formed_parse_file lines)
    as (_ & _ & _ & _ & Nm & Nf & _).
  set (st := parse_file init lines) in *.
  assert (forall f, Dict.get (malloc_counts st) f 0 = 0 \/
                    Dict.get (free_counts st) f 0 = 0) as Honce.
  { intros f. exact (counted_once lines f). }
  split; [|split; [|split; [|split]]].
  - intros f m. rewrite malloc_hotspots_In. split.
    + intros [(fr & t & Hin) Hm]. apply memory_stats_In in Hin.
      destruct Hin as (_ & -> & _). split; [|exact Hm].
      apply In_get.
      destruct (in_dec string_dec f (keys (malloc_counts st))) as [|Hn]; auto.
      rewrite (get_absent _ _ 0 Hn) in Hm. lia.
    + intros [Hin Hm]. split; [|exact Hm]. exists 0, m.
      apply memory_stats_In.
      pose proof (get_In _ _ _ Nm Hin) as Hget.
      split.
      * apply Henum. left. apply in_map_iff. now exists (f, m).
      * destruct (Honce f); repeat split; lia.
  - intros f m. rewrite free_hotspots_In. split.
    + intros [(a & t & Hin) Hm]. apply memory_stats_In in Hin.
      destruct Hin as (_ & _ & -> & _). split; [|exact Hm].
      apply In_get.
      destruct (in_dec string_dec f (keys (free_counts st))) as [|Hn]; auto.
      rewrite (get_absent _ _ 0 Hn) in Hm. lia.
    + intros [Hin Hm]. split; [|exact Hm]. exists 0, m.
      apply memory_stats_In.
      pose proof (get_In _ _ _ Nf Hin) as Hget.
      split.
      * apply Henum. right. apply in_map_iff. now exists (f, m).
      * destruct (Honce f); repeat split; lia.
  - apply sorted_desc_sorted.
  - apply sorted_desc_sorted.
  - intros r. unfold print_memory_analysis.
    destruct (memory_stats st funcs) as [|s0 stats].
    + intros H. injection H as <-. simpl. lia.
    + destruct (percentage (Dict.total (malloc_counts st)) (total_samples st));
        cbn [bind]; [|discriminate].
      destruct (percentage (Dict.total (free_counts st)) (total_samples st));
        cbn [bind]; [|discriminate].
      destruct (memory_ratio _ _); cbn [bind]; [|discriminate].
      assert (forall (A : Type) (n : nat) (l : list A),
                 (List.length (slice_to (Z.of_nat n) l) <= n)%nat) as Hcut.
      { intros A n l. rewrite slice_to_nat, length_firstn. lia. }
      intros H.
      pose proof (f_equal (fun x => match x with
                                    | Ok r' => List.length (mr_stats r')
                                    | Raise _ => 0%nat
                                    end) H) as H1.
      pose proof (f_equal (fun x => match x with
                                    | Ok r' => List.length (mr_malloc_hot r')
                                    | Raise _ => 0%nat
                                    end) H) as H2.
      pose proof (f_equal (fun x => match x with
                                    | Ok r' => List.length (mr_free_hot r')
                                    | Raise _ => 0%nat
                                    end) H) as H3.
      cbn [mr_stats mr_malloc_hot mr_free_hot] in H1, H2, H3.
      rewrite length_map in H1, H2, H3.
      rewrite <- H1, <- H2, <- H3.
      split; [apply (Hcut _ 20%nat)|].
      split; apply (Hcut _ 10%nat).
Qed.

Lemma hotspots_are_positive_entries_witness :
  enumerates ["malloc"; "free"]
             (parse_file init ["x;malloc;2"; "y;free;1"]) /\
  (In ("malloc", 2)
      (malloc_hotspots
         (memory_stats (parse_file init ["x;malloc;2"; "y;free;1"])
                       ["malloc"; "free"])) <->
   In ("malloc", 2)
      (malloc_counts (parse_file init ["x;malloc;2"; "y;free;1"])) /\ 2 > 0).
Proof.
  assert (enumerates ["malloc"; "free"]
                     (parse_file init ["x;malloc;2"; "y;free;1"])) as H.
  { split.
    - repeat constructor; simpl; intuition discriminate.
    - intros f. vm_compute. tauto. }
  split; [exact H|].
  exact (proj1 (hotspots_are_positive_entries
                  ["x;malloc;2"; "y;free;1"] ["malloc"; "free"] H)
               "malloc" 2).
Defined.
